(** * PR review skill: worktree preparation and PR summarisation

    A shallow embedding of the two scripts of the PR review skill,
    [prepare-worktree.py] and [summarize-pr.py], and the properties their
    specification states about them.

    Conventions of the embedding:
    - a Python [str] is a [string] that holds the UTF-8 bytes of its
      characters: concatenation, emptiness, prefix, containment and the order
      of two strings are the same on the bytes as on the characters;
      [Py.str_take] and [Py.strip] read the bytes character by character;
    - the body of a comment, whose characters the script counts, is a
      [Py.text], the list of its characters (code points);
    - a Python exception is a value of [Py.exception]; a function that may
      raise gives a [Py.result], a value or an exception;
    - everything outside the interpreter (file system, git, the [gh] CLI, the
      GraphQL endpoint, the environment) is a field of a record ([Host],
      [Services]) that answers the calls the scripts make; the calls that
      act on the outside are recorded, in order, in an event log;
    - a run of a script ends in a [Py.outcome]: it has returned, it has
      raised, or a [while] loop has used up the fuel it was given. *)

From Stdlib Require Import ZArith Ascii String List Sorted Permutation Lia.
From stdpp Require Import base option list strings gmap pretty.

Local Open Scope string_scope.
Local Open Scope list_scope.

(** ** Python values and control *)

Module Py.

(** The exception classes the scripts raise or catch.  Every exception
    carries the text [str(e)] gives; [CalledProcessError] also carries the
    captured standard error of the process. *)
Inductive exception : Type :=
| ValueError (msg : string)
| IndexError (msg : string)
| CalledProcessError (msg : string) (stderr : string)
| GitCommandError (msg : string)
| OSError (msg : string)
| OtherException (msg : string)
| TypeError (msg : string).

Definition str_of_exception (e : exception) : string :=
  match e with
  | ValueError msg => msg
  | IndexError msg => msg
  | CalledProcessError msg _ => msg
  | GitCommandError msg => msg
  | OSError msg => msg
  | OtherException msg => msg
  | TypeError msg => msg
  end.

(** What a function without effects, or a call on the outside, comes to:
    a value, or an exception. *)
Inductive result (A : Type) : Type :=
| Return (a : A)
| Raise (e : exception).

Arguments Return {A} a.
Arguments Raise {A} e.

Definition result_bind {A B : Type} (f : A → result B) (m : result A) : result B :=
  match m with
  | Return a => f a
  | Raise e => Raise e
  end.

#[export] Instance result_ret : MRet result := λ A a, Return a.
#[export] Instance result_mbind : MBind result := λ A B f m, result_bind f m.

(** How the run of a part of a script ends: it has returned, it has
    raised, or a loop in it has used up its fuel. *)
Inductive outcome (A : Type) : Type :=
| Returned (a : A)
| Raised (e : exception)
| OutOfFuel.

Arguments Returned {A} a.
Arguments Raised {A} e.
Arguments OutOfFuel {A}.

Definition outcome_of {A : Type} (r : result A) : outcome A :=
  match r with
  | Return a => Returned a
  | Raise e => Raised e
  end.

(** A computation with effects: its outcome and the events it caused. *)
Definition IO (E A : Type) : Type := outcome A * list E.

Definition io_ret {E A : Type} (a : A) : IO E A := (Returned a, []).

Definition io_bind {E A B : Type} (f : A → IO E B) (m : IO E A) : IO E B :=
  match m with
  | (Returned a, log) => let '(r, log') := f a in (r, log ++ log')
  | (Raised e, log) => (Raised e, log)
  | (OutOfFuel, log) => (OutOfFuel, log)
  end.

#[export] Instance io_mret {E : Type} : MRet (IO E) := λ A a, io_ret a.
#[export] Instance io_mbind {E : Type} : MBind (IO E) := λ A B f m, io_bind f m.

Definition raise {E A : Type} (e : exception) : IO E A := (Raised e, []).
Definition emit {E : Type} (ev : E) : IO E unit := (Returned tt, [ev]).
Definition lift {E A : Type} (r : result A) : IO E A := (outcome_of r, []).
Definition out_of_fuel {E A : Type} : IO E A := (OutOfFuel, []).

(** [try: m  except Exception as e: h e] *)
Definition try_except {E A : Type} (m : IO E A) (h : exception → IO E A) : IO E A :=
  match m with
  | (Raised e, log) => let '(r, log') := h e in (r, log ++ log')
  | _ => m
  end.

(** The run has come to its end with the fuel it had. *)
Definition ends {E A : Type} (m : IO E A) : Prop := m.1 ≠ OutOfFuel.

(** *** Strings *)

(** Truth value of a [str]: false exactly for the empty string. *)
Definition str_bool (s : string) : bool :=
  match s with
  | "" => false
  | String _ _ => true
  end.

(** Truth value of what [d.get(k)] gives: [None] and [""] are false. *)
Definition get_bool (o : option string) : bool :=
  match o with
  | Some s => str_bool s
  | None => false
  end.

(** [a or b] on values that are [None] or a [str]. *)
Definition py_or (a b : option string) : option string :=
  if get_bool a then a else b.

(** [pat in s] *)
Fixpoint str_in (pat s : string) : bool :=
  String.prefix pat s ||
  match s with
  | "" => false
  | String _ s' => str_in pat s'
  end.

(** A byte that continues a character of more than one byte. *)
Definition is_continuation (c : ascii) : bool :=
  let n := nat_of_ascii c in
  ((128 <=? n) && (n <? 192))%nat.

(** [s[:n]]: the first [n] characters, each with the bytes that continue
    it. *)
Fixpoint str_take (n : nat) (s : string) : string :=
  match s with
  | "" => ""
  | String c s' =>
      if is_continuation c then String c (str_take n s')
      else match n with
           | O => ""
           | S n' => String c (str_take n' s')
           end
  end.

(** [f"{x}"] for [x] that is a [str] or [None]. *)
Definition str_of_optional (o : option string) : string := default "None" o.

(** [l[i]] *)
Definition getitem {A : Type} (l : list A) (i : nat) : result A :=
  match l !! i with
  | Some a => Return a
  | None => Raise (IndexError "list index out of range")
  end.

(** [x[key]] where [x] is [None], or a dict that has [key] with the value
    [a]. *)
Definition subscript {A : Type} (x : option A) : result A :=
  match x with
  | Some a => Return a
  | None => Raise (TypeError "'NoneType' object is not subscriptable")
  end.

(** A [for] loop that appends to a list what [f] gives for each item,
    until [f] raises. *)
Fixpoint collect {A B : Type} (f : A → result (list B)) (l : list A) : result (list B) :=
  match l with
  | [] => Return []
  | x :: l' =>
      items ← f x;
      rest ← collect f l';
      Return (items ++ rest)
  end.

(** [enumerate(l, start)] *)
Fixpoint enumerate {A : Type} (start : nat) (l : list A) : list (nat * A) :=
  match l with
  | [] => []
  | x :: l' => (start, x) :: enumerate (S start) l'
  end.

Definition bytes (codes : list nat) : string :=
  string_of_list_ascii (ascii_of_nat <$> codes).

(** The white space characters of [str.strip], each by its bytes: the
    characters 9 to 13 and 28 to 32, U+0085, U+00A0, U+1680, U+2000 to
    U+200A, U+2028, U+2029, U+202F, U+205F and U+3000. *)
Definition whitespace : list string :=
  ((λ code, bytes [code]) <$> [9; 10; 11; 12; 13; 28; 29; 30; 31; 32])
  ++ [bytes [194; 133]; bytes [194; 160]; bytes [225; 154; 128]]
  ++ ((λ code, bytes [226; 128; code])
        <$> [128; 129; 130; 131; 132; 133; 134; 135; 136; 137; 138; 168; 169; 175])
  ++ [bytes [226; 129; 159]; bytes [227; 128; 128]].

Fixpoint str_drop (n : nat) (s : string) : string :=
  match n, s with
  | S n', String _ s' => str_drop n' s'
  | _, _ => s
  end.

(** [s] without the character of [spaces] it begins with, when it begins
    with one. *)
Definition drop_space (spaces : list string) (s : string) : option string :=
  head (omap (λ space, if String.prefix space s
                       then Some (str_drop (String.length space) s) else None) spaces).

(** The characters of [spaces] taken from the beginning of [s], one for
    each unit of fuel at most. *)
Fixpoint lstrip_with (spaces : list string) (fuel : nat) (s : string) : string :=
  match fuel with
  | O => s
  | S fuel' =>
      match drop_space spaces s with
      | Some s' => lstrip_with spaces fuel' s'
      | None => s
      end
  end.

Definition lstrip (s : string) : string :=
  lstrip_with whitespace (String.length s) s.

(** At the end of [s] a character is found by its bytes read backwards. *)
Definition rstrip (s : string) : string :=
  String.rev (lstrip_with (String.rev <$> whitespace) (String.length s) (String.rev s)).

(** [s.strip()] *)
Definition strip (s : string) : string := rstrip (lstrip s).

(** [str(n)] for an [int] *)
Definition str_of_int (n : Z) : string := pretty n.

(** *** Texts *)

(** A [str] as the list of its characters, each by its code point. *)
Definition text : Type := list N.

Definition line_feed : N := 10.

(** The text of a literal of ASCII characters. *)
Definition text_of_ascii (s : string) : text := N_of_ascii <$> list_ascii_of_string s.

(** Truth value of a text: false exactly for the empty one. *)
Definition text_bool (t : text) : bool :=
  match t with
  | [] => false
  | _ :: _ => true
  end.

(** Truth value of what [d.get(k)] gives. *)
Definition get_text_bool (o : option text) : bool :=
  match o with
  | Some t => text_bool t
  | None => false
  end.

(** [t.split(sep)] for a separator of one character: the pieces between
    the separators, at least one piece. *)
Fixpoint text_split (sep : N) (t : text) : list text :=
  match t with
  | [] => [[]]
  | c :: t' =>
      if decide (c = sep) then [] :: text_split sep t'
      else match text_split sep t' with
           | piece :: pieces => (c :: piece) :: pieces
           | [] => [[c]]
           end
  end.

(** *** Sorting *)

(** A stable sort on [str] keys, which compare by character code, as the
    bytes do: an item goes after the items whose key is at most its own. *)
Fixpoint insert_by {A : Type} (key : A → string) (x : A) (l : list A) : list A :=
  match l with
  | [] => [x]
  | y :: l' => if String.ltb (key x) (key y) then x :: l else y :: insert_by key x l'
  end.

(** The two keys [<] was given when [list.sort] first compared a [None]:
    which they are depends on the course the sort takes on the list. *)
Inductive clash : Type :=
| NoneAndStr
| StrAndNone
| NoneAndNone.

Definition unorderable (c : clash) : string :=
  "'<' not supported between instances of "
  +:+ match c with
      | NoneAndStr => "'NoneType' and 'str'"
      | StrAndNone => "'str' and 'NoneType'"
      | NoneAndNone => "'NoneType' and 'NoneType'"
      end.

(** [l.sort(key=key)] where a key is a [str] or [None].  A list of fewer
    than two items is left as it is, nothing is compared.  In a longer list
    the sort compares every key with another one, and [<] raises a
    [TypeError] when one of the two is [None]; [first_clash] tells from the
    keys which comparison that is.  Is no key [None], the items are sorted
    by their keys, and the sort is stable. *)
Definition sort_by {A : Type} (first_clash : list (option string) → clash)
  (key : A → option string) (l : list A) : result (list A) :=
  match l with
  | [] | [_] => Return l
  | _ :: _ :: _ =>
      match mapM (λ x, k ← key x; Some (k, x)) l with
      | Some keyed =>
          Return (snd <$> foldl (λ sorted x, insert_by fst x sorted) [] keyed)
      | None => Raise (TypeError (unorderable (first_clash (key <$> l))))
      end
  end.

(** *** Processes *)

(** [repr] of a list of plain strings, as it shows in a message. *)
Definition repr_list (l : list string) : string :=
  "[" +:+ String.concat ", " ((λ s, "'" +:+ s +:+ "'") <$> l) +:+ "]".

(** The names of [signal.Signals] on Linux, by number. *)
Definition signal_names : list (Z * string) :=
  [(1, "SIGHUP"); (2, "SIGINT"); (3, "SIGQUIT"); (4, "SIGILL"); (5, "SIGTRAP");
   (6, "SIGABRT"); (7, "SIGBUS"); (8, "SIGFPE"); (9, "SIGKILL"); (10, "SIGUSR1");
   (11, "SIGSEGV"); (12, "SIGUSR2"); (13, "SIGPIPE"); (14, "SIGALRM"); (15, "SIGTERM");
   (16, "SIGSTKFLT"); (17, "SIGCHLD"); (18, "SIGCONT"); (19, "SIGSTOP"); (20, "SIGTSTP");
   (21, "SIGTTIN"); (22, "SIGTTOU"); (23, "SIGURG"); (24, "SIGXCPU"); (25, "SIGXFSZ");
   (26, "SIGVTALRM"); (27, "SIGPROF"); (28, "SIGWINCH"); (29, "SIGIO"); (30, "SIGPWR");
   (31, "SIGSYS"); (34, "SIGRTMIN"); (64, "SIGRTMAX")]%Z.

(** [str(e)] of the [CalledProcessError] of a command line that ended
    with [returncode]; a negative one tells the signal that ended it. *)
Definition called_process_message (argv : list string) (returncode : Z) : string :=
  "Command '" +:+ repr_list argv +:+ "' "
  +:+ (if (returncode <? 0)%Z then
         match (list_to_map signal_names : gmap Z string) !! (- returncode)%Z with
         | Some name =>
             "died with <Signals." +:+ name +:+ ": " +:+ str_of_int (- returncode) +:+ ">."
         | None => "died with unknown signal " +:+ str_of_int (- returncode) +:+ "."
         end
       else "returned non-zero exit status " +:+ str_of_int returncode +:+ ".").

(** What became of a command line given to [subprocess.run]: it ran and
    exited, or the system could not start it. *)
Inductive process : Type :=
| Exited (returncode : Z) (stdout stderr : string)
| NotStarted (msg : string).

(** [subprocess.run(argv, capture_output=True, text=True, check=check).stdout]:
    with [check], a non-zero exit status raises [CalledProcessError]. *)
Definition completed_stdout (argv : list string) (check : bool) (p : process)
  : result string :=
  match p with
  | NotStarted msg => Raise (OSError msg)
  | Exited returncode stdout stderr =>
      if check && negb (returncode =? 0)%Z
      then Raise (CalledProcessError (called_process_message argv returncode) stderr)
      else Return stdout
  end.

(** *** Events *)

(** The calls that act on the outside, logged when they are made: a line
    printed to standard error, a command line run, or a call [x] that is the
    script's own. *)
Inductive event (X : Type) : Type :=
| Stderr (text : string)
| Spawn (argv : list string) (cwd : option string)
| Outside (x : X).

Arguments Stderr {X} text.
Arguments Spawn {X} argv cwd.
Arguments Outside {X} x.

(** [print(text, file=sys.stderr)] *)
Definition print_stderr {X : Type} (text : string) : IO (event X) unit :=
  emit (Stderr text).

Definition call {X A : Type} (x : X) (answer : result A) : IO (event X) A :=
  (outcome_of answer, [Outside x]).

(** [subprocess.run] where [run] tells what becomes of a command line. *)
Definition subprocess_run {X : Type} (run : list string → option string → process)
  (argv : list string) (cwd : option string) (check : bool) : IO (event X) string :=
  (outcome_of (completed_stdout argv check (run argv cwd)), [Spawn argv cwd]).

(** [Path(a) / b] on the text of the paths. *)
Definition joinpath (a b : string) : string :=
  if String.prefix "/" b then b
  else if String.prefix "/" (String.rev a) then a +:+ b
  else a +:+ "/" +:+ b.

(** The order of two items under [key]. *)
Definition le_by {A : Type} (key : A → string) (x y : A) : Prop :=
  String.leb (key x) (key y) = true.

(** Two keys in order: both are a [str], and the first is at most the
    second. *)
Definition keys_le (a b : option string) : Prop :=
  match a, b with
  | Some s, Some t => String.leb s t = true
  | _, _ => False
  end.

End Py.

Import Py.

(** ** prepare-worktree.py *)

Module PrepareWorktree.

Record Remote : Type := { remote_name : string; remote_url : string }.

(** [find_remote_for_repo]: the first remote whose URL has the text
    [owner/repo_name], or [:owner/repo_name], somewhere in it. *)
Fixpoint find_remote_for_repo (remotes : list Remote) (owner repo_name : string)
  : result string :=
  match remotes with
  | [] => Raise (ValueError ("No remote found for " +:+ owner +:+ "/" +:+ repo_name))
  | remote :: remotes' =>
      let url := remote_url remote in
      if str_in (owner +:+ "/" +:+ repo_name) url
         || str_in (":" +:+ owner +:+ "/" +:+ repo_name) url
      then Return (remote_name remote)
      else find_remote_for_repo remotes' owner repo_name
  end.

(** The answers of the outside world to the calls of the script. *)
Record Host : Type := {
  resolve : string → string;                     (* Path(p).resolve() *)
  path_exists : string → bool;                   (* Path(p).exists() *)
  run : list string → option string → process;   (* command line, cwd *)
  pr_info_of_json : string → result (string * string);
      (* json.loads of [gh pr view]: headRefName, headRefOid *)
  repo_info_of_json : string → result (string * string);
      (* json.loads of [gh repo view]: owner.login, name *)
  open_repo : string → result unit;             (* Repo(path) *)
  remotes : string → list Remote;                (* Repo(path).remotes *)
  is_dirty : string → result bool;  (* Repo(path).is_dirty(untracked_files=True) *)
  git : list string → result unit;              (* repo.git.<command>(args) *)
  mkdir : string → result unit;                 (* Path(p).mkdir(exist_ok=True) *)
  write_text : string → string → result unit;   (* Path(p).write_text(text) *)
  rmtree : string → result unit                 (* shutil.rmtree(p) *)
}.

(** The calls of the script on the file system and on git. *)
Inductive action : Type :=
| Mkdir (path : string)
| WriteText (path text : string)
| Git (args : list string)
| Rmtree (path : string).

Abbreviation IOw := (IO (event action)).

Definition get_pr_info (w : Host) (repo_path : string) (pr_number : Z)
  : IOw (string * string) :=
  try_except
    (stdout ← subprocess_run (run w)
       ["gh"; "pr"; "view"; str_of_int pr_number; "--json"; "headRefName,headRefOid"]
       (Some repo_path) true;
     lift (pr_info_of_json w stdout))
    (λ e, match e with
          | CalledProcessError _ stderr =>
              raise (ValueError ("Failed to get PR information: " +:+ stderr))
          | _ => raise e
          end).

Definition get_repo_info (w : Host) (repo_path : string) : IOw (string * string) :=
  try_except
    (stdout ← subprocess_run (run w) ["gh"; "repo"; "view"; "--json"; "owner,name"]
       (Some repo_path) true;
     lift (repo_info_of_json w stdout))
    (λ e, match e with
          | CalledProcessError _ stderr =>
              raise (ValueError ("Failed to get repository information: " +:+ stderr))
          | _ => raise e
          end).

(** The names [prepare_worktree] has resolved before it touches the
    working tree. *)
Record WorktreeContext : Type := {
  ctx_repo_path : string;
  ctx_pr_number : Z;
  ctx_branch_name : string;
  ctx_head_sha : string;
  ctx_remote_name : string;
  ctx_worktree_path : string;
  ctx_review_notes_path : string
}.

(** [prepare_worktree], up to the creation of the directories. *)
Definition resolve_context (w : Host) (repo_path : string) (pr_number : Z)
  : IOw WorktreeContext :=
  let repo_path := resolve w repo_path in
  if negb (path_exists w repo_path)
  then raise (ValueError ("Repository path does not exist: " +:+ repo_path))
  else
    _ ← try_except (lift (open_repo w repo_path))
          (λ e, raise (ValueError ("Not a valid git repository: " +:+ repo_path)));
    pr_info ← get_pr_info w repo_path pr_number;
    let branch_name := pr_info.1 in
    let head_sha := pr_info.2 in
    repo_info ← get_repo_info w repo_path;
    remote_name ← lift (find_remote_for_repo (remotes w repo_path) repo_info.1 repo_info.2);
    let worktrees_dir := joinpath repo_path "git-worktrees" in
    _ ← call (Mkdir worktrees_dir) (mkdir w worktrees_dir);
    let review_notes_dir := joinpath repo_path "review-notes" in
    _ ← call (Mkdir review_notes_dir) (mkdir w review_notes_dir);
    let worktree_path := joinpath worktrees_dir branch_name in
    let review_notes_path := joinpath review_notes_dir branch_name in
    _ ← call (Mkdir review_notes_path) (mkdir w review_notes_path);
    mret {| ctx_repo_path := repo_path; ctx_pr_number := pr_number;
            ctx_branch_name := branch_name; ctx_head_sha := head_sha;
            ctx_remote_name := remote_name; ctx_worktree_path := worktree_path;
            ctx_review_notes_path := review_notes_path |}.

Definition readme_template (pr_number : Z) (branch_name worktree_path date : string)
  : string :=
  "# PR #" +:+ str_of_int pr_number +:+ " Review Notes

## PR Information
- **Branch**: `" +:+ branch_name +:+ "`
- **Worktree**: `" +:+ worktree_path +:+ "`
- **Review Started**: " +:+ date +:+ "

## Review Progress

### 1. PR Summary Analysis
- [ ] Reviewed PR description and metadata
- [ ] Reviewed file changes
- [ ] Reviewed discussion timeline
- [ ] Identified unresolved comments

**Notes:**


### 2. Context Gathering
- [ ] Identified related files and dependencies
- [ ] Reviewed test coverage
- [ ] Checked documentation updates
- [ ] Reviewed architecture alignment

**Notes:**


### 3. Code Review
- [ ] Reviewed all changed files
- [ ] Checked for correctness and logic issues
- [ ] Verified error handling
- [ ] Assessed performance implications
- [ ] Checked security concerns

**Notes:**


### 4. Issues Found

#### Unresolved Comments (from PR)


#### New Issues Found


### 5. Final Recommendation

**Status**: [ ] Approve [ ] Request Changes [ ] Comment

**Summary:**


**Action Items:**

".

(** The README of the review notes, written when it is not there yet. *)
Definition seed_review_notes (w : Host) (c : WorktreeContext) : IOw unit :=
  let readme_path := joinpath (ctx_review_notes_path c) "README.md" in
  if negb (path_exists w readme_path) then
    date ← subprocess_run (run w) ["date"; "+%Y-%m-%d %H:%M:%S"] None false;
    let readme_template :=
      readme_template (ctx_pr_number c) (ctx_branch_name c) (ctx_worktree_path c)
        (strip date) in
    _ ← call (WriteText readme_path readme_template) (write_text w readme_path readme_template);
    print_stderr ("Created review notes at: " +:+ ctx_review_notes_path c +:+ "/README.md")
  else mret tt.

Definition uncommitted_changes_message (worktree_path : string) : string :=
  "Worktree at " +:+ worktree_path +:+ " has uncommitted changes. "
  +:+ "Please commit or discard changes before recreating the worktree.".

(** The check of a working tree that is already at the target path, and
    its removal. *)
Definition remove_existing_worktree (w : Host) (c : WorktreeContext) : IOw unit :=
  let worktree_path := ctx_worktree_path c in
  if path_exists w worktree_path then
    _ ← print_stderr ("Worktree already exists at: " +:+ worktree_path);
    _ ← try_except
          (_ ← lift (open_repo w worktree_path);
           dirty ← lift (is_dirty w worktree_path);
           if dirty : bool
           then raise (ValueError (uncommitted_changes_message worktree_path))
           else mret tt)
          (λ e, if str_in "uncommitted changes" (str_of_exception e)
                then raise e
                else print_stderr ("Warning: Could not check if worktree is dirty: "
                                     +:+ str_of_exception e));
    _ ← print_stderr "Removing and recreating...";
    try_except
      (call (Git ["worktree"; "remove"; worktree_path; "--force"])
         (git w ["worktree"; "remove"; worktree_path; "--force"]))
      (λ e, match e with
            | GitCommandError _ =>
                _ ← call (Rmtree worktree_path) (rmtree w worktree_path);
                call (Git ["worktree"; "prune"]) (git w ["worktree"; "prune"])
            | _ => raise e
            end)
  else mret tt.

(** The PR head fetched into a local branch of the PR's name. *)
Definition fetch_pr_branch (w : Host) (c : WorktreeContext) : IOw unit :=
  let branch_name := ctx_branch_name c in
  let refspec := "pull/" +:+ str_of_int (ctx_pr_number c) +:+ "/head:" +:+ branch_name in
  try_except
    (_ ← try_except
           (_ ← call (Git ["branch"; "-D"; branch_name]) (git w ["branch"; "-D"; branch_name]);
            print_stderr ("Deleted existing local branch: " +:+ branch_name))
           (λ e, match e with
                 | GitCommandError _ => mret tt
                 | _ => raise e
                 end);
     _ ← call (Git ["fetch"; ctx_remote_name c; refspec])
           (git w ["fetch"; ctx_remote_name c; refspec]);
     print_stderr ("Created local branch " +:+ branch_name +:+ " at "
                     +:+ str_take 8 (ctx_head_sha c)))
    (λ e, match e with
          | CalledProcessError _ stderr =>
              raise (ValueError ("Failed to fetch PR: " +:+ stderr))
          | _ => raise (ValueError ("Failed to create branch: " +:+ str_of_exception e))
          end).

Definition add_worktree (w : Host) (c : WorktreeContext) : IOw string :=
  let worktree_path := ctx_worktree_path c in
  _ ← try_except
        (call (Git ["worktree"; "add"; worktree_path; ctx_branch_name c])
           (git w ["worktree"; "add"; worktree_path; ctx_branch_name c]))
        (λ e, match e with
              | GitCommandError _ =>
                  raise (ValueError ("Failed to create worktree: " +:+ str_of_exception e))
              | _ => raise e
              end);
  mret worktree_path.

Definition prepare_worktree (w : Host) (repo_path : string) (pr_number : Z)
  : IOw string :=
  c ← resolve_context w repo_path pr_number;
  _ ← seed_review_notes w c;
  _ ← remove_existing_worktree w c;
  _ ← fetch_pr_branch w c;
  add_worktree w c.

(** What the specification means by a URL that has [owner/name] as a path
    segment or after a colon: the text starts the URL or follows a [/] or a
    [:]. *)
Fixpoint segment_scan (at_boundary : bool) (pat url : string) : bool :=
  (at_boundary && String.prefix pat url) ||
  match url with
  | "" => false
  | String c url' =>
      segment_scan (bool_decide (c = "/"%char) || bool_decide (c = ":"%char)) pat url'
  end.

Definition embeds_at_boundary (owner repo_name url : string) : bool :=
  segment_scan true (owner +:+ "/" +:+ repo_name) url.

(** The calls that take a working tree away. *)
Definition is_removal (ev : event action) : bool :=
  match ev with
  | Outside (Git ("worktree" :: "remove" :: _)) => true
  | Outside (Git ["worktree"; "prune"]) => true
  | Outside (Rmtree _) => true
  | _ => false
  end.

(** A host for the examples: every call succeeds, the repository has the
    remote [origin] of [bob/repo], the pull request is on the branch
    [feat], a working tree is already there, dirty or clean as told. *)
Definition example_host (dirty : bool) : Host := {|
  resolve := λ path, path;
  path_exists := λ _, true;
  run := λ _ _, Exited 0 "out" "";
  pr_info_of_json := λ _, Return ("feat", "0123456789abcdef");
  repo_info_of_json := λ _, Return ("bob", "repo");
  open_repo := λ _, Return tt;
  remotes := λ _, [{| remote_name := "origin";
                      remote_url := "git@github.com:bob/repo.git" |}];
  is_dirty := λ _, Return dirty;
  git := λ _, Return tt;
  mkdir := λ _, Return tt;
  write_text := λ _ _, Return tt;
  rmtree := λ _, Return tt
|}.

(** *** The command line *)

Definition prepare_worktree_usage : string :=
  "Usage: prepare-worktree.py <REPO_PATH> <PR_NUMBER>".

(** [main] of prepare-worktree.py, on [sys.argv]; [int] stands for the
    conversion [int(s)].  It gives the exit status and the lines printed
    to standard output; an exception that no handler takes ends the run
    as raised. *)
Definition prepare_worktree_main (int : string → result Z) (w : Host)
  (argv : list string) : IOw (Z * list string) :=
  match argv with
  | [_; repo_path; pr_number] =>
      pr_number ← lift (int pr_number);
      try_except
        (worktree_path ← prepare_worktree w repo_path pr_number;
         mret (0%Z, [worktree_path]))
        (λ e, _ ← print_stderr ("Error: " +:+ str_of_exception e);
              mret (1%Z, []))
  | _ =>
      _ ← print_stderr prepare_worktree_usage;
      mret (1%Z, [])
  end.

(** A conversion for the examples: it knows the text of 7. *)
Definition example_int (s : string) : result Z :=
  if decide (s = "7") then Return 7%Z
  else Raise (ValueError ("invalid literal for int() with base 10: '" +:+ s +:+ "'")).

(** A host where only the repository is there: no notes, no working
    tree; git finds no local branch to delete. *)
Definition fresh_host : Host := {|
  resolve := λ path, path;
  path_exists := λ path, bool_decide (path = "/r");
  run := λ _ _, Exited 0 "out" "";
  pr_info_of_json := λ _, Return ("feat", "0123456789abcdef");
  repo_info_of_json := λ _, Return ("bob", "repo");
  open_repo := λ _, Return tt;
  remotes := λ _, [{| remote_name := "origin";
                      remote_url := "git@github.com:bob/repo.git" |}];
  is_dirty := λ _, Return false;
  git := λ args,
    match args with
    | "branch" :: _ => Raise (GitCommandError "error: branch 'feat' not found.")
    | _ => Return tt
    end;
  mkdir := λ _, Return tt;
  write_text := λ _ _, Return tt;
  rmtree := λ _, Return tt
|}.

(** A host where the working tree is there but does not open as a
    repository, and git cannot remove it. *)
Definition broken_worktree_host : Host := {|
  resolve := λ path, path;
  path_exists := λ _, true;
  run := λ _ _, Exited 0 "out" "";
  pr_info_of_json := λ _, Return ("feat", "0123456789abcdef");
  repo_info_of_json := λ _, Return ("bob", "repo");
  open_repo := λ path,
    if decide (path = "/r") then Return tt else Raise (OtherException path);
  remotes := λ _, [{| remote_name := "origin";
                      remote_url := "git@github.com:bob/repo.git" |}];
  is_dirty := λ _, Return false;
  git := λ args,
    match args with
    | "worktree" :: "remove" :: _ => Raise (GitCommandError "fatal: not a working tree")
    | _ => Return tt
    end;
  mkdir := λ _, Return tt;
  write_text := λ _ _, Return tt;
  rmtree := λ _, Return tt
|}.

(** A host where [gh] exits with status 1. *)
Definition no_gh_host : Host := {|
  resolve := λ path, path;
  path_exists := λ _, true;
  run := λ _ _, Exited 1 "" "no pull requests found";
  pr_info_of_json := λ _, Return ("feat", "0123456789abcdef");
  repo_info_of_json := λ _, Return ("bob", "repo");
  open_repo := λ _, Return tt;
  remotes := λ _, [];
  is_dirty := λ _, Return false;
  git := λ _, Return tt;
  mkdir := λ _, Return tt;
  write_text := λ _ _, Return tt;
  rmtree := λ _, Return tt
|}.

End PrepareWorktree.

(** ** summarize-pr.py *)

Module SummarizePr.

(** *** The data of a pull request, as the GraphQL query selects it

    An [author] is [None] when the API gives [null] for it (the account is
    no longer there), and [submittedAt] is [None] for a review that is not
    submitted yet. *)

Record PageInfo : Type := { hasNextPage : bool; endCursor : option string }.

Record Connection (A : Type) : Type := { pageInfo : PageInfo; nodes : list A }.

Arguments pageInfo {A} c.
Arguments nodes {A} c.

Record File : Type := {
  file_path : string;
  file_additions : Z;
  file_deletions : Z
}.

Record Comment : Type := {
  comment_id : string;
  comment_author : option string;   (* author: None, or its login *)
  comment_body : text;
  comment_createdAt : string
}.

Record Review : Type := {
  review_id : string;
  review_author : option string;    (* author: None, or its login *)
  review_state : string;
  review_body : option text;        (* what review.get("body") gives *)
  review_submittedAt : option string
}.

Record ThreadComment : Type := {
  tc_id : string;
  tc_databaseId : Z;
  tc_author : option string;        (* author: None, or its login *)
  tc_body : text;
  tc_diffHunk : option string; (* what comment.get("diffHunk") gives *)
  tc_path : string;
  tc_line : option Z;
  tc_createdAt : string
}.

Record ReviewThread : Type := {
  thread_id : string;
  isResolved : bool;
  isOutdated : bool;
  resolvedBy : option string;
  thread_comments : Connection ThreadComment
}.

Record PullRequest : Type := {
  title : string;
  number : Z;
  url : string;
  author : option string;      (* author: None, or its login *)
  baseRefName : string;
  headRefName : string;
  state : string;
  additions : Z;
  deletions : Z;
  changedFiles : Z;
  body : option text;          (* what pr_data.get("body") gives *)
  files : Connection File;
  comments : Connection Comment;
  reviews : Connection Review;
  reviewThreads : Connection ReviewThread
}.

Definition set_nodes {A : Type} (c : Connection A) (all : list A) : Connection A :=
  {| pageInfo := pageInfo c; nodes := all |}.

(** [pr_data["files"]["nodes"] = all_files], and the like *)
Definition set_files (pr : PullRequest) (all : list File) : PullRequest :=
  {| title := title pr; number := number pr; url := url pr; author := author pr;
     baseRefName := baseRefName pr; headRefName := headRefName pr; state := state pr;
     additions := additions pr; deletions := deletions pr;
     changedFiles := changedFiles pr; body := body pr;
     files := set_nodes (files pr) all; comments := comments pr;
     reviews := reviews pr; reviewThreads := reviewThreads pr |}.

Definition set_comments (pr : PullRequest) (all : list Comment) : PullRequest :=
  {| title := title pr; number := number pr; url := url pr; author := author pr;
     baseRefName := baseRefName pr; headRefName := headRefName pr; state := state pr;
     additions := additions pr; deletions := deletions pr;
     changedFiles := changedFiles pr; body := body pr;
     files := files pr; comments := set_nodes (comments pr) all;
     reviews := reviews pr; reviewThreads := reviewThreads pr |}.

Definition set_reviews (pr : PullRequest) (all : list Review) : PullRequest :=
  {| title := title pr; number := number pr; url := url pr; author := author pr;
     baseRefName := baseRefName pr; headRefName := headRefName pr; state := state pr;
     additions := additions pr; deletions := deletions pr;
     changedFiles := changedFiles pr; body := body pr;
     files := files pr; comments := comments pr;
     reviews := set_nodes (reviews pr) all; reviewThreads := reviewThreads pr |}.

Definition set_reviewThreads (pr : PullRequest) (all : list ReviewThread) : PullRequest :=
  {| title := title pr; number := number pr; url := url pr; author := author pr;
     baseRefName := baseRefName pr; headRefName := headRefName pr; state := state pr;
     additions := additions pr; deletions := deletions pr;
     changedFiles := changedFiles pr; body := body pr;
     files := files pr; comments := comments pr;
     reviews := reviews pr; reviewThreads := set_nodes (reviewThreads pr) all |}.

(** The variables of [GRAPHQL_QUERY]. *)
Record Variables : Type := {
  v_owner : string;
  v_repo : string;
  v_number : Z;
  filesCursor : option string;
  threadsCursor : option string;
  commentsCursor : option string;
  reviewsCursor : option string
}.

Definition set_filesCursor (c : option string) (v : Variables) : Variables :=
  {| v_owner := v_owner v; v_repo := v_repo v; v_number := v_number v;
     filesCursor := c; threadsCursor := threadsCursor v;
     commentsCursor := commentsCursor v; reviewsCursor := reviewsCursor v |}.

Definition set_threadsCursor (c : option string) (v : Variables) : Variables :=
  {| v_owner := v_owner v; v_repo := v_repo v; v_number := v_number v;
     filesCursor := filesCursor v; threadsCursor := c;
     commentsCursor := commentsCursor v; reviewsCursor := reviewsCursor v |}.

Definition set_commentsCursor (c : option string) (v : Variables) : Variables :=
  {| v_owner := v_owner v; v_repo := v_repo v; v_number := v_number v;
     filesCursor := filesCursor v; threadsCursor := threadsCursor v;
     commentsCursor := c; reviewsCursor := reviewsCursor v |}.

Definition set_reviewsCursor (c : option string) (v : Variables) : Variables :=
  {| v_owner := v_owner v; v_repo := v_repo v; v_number := v_number v;
     filesCursor := filesCursor v; threadsCursor := threadsCursor v;
     commentsCursor := commentsCursor v; reviewsCursor := c |}.

(** The answers of the outside world to the calls of the script. *)
Record Services : Type := {
  environ : gmap string string;                  (* os.environ *)
  spawn : list string → option string → process; (* command line, cwd *)
  execute : string → Variables → result PullRequest
      (* bearer token, variables: what
         client.execute(GRAPHQL_QUERY, ...)["repository"]["pullRequest"] gives *)
}.

(** The one call of the script's own: a query sent to the endpoint. *)
Inductive query : Type :=
| Execute (variables : Variables).

Abbreviation IOs := (IO (event query)).

Definition no_token_message : string :=
  "No GitHub token found. Please set GITHUB_TOKEN or GH_TOKEN environment variable, "
  +:+ "or authenticate with 'gh auth login'".

(** The fall back of [get_github_token] to the configuration of the
    [gh] CLI. *)
Definition gh_auth_token (w : Services) : IOs string :=
  try_except
    (stdout ← subprocess_run (spawn w) ["gh"; "auth"; "token"] None true;
     mret (strip stdout))
    (λ e, match e with
          | CalledProcessError _ _ => raise (ValueError no_token_message)
          | _ => raise e
          end).

Definition get_github_token (w : Services) : IOs string :=
  let token := py_or (environ w !! "GITHUB_TOKEN") (environ w !! "GH_TOKEN") in
  match token with
  | Some token' => if str_bool token' then mret token' else gh_auth_token w
  | None => gh_auth_token w
  end.

Definition paginate_comments (w : Services) (owner repo : string) (pr_number : Z)
  (thread_id : string) (initial_comments : Connection ThreadComment)
  : IOs (list ThreadComment) :=
  let all_comments := nodes initial_comments in
  let page_info := pageInfo initial_comments in
  _ ← (if hasNextPage page_info
       then print_stderr "Warning: Thread has >100 comments, some may be truncated"
       else mret tt);
  mret all_comments.

(** [client.execute(GRAPHQL_QUERY, variable_values=variables)] *)
Definition client_execute (w : Services) (token : string) (variables : Variables)
  : IOs PullRequest :=
  call (Execute variables) (execute w token variables).

(** The four [while] loops of [get_pr_data].  Each gives the variables as
    it leaves them and the nodes it has gathered. *)
Fixpoint paginate_files (fuel : nat) (w : Services) (token : string)
  (variables : Variables) (all_files : list File) (files_page_info : PageInfo)
  : IOs (Variables * list File) :=
  if hasNextPage files_page_info then
    match fuel with
    | O => out_of_fuel
    | S fuel' =>
        let variables := set_filesCursor (endCursor files_page_info) variables in
        result ← client_execute w token variables;
        let page_data := files result in
        paginate_files fuel' w token variables (all_files ++ nodes page_data)
          (pageInfo page_data)
    end
  else mret (variables, all_files).

Fixpoint paginate_general_comments (fuel : nat) (w : Services) (token : string)
  (variables : Variables) (all_comments : list Comment) (comments_page_info : PageInfo)
  : IOs (Variables * list Comment) :=
  if hasNextPage comments_page_info then
    match fuel with
    | O => out_of_fuel
    | S fuel' =>
        let variables := set_commentsCursor (endCursor comments_page_info) variables in
        let variables := set_filesCursor None variables in
        result ← client_execute w token variables;
        let page_data := comments result in
        paginate_general_comments fuel' w token variables
          (all_comments ++ nodes page_data) (pageInfo page_data)
    end
  else mret (variables, all_comments).

Fixpoint paginate_reviews (fuel : nat) (w : Services) (token : string)
  (variables : Variables) (all_reviews : list Review) (reviews_page_info : PageInfo)
  : IOs (Variables * list Review) :=
  if hasNextPage reviews_page_info then
    match fuel with
    | O => out_of_fuel
    | S fuel' =>
        let variables := set_reviewsCursor (endCursor reviews_page_info) variables in
        let variables := set_filesCursor None variables in
        let variables := set_commentsCursor None variables in
        result ← client_execute w token variables;
        let page_data := reviews result in
        paginate_reviews fuel' w token variables
          (all_reviews ++ nodes page_data) (pageInfo page_data)
    end
  else mret (variables, all_reviews).

Fixpoint paginate_threads (fuel : nat) (w : Services) (token : string)
  (variables : Variables) (all_threads : list ReviewThread) (threads_page_info : PageInfo)
  : IOs (Variables * list ReviewThread) :=
  if hasNextPage threads_page_info then
    match fuel with
    | O => out_of_fuel
    | S fuel' =>
        let variables := set_threadsCursor (endCursor threads_page_info) variables in
        let variables := set_filesCursor None variables in
        let variables := set_commentsCursor None variables in
        let variables := set_reviewsCursor None variables in
        result ← client_execute w token variables;
        let page_data := reviewThreads result in
        paginate_threads fuel' w token variables
          (all_threads ++ nodes page_data) (pageInfo page_data)
    end
  else mret (variables, all_threads).

Definition get_pr_data (fuel : nat) (w : Services) (owner repo : string) (pr_number : Z)
  : IOs PullRequest :=
  token ← get_github_token w;
  let variables :=
    {| v_owner := owner; v_repo := repo; v_number := pr_number;
       filesCursor := None; threadsCursor := None;
       commentsCursor := None; reviewsCursor := None |} in
  pr_data ← client_execute w token variables;
  r ← paginate_files fuel w token variables
        (nodes (files pr_data)) (pageInfo (files pr_data));
  let variables := r.1 in
  let pr_data := set_files pr_data r.2 in
  r ← paginate_general_comments fuel w token variables
        (nodes (comments pr_data)) (pageInfo (comments pr_data));
  let variables := r.1 in
  let pr_data := set_comments pr_data r.2 in
  r ← paginate_reviews fuel w token variables
        (nodes (reviews pr_data)) (pageInfo (reviews pr_data));
  let variables := r.1 in
  let pr_data := set_reviews pr_data r.2 in
  r ← paginate_threads fuel w token variables
        (nodes (reviewThreads pr_data)) (pageInfo (reviewThreads pr_data));
  let pr_data := set_reviewThreads pr_data r.2 in
  mret pr_data.

(** *** Unresolved threads *)

Record UnresolvedThread : Type := {
  threadId : string;
  u_isResolved : bool;
  u_isOutdated : bool;
  u_author : string;
  u_line : option Z;
  u_path : string;
  preview : text;
  commentCount : nat;
  allComments : list ThreadComment
}.

(** The [for] loop of [extract_unresolved_threads], from the threads left
    to visit and the list built so far. *)
Fixpoint extract_loop (threads : list ReviewThread) (unresolved : list UnresolvedThread)
  : result (list UnresolvedThread) :=
  match threads with
  | [] => Return unresolved
  | thread :: threads' =>
      if negb (isResolved thread) then
        first_comment ← getitem (nodes (thread_comments thread)) 0;
        first_line ← getitem (text_split line_feed (tc_body first_comment)) 0;
        let preview := take 120 first_line in
        author ← subscript (tc_author first_comment);
        extract_loop threads'
          (unresolved ++
           [{| threadId := thread_id thread;
               u_isResolved := isResolved thread;
               u_isOutdated := isOutdated thread;
               u_author := author;
               u_line := tc_line first_comment;
               u_path := tc_path first_comment;
               preview := preview;
               commentCount := length (nodes (thread_comments thread));
               allComments := nodes (thread_comments thread) |}])
      else extract_loop threads' unresolved
  end.

Definition extract_unresolved_threads (pr_data : PullRequest)
  : result (list UnresolvedThread) :=
  let threads := nodes (reviewThreads pr_data) in
  extract_loop threads [].

(** *** The document *)

(** A part of a paragraph: plain text, [Inline(text, bold=True)] or
    [Inline(text, code=True)]. *)
Inductive inline : Type :=
| Text (text : string)
| Bold (text : string)
| InlineCode (text : string).

Definition paragraph : Type := list inline.

(** The blocks the script adds to the document, in the order it adds
    them. *)
Inductive block : Type :=
| Heading (level : nat) (title : string)      (* doc.add_heading *)
| Para (content : paragraph)                  (* doc.add_block, doc.add_paragraph *)
| UnorderedList (items : list paragraph)      (* doc.add_unordered_list *)
| Raw (body : text)                           (* doc.add_raw *)
| HorizontalRule                              (* doc.add_horizontal_rule *)
| CodeBlock (code lang : string).             (* doc.add_code *)

Definition document : Type := list block.

(** An entry of [all_timeline_items]; the constructor is its ["type"]. *)
Inductive timeline_item : Type :=
| TimelineComment (timestamp : option string) (author : string) (body : text)
| TimelineReview (timestamp : option string) (author : string) (body : text)
    (state : string).

Definition timestamp (item : timeline_item) : option string :=
  match item with
  | TimelineComment timestamp _ _ => timestamp
  | TimelineReview timestamp _ _ _ => timestamp
  end.

Definition comment_item (comment : Comment) : result timeline_item :=
  let timestamp := Some (comment_createdAt comment) in
  author ← subscript (comment_author comment);
  Return (TimelineComment timestamp author (comment_body comment)).

(** A review gives an item when [review.get("body")] is true. *)
Definition review_items (review : Review) : result (list timeline_item) :=
  match review_body review with
  | Some body =>
      if text_bool body then
        let timestamp := review_submittedAt review in
        author ← subscript (review_author review);
        Return [TimelineReview timestamp author body (review_state review)]
      else Return []
  | None => Return []
  end.

(** [all_timeline_items] once it is sorted. *)
Definition all_timeline_items (first_clash : list (option string) → clash)
  (pr_data : PullRequest) : result (list timeline_item) :=
  from_comments ← collect (λ comment, item ← comment_item comment; Return [item])
                     (nodes (comments pr_data));
  from_reviews ← collect review_items (nodes (reviews pr_data));
  sort_by first_clash timestamp (from_comments ++ from_reviews).

(** The dictionary of the labels of the review states. *)
Definition state_labels : gmap string string :=
  <["APPROVED" := "✅ APPROVED"]>
  (<["CHANGES_REQUESTED" := "🔴 CHANGES REQUESTED"]>
  (<["COMMENTED" := "💬 COMMENTED"]>
  (<["DISMISSED" := "❌ DISMISSED"]>
  (<["PENDING" := "⏳ PENDING"]> ∅)))).

(** [{...}.get(state, state)] *)
Definition state_label (state : string) : string :=
  default state (state_labels !! state).

Definition timeline_blocks (item : timeline_item) : list block :=
  match item with
  | TimelineComment timestamp author body =>
      [Para [Bold ("@" +:+ author); Text (" (" +:+ str_of_optional timestamp +:+ "):")];
       Raw body; HorizontalRule]
  | TimelineReview timestamp author body state =>
      [Para [Bold ("@" +:+ author);
             Text (" (" +:+ str_of_optional timestamp +:+ ") - "
                     +:+ state_label state +:+ ":")];
       Raw body; HorizontalRule]
  end.

Definition header_blocks (pr_data : PullRequest) : result (list block) :=
  author ← subscript (author pr_data);
  Return
    [Heading 1 ("PR #" +:+ str_of_int (number pr_data) +:+ ": " +:+ title pr_data);
     Para [Bold "URL"; Text (": " +:+ url pr_data)];
     Para [Bold "Author"; Text (": @" +:+ author)];
     Para [Bold "Status"; Text (": " +:+ state pr_data)];
     Para [Bold "Branch"; Text ": "; InlineCode (headRefName pr_data); Text " → ";
           InlineCode (baseRefName pr_data)]].

Definition stats_blocks (pr_data : PullRequest) (unresolved_threads : list UnresolvedThread)
  : list block :=
  [Heading 2 "Summary";
   UnorderedList
     [[Bold "Files changed"; Text (": " +:+ str_of_int (changedFiles pr_data))];
      [Bold "Additions"; Text (": +" +:+ str_of_int (additions pr_data))];
      [Bold "Deletions"; Text (": -" +:+ str_of_int (deletions pr_data))];
      [Bold "General comments";
       Text (": " +:+ str_of_int (Z.of_nat (length (nodes (comments pr_data)))))];
      [Bold "Unresolved review comments";
       Text (": " +:+ str_of_int (Z.of_nat (length unresolved_threads)))]]].

Definition description_blocks (pr_data : PullRequest) : list block :=
  match body pr_data with
  | Some body => if text_bool body then [Heading 2 "Description"; Raw body] else []
  | None => []
  end.

Definition file_blocks (pr_data : PullRequest) : list block :=
  Heading 2 "Files Changed" ::
  match nodes (files pr_data) with
  | [] => [Para [Text "*No file changes found*"]]
  | _ :: _ =>
      [UnorderedList
         ((λ file, [InlineCode (file_path file);
                    Text (" (+" +:+ str_of_int (file_additions file) +:+ " -"
                            +:+ str_of_int (file_deletions file) +:+ ")")])
            <$> nodes (files pr_data))]
  end.

Definition discussion_blocks (all_timeline_items : list timeline_item) : list block :=
  match all_timeline_items with
  | [] => []
  | _ :: _ =>
      Heading 2 "Discussion & Reviews" :: flat_map timeline_blocks all_timeline_items
  end.

(** The blocks of a comment of a thread, from its place [idx] in the
    thread and the comment. *)
Definition thread_comment_blocks (entry : nat * ThreadComment) : result (list block) :=
  let '(idx, comment) := entry in
  author ← subscript (tc_author comment);
  Return
    ([Para [Bold ("@" +:+ author); Text (" (" +:+ tc_createdAt comment +:+ "):")]]
     ++ match idx, tc_diffHunk comment with
        | 0, Some hunk =>
            if str_bool hunk then [Para [Bold "Code context:"]; CodeBlock hunk "diff"]
            else []
        | _, _ => []
        end
     ++ [Raw (tc_body comment); HorizontalRule]).

(** The blocks of a thread, from its number [i] and the thread. *)
Definition unresolved_thread_blocks (entry : nat * UnresolvedThread)
  : result (list block) :=
  let '(i, thread) := entry in
  of_comments ← collect thread_comment_blocks (enumerate 0 (allComments thread));
  Return
    ([Heading 3 (str_of_int (Z.of_nat i) +:+ ". Comment by @" +:+ u_author thread)]
     ++ (if str_bool (u_path thread)
         then [Para ([Bold "Location"; Text ": "; InlineCode (u_path thread)]
                     ++ match u_line thread with
                        | Some line =>
                            if (line =? 0)%Z then []
                            else [Text (" (line " +:+ str_of_int line +:+ ")")]
                        | None => []
                        end)]
         else [])
     ++ [Para [Bold "Status";
               Text (": " +:+ (if u_isOutdated thread then "Outdated" else "Current"))]]
     ++ of_comments).

Definition unresolved_blocks (unresolved_threads : list UnresolvedThread)
  : result (list block) :=
  of_threads ←
    match unresolved_threads with
    | [] => Return [Para [Text "*No unresolved comments*"]]
    | _ :: _ => collect unresolved_thread_blocks (enumerate 1 unresolved_threads)
    end;
  Return (Heading 2 "Unresolved Review Comments" :: of_threads).

(** The document [generate_markdown_summary] builds, when nothing raises
    on the way. *)
Definition summary_document (first_clash : list (option string) → clash)
  (pr_data : PullRequest) (unresolved_threads : list UnresolvedThread)
  : result document :=
  header ← header_blocks pr_data;
  all_timeline_items ← all_timeline_items first_clash pr_data;
  unresolved ← unresolved_blocks unresolved_threads;
  Return (header
          ++ stats_blocks pr_data unresolved_threads
          ++ description_blocks pr_data
          ++ file_blocks pr_data
          ++ discussion_blocks all_timeline_items
          ++ unresolved).

(** [generate_markdown_summary] gives the text SnakeMD makes of the
    document; [str_of_document] stands for [str(doc)]. *)
Definition generate_markdown_summary (str_of_document : document → string)
  (first_clash : list (option string) → clash)
  (pr_data : PullRequest) (unresolved_threads : list UnresolvedThread) : result string :=
  doc ← summary_document first_clash pr_data unresolved_threads;
  Return (str_of_document doc).

(** *** The pages of the API *)

(** The pages the API reports for one collection, from a cursor on: the
    page after the cursor and, as long as a page says that there is a next
    one, the pages after its end cursor. *)
Inductive reported_pages {A : Type} (page_after : option string → Connection A)
  : option string → list (Connection A) → Prop :=
| reported_last (cursor : option string) :
    hasNextPage (pageInfo (page_after cursor)) = false →
    reported_pages page_after cursor [page_after cursor]
| reported_next (cursor : option string) (pages : list (Connection A)) :
    hasNextPage (pageInfo (page_after cursor)) = true →
    reported_pages page_after (endCursor (pageInfo (page_after cursor))) pages →
    reported_pages page_after cursor (page_after cursor :: pages).

(** The endpoint answers every query, and as [GRAPHQL_QUERY] asks: each
    of the four collections from the page after its own cursor. *)
Definition serves (w : Services) (token : string)
  (files_after : option string → Connection File)
  (comments_after : option string → Connection Comment)
  (reviews_after : option string → Connection Review)
  (threads_after : option string → Connection ReviewThread) : Prop :=
  ∀ variables : Variables, ∃ pr : PullRequest,
    execute w token variables = Return pr
    ∧ files pr = files_after (filesCursor variables)
    ∧ comments pr = comments_after (commentsCursor variables)
    ∧ reviews pr = reviews_after (reviewsCursor variables)
    ∧ reviewThreads pr = threads_after (threadsCursor variables).

Definition is_warning (ev : event query) : bool :=
  match ev with
  | Stderr _ => true
  | _ => false
  end.

(** *** What the specification says of the unresolved threads *)

(** What the record built for a thread holds: the identity and the flags
    of the thread, its comments and their number, author, line and path of
    the opening comment, and for the preview the first line of the body of
    the opening comment (the characters before the first line feed, or the
    whole body when it has none) cut at 120 characters: the line itself
    when it has no more, its first 120 characters otherwise. *)
Definition view_of (thread : ReviewThread) (view : UnresolvedThread) : Prop :=
  threadId view = thread_id thread
  ∧ u_isResolved view = false
  ∧ u_isOutdated view = isOutdated thread
  ∧ allComments view = nodes (thread_comments thread)
  ∧ commentCount view = length (nodes (thread_comments thread))
  ∧ ∃ first_comment later line,
      nodes (thread_comments thread) = first_comment :: later
      ∧ tc_author first_comment = Some (u_author view)
      ∧ u_line view = tc_line first_comment
      ∧ u_path view = tc_path first_comment
      ∧ (line_feed ∉ line)
      ∧ (tc_body first_comment = line
         ∨ ∃ rest, tc_body first_comment = line ++ line_feed :: rest)
      ∧ (∃ cut, line = preview view ++ cut)
      ∧ length (preview view) = min 120 (length line).

Definition unresolved (thread : ReviewThread) : Prop := isResolved thread = false.

#[export] Instance unresolved_dec (thread : ReviewThread) : Decision (unresolved thread) :=
  decide (isResolved thread = false).

(** The opening comment of a thread has no author. *)
Definition opens_without_author (thread : ReviewThread) : Prop :=
  ∃ first_comment later,
    nodes (thread_comments thread) = first_comment :: later
    ∧ tc_author first_comment = None.

(** A thread has its opening comment, and the comment its author. *)
Definition opens_with_author (thread : ReviewThread) : Prop :=
  ∃ first_comment later login,
    nodes (thread_comments thread) = first_comment :: later
    ∧ tc_author first_comment = Some login.

(** *** What the specification says of the discussion *)

(** An entry of the discussion: a general comment, or a review. *)
Inductive entry : Type :=
| OfComment (comment : Comment)
| OfReview (review : Review).

(** The author field of an entry. *)
Definition entry_author (e : entry) : option string :=
  match e with
  | OfComment comment => comment_author comment
  | OfReview review => review_author review
  end.

(** The timestamp field of an entry. *)
Definition entry_time (e : entry) : option string :=
  match e with
  | OfComment comment => Some (comment_createdAt comment)
  | OfReview review => review_submittedAt review
  end.

(** Two timestamp fields in order: both hold a timestamp, and the first
    is at most the second as strings compare, character by character. *)
Definition time_le (a b : option string) : Prop :=
  match a, b with
  | Some s, Some t => String.leb s t = true
  | _, _ => False
  end.

(** The blocks that show an entry: a line with the author and the
    timestamp field (and the label of the state, for a review), the body,
    a rule. *)
Inductive shows : entry → list block → Prop :=
| shows_comment (comment : Comment) (login : string) :
    comment_author comment = Some login →
    shows (OfComment comment)
      [Para [Bold ("@" +:+ login); Text (" (" +:+ comment_createdAt comment +:+ "):")];
       Raw (comment_body comment); HorizontalRule]
| shows_review (review : Review) (login : string) (body : text) :
    review_author review = Some login →
    review_body review = Some body →
    shows (OfReview review)
      [Para [Bold ("@" +:+ login);
             Text (" (" +:+ str_of_optional (review_submittedAt review) +:+ ") - "
                     +:+ state_label (review_state review) +:+ ":")];
       Raw body; HorizontalRule].

(** The item of the timeline that stands for an entry. *)
Inductive item_of : entry → timeline_item → Prop :=
| item_of_comment (comment : Comment) (login : string) :
    comment_author comment = Some login →
    item_of (OfComment comment)
      (TimelineComment (Some (comment_createdAt comment)) login (comment_body comment))
| item_of_review (review : Review) (login : string) (body : text) :
    review_author review = Some login →
    review_body review = Some body →
    item_of (OfReview review)
      (TimelineReview (review_submittedAt review) login body (review_state review)).

(** The entries the discussion is made of: every general comment, and
    the reviews with a body. *)
Definition entries_of (pr_data : PullRequest) : list entry :=
  (OfComment <$> nodes (comments pr_data))
  ++ (OfReview <$> filter (λ review, get_text_bool (review_body review) = true)
                     (nodes (reviews pr_data))).

(** The blocks of a document up to its next heading of level 2. *)
Fixpoint up_to_heading (doc : document) : list block :=
  match doc with
  | [] => []
  | Heading 2 _ :: _ => []
  | b :: doc' => b :: up_to_heading doc'
  end.

(** The section of level 2 with a title: the blocks after its heading, up
    to the next heading of level 2. *)
Fixpoint section_of (title : string) (doc : document) : option (list block) :=
  match doc with
  | [] => None
  | Heading 2 t :: doc' =>
      if decide (t = title) then Some (up_to_heading doc') else section_of title doc'
  | _ :: doc' => section_of title doc'
  end.

(** *** A pull request for the examples

    Two pages of files, one page of each other collection, and one review
    thread, unresolved, whose comments have a further page. *)

Definition example_comment : ThreadComment := {|
  tc_id := "c1"; tc_databaseId := 1; tc_author := Some "alice";
  tc_body := text_of_ascii "Please rename this.
It shadows a builtin.";
  tc_diffHunk := Some "@@ -1 +1 @@"; tc_path := "src/a.py"; tc_line := Some 3%Z;
  tc_createdAt := "2024-01-02T00:00:00Z"
|}.

Definition example_thread : ReviewThread := {|
  thread_id := "t1"; isResolved := false; isOutdated := false; resolvedBy := None;
  thread_comments :=
    {| pageInfo := {| hasNextPage := true; endCursor := Some "c100" |};
       nodes := [example_comment] |}
|}.

Definition last_page {A : Type} (l : list A) : Connection A :=
  {| pageInfo := {| hasNextPage := false; endCursor := None |}; nodes := l |}.

Definition example_files_after (cursor : option string) : Connection File :=
  match cursor with
  | None =>
      {| pageInfo := {| hasNextPage := true; endCursor := Some "f1" |};
         nodes := [{| file_path := "src/a.py"; file_additions := 10;
                      file_deletions := 2 |}] |}
  | Some _ =>
      last_page [{| file_path := "src/b.py"; file_additions := 1;
                    file_deletions := 0 |}]
  end.

Definition example_review : Review := {|
  review_id := "r1"; review_author := Some "carol"; review_state := "APPROVED";
  review_body := Some (text_of_ascii "lgtm");
  review_submittedAt := Some "2024-01-03T00:00:00Z"
|}.

Definition example_pull_request (variables : Variables) : PullRequest := {|
  title := "Rename"; number := v_number variables; url := "https://example.org/pr";
  author := Some "bob"; baseRefName := "main"; headRefName := "feat"; state := "OPEN";
  additions := 11; deletions := 2; changedFiles := 2;
  body := Some (text_of_ascii "Renames a thing.");
  files := example_files_after (filesCursor variables);
  comments := last_page [];
  reviews := last_page [example_review];
  reviewThreads := last_page [example_thread]
|}.

Definition example_services : Services := {|
  environ := {["GITHUB_TOKEN" := "secret"]};
  spawn := λ _ _, NotStarted "gh: not found";
  execute := λ _ variables, Return (example_pull_request variables)
|}.

(** The pull request of the end-to-end example of the specification. *)
Definition end_to_end_pull_request : PullRequest := {|
  title := "Add a"; number := 7; url := "https://example.org/pr/7";
  author := Some "bob"; baseRefName := "main"; headRefName := "feat"; state := "OPEN";
  additions := 10; deletions := 2; changedFiles := 1; body := None;
  files := last_page [{| file_path := "src/a.py"; file_additions := 10;
                         file_deletions := 2 |}];
  comments := last_page [];
  reviews := last_page [example_review];
  reviewThreads := last_page []
|}.

(** *** The command line *)

Definition summarize_pr_usage : string :=
  "Usage: summarize-pr.py OWNER REPO PR_NUMBER".

(** [main] of summarize-pr.py, on [sys.argv]; [int] stands for the
    conversion [int(s)], [str_of_document] for [str(doc)], and
    [first_clash] tells the comparison a sort fails at.  It gives the exit
    status and the texts printed to standard output. *)
Definition summarize_pr_main (int : string → result Z)
  (str_of_document : document → string) (first_clash : list (option string) → clash)
  (fuel : nat) (w : Services) (argv : list string) : IOs (Z * list string) :=
  match argv with
  | [_; owner; repo; pr_number] =>
      pr_number ← lift (int pr_number);
      try_except
        (pr_data ← get_pr_data fuel w owner repo pr_number;
         unresolved_threads ← lift (extract_unresolved_threads pr_data);
         markdown ← lift (generate_markdown_summary str_of_document first_clash
                            pr_data unresolved_threads);
         mret (0%Z, [markdown]))
        (λ e, _ ← print_stderr ("Error: " +:+ str_of_exception e);
              mret (1%Z, []))
  | _ =>
      _ ← print_stderr summarize_pr_usage;
      mret (1%Z, [])
  end.

(** *** Reading a document and a request *)

(** The number of cursors a request carries. *)
Definition cursors_set (variables : Variables) : nat :=
  length (omap id [filesCursor variables; threadsCursor variables;
                   commentsCursor variables; reviewsCursor variables]).

(** The headings added to a document with [doc.add_heading], with their
    levels, in order. *)
Definition outline (doc : document) : list (nat * string) :=
  omap (λ b, match b with Heading level title => Some (level, title) | _ => None end) doc.

(** The texts added to a document with [doc.add_raw], in order. *)
Definition raw_texts (doc : document) : list text :=
  omap (λ b, match b with Raw body => Some body | _ => None end) doc.

(** The code blocks added to a document with [doc.add_code], with their
    languages, in order. *)
Definition code_blocks (doc : document) : list (string * string) :=
  omap (λ b, match b with CodeBlock code lang => Some (code, lang) | _ => None end) doc.

Definition item_body (item : timeline_item) : text :=
  match item with
  | TimelineComment _ _ body => body
  | TimelineReview _ _ body _ => body
  end.

(** The diff hunk shown for a thread: that of its first comment, when it
    is there and not empty. *)
Definition shown_hunk (thread : UnresolvedThread) : option string :=
  match allComments thread with
  | comment :: _ =>
      match tc_diffHunk comment with
      | Some hunk => if str_bool hunk then Some hunk else None
      | None => None
      end
  | [] => None
  end.

(** Services where no variable is set and the [gh] CLI is not
    installed. *)
Definition no_cli_services : Services := {|
  environ := ∅;
  spawn := λ _ _, NotStarted "[Errno 2] No such file or directory: 'gh'";
  execute := λ _ variables, Return (example_pull_request variables)
|}.

(** Services without a token: no variable is set and [gh] exits with
    status 1. *)
Definition no_token_services : Services := {|
  environ := ∅;
  spawn := λ _ _, Exited 1 "" "not logged in";
  execute := λ _ variables, Return (example_pull_request variables)
|}.

(** Services whose API reports a next page of files after every page. *)
Definition endless_services : Services := {|
  environ := {["GH_TOKEN" := "secret"]};
  spawn := λ _ _, NotStarted "gh: not found";
  execute := λ _ variables,
    Return (set_files
              {| title := "Rename"; number := v_number variables;
                 url := "https://example.org/pr"; author := Some "bob";
                 baseRefName := "main"; headRefName := "feat"; state := "OPEN";
                 additions := 11; deletions := 2; changedFiles := 2; body := None;
                 files := {| pageInfo := {| hasNextPage := true;
                                            endCursor := Some "again" |};
                             nodes := [] |};
                 comments := last_page []; reviews := last_page [];
                 reviewThreads := last_page [] |} [])
|}.


(** A pull request with a thread that has no comment. *)
Definition empty_thread_pull_request : PullRequest :=
  set_reviewThreads end_to_end_pull_request
    [{| thread_id := "t0"; isResolved := false; isOutdated := false;
        resolvedBy := None; thread_comments := last_page [] |}].

(** *** The shape of the four loops

    Each [while] loop of [get_pr_data] sets the variables for the next
    page with [next], sends the query and reads its own collection, [page],
    from the answer. *)
Fixpoint paginate_with {A : Type} (next : option string → Variables → Variables)
  (page : PullRequest → Connection A) (fuel : nat) (w : Services) (token : string)
  (variables : Variables) (all : list A) (page_info : PageInfo)
  : IOs (Variables * list A) :=
  if hasNextPage page_info then
    match fuel with
    | O => out_of_fuel
    | S fuel' =>
        let variables := next (endCursor page_info) variables in
        result ← client_execute w token variables;
        let page_data := page result in
        paginate_with next page fuel' w token variables (all ++ nodes page_data)
          (pageInfo page_data)
    end
  else mret (variables, all).

Definition next_files (cursor : option string) (variables : Variables) : Variables :=
  set_filesCursor cursor variables.

Definition next_comments (cursor : option string) (variables : Variables) : Variables :=
  set_filesCursor None (set_commentsCursor cursor variables).

Definition next_reviews (cursor : option string) (variables : Variables) : Variables :=
  set_commentsCursor None (set_filesCursor None (set_reviewsCursor cursor variables)).

Definition next_threads (cursor : option string) (variables : Variables) : Variables :=
  set_reviewsCursor None
    (set_commentsCursor None (set_filesCursor None (set_threadsCursor cursor variables))).

(** A request of the script that is a query with these variables. *)
Definition is_query (ev : event query) : option Variables :=
  match ev with
  | Outside (Execute variables) => Some variables
  | _ => None
  end.

End SummarizePr.

(** * Properties *)

(** ** Strings and sorting *)

Module PyFacts.

Lemma str_app_nil_l (s : string) : "" +:+ s = s.
Proof. reflexivity. Qed.

Lemma str_app_cons (c : ascii) (s t : string) : String c s +:+ t = String c (s +:+ t).
Proof. reflexivity. Qed.

Lemma str_app_nil_r (s : string) : s +:+ "" = s.
Proof. induction s as [|c s IH]; [done|]. by rewrite str_app_cons, IH. Qed.

Lemma str_app_assoc (s t u : string) : (s +:+ t) +:+ u = s +:+ t +:+ u.
Proof. induction s as [|c s IH]; [done|]. by rewrite !str_app_cons, IH. Qed.

Lemma str_length_app (s t : string) :
  String.length (s +:+ t) = String.length s + String.length t.
Proof. induction s as [|c s IH]; [done|]. rewrite str_app_cons. simpl. by rewrite IH. Qed.

(** [String.prefix pat s] holds exactly when [s] begins with [pat]. *)
Lemma prefix_spec (pat s : string) :
  String.prefix pat s = true ↔ ∃ suf, s = pat +:+ suf.
Proof.
  revert s. induction pat as [|c pat IH]; intros s.
  - split; [intros _; by exists s|intros _; by destruct s].
  - destruct s as [|d s]; simpl.
    + split; [done|]. intros [suf Hsuf]. by rewrite str_app_cons in Hsuf.
    + destruct (ascii_dec c d) as [->|Hne].
      * rewrite IH. split; intros [suf Hsuf]; exists suf.
        -- by rewrite str_app_cons, <- Hsuf.
        -- rewrite str_app_cons in Hsuf. by simplify_eq.
      * split; [done|]. intros [suf Hsuf]. rewrite str_app_cons in Hsuf. by simplify_eq.
Qed.

(** [pat in s] holds exactly when [pat] occurs somewhere in [s]. *)
Lemma str_in_nil (pat : string) : str_in pat "" = String.prefix pat "" || false.
Proof. reflexivity. Qed.

Lemma str_in_cons (pat : string) (c : ascii) (s : string) :
  str_in pat (String c s) = String.prefix pat (String c s) || str_in pat s.
Proof. reflexivity. Qed.

Lemma str_in_spec (pat s : string) :
  str_in pat s = true ↔ ∃ pre suf, s = pre +:+ pat +:+ suf.
Proof.
  induction s as [|c s IH].
  - rewrite str_in_nil, orb_false_r, prefix_spec. split.
    + intros [suf Hs]. by exists "", suf.
    + intros ([|d pre] & suf & Hs); [by exists suf|by rewrite str_app_cons in Hs].
  - rewrite str_in_cons, orb_true_iff, prefix_spec, IH. split.
    + intros [[suf Hs]|(pre & suf & Hs)].
      * by exists "", suf.
      * exists (String c pre), suf. by rewrite str_app_cons, Hs.
    + intros ([|d pre] & suf & Hs).
      * left. by exists suf.
      * right. rewrite str_app_cons in Hs. simplify_eq. by exists pre, suf.
Qed.

Lemma str_in_app (pat pre suf : string) : str_in pat (pre +:+ pat +:+ suf) = true.
Proof. apply str_in_spec. by exists pre, suf. Qed.

(** [t.split(sep)] has a first piece: the characters of [t] before the
    first [sep], or all of [t] when it has none. *)
Lemma text_split_first (sep : N) (t : text) :
  ∃ line pieces, text_split sep t = line :: pieces
    ∧ (sep ∉ line)
    ∧ (pieces = [] ∧ t = line
       ∨ ∃ rest, pieces = text_split sep rest ∧ t = line ++ sep :: rest).
Proof.
  induction t as [|c t IH]; simpl.
  - exists [], []. split; [done|]. split; [apply not_elem_of_nil|by left].
  - destruct (decide (c = sep)) as [->|Hne].
    + exists [], (text_split sep t). split; [done|].
      split; [apply not_elem_of_nil|]. right. by exists t.
    + destruct IH as (line & pieces & -> & Hline & Ht).
      exists (c :: line), pieces. split; [done|]. split.
      * rewrite not_elem_of_cons. split; [congruence|done].
      * destruct Ht as [[-> ->]|(rest & -> & ->)]; [by left|].
        right. by exists rest.
Qed.

(** A [for] loop that appends returns what the parts come to, or raises
    what the first part that raises does. *)
Lemma collect_returns {A B : Type} (f : A → result (list B)) (l : list A)
  (out : list B) :
  collect f l = Return out ↔
  ∃ parts, Forall2 (λ x part, f x = Return part) l parts ∧ out = concat parts.
Proof.
  revert out. induction l as [|x l IH]; intros out; simpl.
  - split.
    + intros [= <-]. exists []. by split; [constructor|].
    + intros (parts & Hparts & ->). by inversion Hparts.
  - unfold mbind, result_mbind. destruct (f x) as [items|e] eqn:Hx; simpl.
    + destruct (collect f l) as [rest|e]; simpl.
      * split.
        -- intros [= <-]. destruct (proj1 (IH rest) eq_refl) as (parts & Hparts & ->).
           exists (items :: parts). split; [by constructor|done].
        -- intros (parts & Hparts & ->). inversion Hparts as [|? part ? parts' Hpart Hrest];
             subst. apply (f_equal Return). simpl. rewrite Hx in Hpart.
             injection Hpart as <-. f_equal.
             assert (Return (A := list B) rest = Return (concat parts')) as Heq.
             { apply IH. by exists parts'. }
             by injection Heq.
      * split; [done|]. intros (parts & Hparts & ->).
        inversion Hparts as [|? part ? parts' Hpart Hrest]; subst.
        assert (Raise (A := list B) e = Return (concat parts')) as Heq; [|done].
        apply IH. by exists parts'.
    + split; [done|]. intros (parts & Hparts & ->).
      inversion Hparts as [|? part ? parts' Hpart Hrest]; subst. congruence.
Qed.

Lemma collect_raises {A B : Type} (f : A → result (list B)) (l : list A)
  (e : exception) :
  collect f l = Raise e ↔
  ∃ before x after,
    l = before ++ x :: after
    ∧ Forall (λ y, ∃ part, f y = Return part) before
    ∧ f x = Raise e.
Proof.
  induction l as [|x l IH]; simpl.
  - split; [done|]. intros (before & y & after & Hl & _). by destruct before.
  - unfold mbind, result_mbind. destruct (f x) as [items|e'] eqn:Hx; simpl.
    + destruct (collect f l) as [rest|e'']; simpl.
      * split; [done|]. intros (before & y & after & Hl & Hbefore & Hy).
        destruct before as [|z before]; simplify_eq/=; [congruence|].
        assert (Return (A := list B) rest = Raise e) as Heq; [|done].
        apply IH. exists before, y, after. split; [done|]. split; [|done].
        by inversion Hbefore.
      * split.
        -- intros [= ->]. destruct (proj1 IH eq_refl) as (before & y & after & -> & Hb & Hy).
           exists (x :: before), y, after. split; [done|]. split; [|done].
           constructor; [by eexists|done].
        -- intros (before & y & after & Hl & Hbefore & Hy).
           destruct before as [|z before]; simplify_eq/=; [congruence|].
           apply IH. exists before, y, after. split; [done|]. split; [|done].
           by inversion Hbefore.
    + split.
      * intros [= ->]. exists [], x, l. by split; [|split; [constructor|]].
      * intros (before & y & after & Hl & Hbefore & Hy).
        destruct before as [|z before]; simplify_eq/=; [congruence|].
        inversion Hbefore as [|? ? [part Hpart] ?]; subst. congruence.
Qed.

Lemma enumerate_snd {A : Type} (start : nat) (l : list A) :
  snd <$> enumerate start l = l.
Proof. revert start. induction l as [|x l IH]; intros start; simpl; [done|]. by rewrite IH. Qed.

End PyFacts.

Module SortFacts.

Lemma ltb_leb (a b : string) : String.ltb a b = true → String.leb a b = true.
Proof. unfold String.ltb, String.leb. by destruct (String.compare a b). Qed.

Lemma ltb_false_leb (a b : string) : String.ltb a b = false → String.leb b a = true.
Proof.
  unfold String.ltb, String.leb. rewrite (String.compare_antisym a b).
  by destruct (String.compare b a).
Qed.

Lemma leb_trans (a b c : string) :
  String.leb a b = true → String.leb b c = true → String.leb a c = true.
Proof.
  intros Hab%Is_true_true Hbc%Is_true_true. apply Is_true_true.
  exact (transitivity (R := String.le) Hab Hbc).
Qed.

Section insert_by.
Context {A : Type} (key : A → string).

Lemma insert_by_perm (x : A) (l : list A) : insert_by key x l ≡ₚ x :: l.
Proof.
  induction l as [|y l IH]; simpl; [done|].
  destruct (String.ltb (key x) (key y)); [done|].
  rewrite IH. apply Permutation_swap.
Qed.

Lemma insert_by_sorted (x : A) (l : list A) :
  StronglySorted (le_by key) l → StronglySorted (le_by key) (insert_by key x l).
Proof.
  induction 1 as [|y l Hl IH Hy]; simpl.
  - repeat constructor.
  - destruct (String.ltb (key x) (key y)) eqn:Hxy.
    + constructor; [by constructor|].
      constructor; [by apply ltb_leb|].
      eapply Forall_impl; [exact Hy|]. intros z Hz.
      eapply leb_trans; [by apply ltb_leb|exact Hz].
    + constructor; [done|].
      rewrite insert_by_perm. constructor; [by apply ltb_false_leb|done].
Qed.

Lemma foldl_insert_by_sorted (l acc : list A) :
  StronglySorted (le_by key) acc →
  StronglySorted (le_by key) (foldl (λ sorted x, insert_by key x sorted) acc l).
Proof.
  revert acc. induction l as [|x l IH]; intros acc Hacc; simpl; [done|].
  by apply IH, insert_by_sorted.
Qed.

Lemma foldl_insert_by_perm (l acc : list A) :
  foldl (λ sorted x, insert_by key x sorted) acc l ≡ₚ acc ++ l.
Proof.
  revert acc. induction l as [|x l IH]; intros acc; simpl.
  - by rewrite app_nil_r.
  - rewrite IH, insert_by_perm. simpl. apply Permutation_middle.
Qed.

Lemma ltb_leb_ne (a b c : string) :
  String.ltb a b = true → String.leb b c = true → c ≠ a.
Proof.
  intros Hab Hbc Heq. subst c. unfold String.ltb, String.leb in *.
  rewrite (String.compare_antisym a b) in Hab.
  by destruct (String.compare b a).
Qed.

Lemma filter_none (P : A → Prop) `{!∀ x, Decision (P x)} (l : list A) :
  Forall (λ x, ¬ P x) l → filter P l = [].
Proof. induction 1; [done|]. by rewrite filter_cons_False. Qed.

(** Items of one key keep the order they had: the sort is stable. *)
Lemma insert_by_stable (k : string) (x : A) (l : list A) :
  StronglySorted (le_by key) l →
  filter (λ y, key y = k) (insert_by key x l)
  = filter (λ y, key y = k) l ++ filter (λ y, key y = k) [x].
Proof.
  induction 1 as [|y l Hl IH Hy]; simpl; [done|].
  destruct (String.ltb (key x) (key y)) eqn:Hxy.
  - rewrite (filter_cons _ x), (filter_cons _ x []), filter_nil.
    destruct (decide (key x = k)) as [Hk|Hk]; [|by rewrite app_nil_r].
    assert (filter (λ y0, key y0 = k) (y :: l) = []) as ->; [|done].
    apply filter_none. subst k. constructor.
    + eapply ltb_leb_ne; [exact Hxy|]. apply Is_true_true. reflexivity.
    + eapply Forall_impl; [exact Hy|]. intros z Hz. by eapply ltb_leb_ne.
  - rewrite !(filter_cons _ y), IH. by destruct (decide (key y = k)).
Qed.

Lemma foldl_insert_by_stable (k : string) (l : list A) :
  filter (λ y, key y = k) (foldl (λ sorted x, insert_by key x sorted) [] l)
  = filter (λ y, key y = k) l.
Proof.
  assert (∀ acc, StronglySorted (le_by key) acc →
            filter (λ y, key y = k) (foldl (λ sorted x, insert_by key x sorted) acc l)
            = filter (λ y, key y = k) acc ++ filter (λ y, key y = k) l) as Hfold.
  { induction l as [|x l IH]; intros acc Hacc; simpl; [by rewrite app_nil_r|].
    rewrite IH by by apply insert_by_sorted.
    rewrite insert_by_stable by done.
    rewrite <- (assoc_L (++)). f_equal. by rewrite <- filter_app. }
  rewrite Hfold by constructor. done.
Qed.

End insert_by.

Lemma StronglySorted_fmap {A B : Type} (R : A → A → Prop) (R' : B → B → Prop)
  (f : A → B) (P : A → Prop) (l : list A) :
  (∀ x y, P x → P y → R x y → R' (f x) (f y)) →
  Forall P l → StronglySorted R l → StronglySorted R' (f <$> l).
Proof.
  intros HR HP Hl. induction Hl as [|x l Hl IH Hx]; simpl; [constructor|].
  apply Forall_cons in HP as [Hpx HP].
  constructor; [by apply IH|].
  rewrite Forall_fmap. rewrite Forall_forall in Hx, HP. apply Forall_forall.
  intros y Hy. apply HR; auto.
Qed.

Section sort_by.
Context {A : Type} (first_clash : list (option string) → clash)
  (key : A → option string).

Lemma keyed_spec (l : list A) (keyed : list (string * A)) :
  mapM (λ x, k ← key x; Some (k, x)) l = Some keyed →
  snd <$> keyed = l ∧ Forall (λ p, key p.2 = Some p.1) keyed.
Proof.
  intros Hkeyed%mapM_Some. induction Hkeyed as [|x p l keyed Hp _ [IH1 IH2]]; [by split|].
  destruct (key x) as [k|] eqn:Hk; [|done]. simpl in Hp. injection Hp as <-.
  split; [by rewrite fmap_cons, IH1|]. by constructor.
Qed.

Lemma filter_keyed (s : string) (keyed : list (string * A)) :
  Forall (λ p, key p.2 = Some p.1) keyed →
  filter (λ y, key y = Some s) (snd <$> keyed) = snd <$> filter (λ p, p.1 = s) keyed.
Proof.
  induction 1 as [|p keyed Hp _ IH]; [done|].
  rewrite fmap_cons, !filter_cons, IH, Hp.
  destruct (decide (Some p.1 = Some s)) as [Heq|Hne]; destruct (decide (p.1 = s));
    try done; congruence.
Qed.

(** What the sort returns: the items it was given, each followed only by
    items whose key is not less than its own, and those of one key in the
    order they had. *)
Lemma sort_by_returns (l out : list A) :
  sort_by first_clash key l = Return out →
  out ≡ₚ l
  ∧ StronglySorted (λ x y, keys_le (key x) (key y)) out
  ∧ ∀ k, filter (λ y, key y = k) out = filter (λ y, key y = k) l.
Proof.
  unfold sort_by. destruct l as [|x [|y l]].
  - intros [= <-]. split_and!; [done|constructor|done].
  - intros [= <-]. split_and!; [done|repeat constructor|done].
  - set (items := x :: y :: l).
    destruct (mapM _ items) as [keyed|] eqn:Hkeyed; [|done].
    intros [= <-]. apply keyed_spec in Hkeyed as [Hsnd Hkeys].
    set (sorted := foldl (λ sorted p, insert_by fst p sorted) [] keyed).
    assert (sorted ≡ₚ keyed) as Hperm by apply (foldl_insert_by_perm fst).
    assert (Forall (λ p, key p.2 = Some p.1) sorted) as Hsorted_keys.
    { by rewrite Hperm. }
    split_and!.
    + by rewrite Hperm, Hsnd.
    + eapply (StronglySorted_fmap (le_by fst)); [|exact Hsorted_keys|].
      * intros p q Hp Hq Hpq. simpl in Hp, Hq. unfold keys_le. by rewrite Hp, Hq.
      * apply (foldl_insert_by_sorted fst). constructor.
    + intros [s|].
      * rewrite (filter_keyed s sorted Hsorted_keys).
        unfold sorted. rewrite (foldl_insert_by_stable fst s keyed).
        rewrite <- (filter_keyed s keyed Hkeys). by rewrite Hsnd.
      * rewrite <- Hsnd.
        assert (∀ ps : list (string * A), Forall (λ p, key p.2 = Some p.1) ps →
                  Forall (λ y, ¬ key y = None) (snd <$> ps)) as Hnone.
        { intros ps Hps. rewrite Forall_fmap.
          eapply Forall_impl; [exact Hps|]. intros p Hp. simpl in *. congruence. }
        rewrite !filter_none; [done|by apply Hnone..].
Qed.

(** When the sort raises: the list has two items or more and one of the
    keys is [None]. *)
Lemma sort_by_raises (l : list A) (e : exception) :
  sort_by first_clash key l = Raise e ↔
  (2 ≤ length l)%nat ∧ Exists (λ x, key x = None) l
  ∧ e = TypeError (unorderable (first_clash (key <$> l))).
Proof.
  unfold sort_by. destruct l as [|x [|y l]].
  - split; [done|]. simpl. lia.
  - split; [done|]. simpl. lia.
  - set (items := x :: y :: l).
    destruct (mapM _ items) as [keyed|] eqn:Hkeyed.
    + split; [done|]. intros (_ & Hex & _).
      assert (mapM (λ x, k ← key x; Some (k, x)) items = None) as Hnone; [|congruence].
      apply mapM_None. eapply Exists_impl; [exact Hex|]. intros z Hz. by rewrite Hz.
    + apply mapM_None in Hkeyed. split.
      * intros [= <-]. split_and!; [simpl; lia| |done].
        eapply Exists_impl; [exact Hkeyed|]. intros z Hz. simpl in Hz.
        by destruct (key z).
      * by intros (_ & _ & ->).
Qed.

End sort_by.

Example str_in_inside : str_in "bob/repo" "https://github.com/jimbob/repo.git" = true.
Proof. reflexivity. Qed.

Example text_split_lines :
  text_split line_feed (text_of_ascii "ab
cd
") = [text_of_ascii "ab"; text_of_ascii "cd"; []].
Proof. reflexivity. Qed.

Example text_split_empty : text_split line_feed [] = [[]].
Proof. reflexivity. Qed.

Example strip_token : strip "  gho_abc
" = "gho_abc".
Proof. reflexivity. Qed.

(** A no-break space (U+00A0) and a line separator (U+2028) are white
    space for [strip], in the bytes of UTF-8. *)
Example strip_unicode :
  strip (bytes [194; 160] +:+ "gho_abc" +:+ bytes [226; 128; 168]) = "gho_abc".
Proof. reflexivity. Qed.

(** Eight characters of an object id; and a character of two bytes counts
    for one. *)
Example str_take_sha : str_take 8 "0123456789abcdef" = "01234567".
Proof. reflexivity. Qed.

Example str_take_two_bytes :
  str_take 2 (bytes [195; 169; 97; 98]) = bytes [195; 169; 97].
Proof. reflexivity. Qed.

Example sort_by_keeps_ties :
  sort_by (λ _, NoneAndStr) (λ x, Some x.1) [("b", 1); ("a", 2); ("b", 3); ("a", 4)]
  = Return [("a", 2); ("a", 4); ("b", 1); ("b", 3)].
Proof. reflexivity. Qed.

Example sort_by_none :
  sort_by (λ _, NoneAndStr) fst [(None, 1); (Some "a", 2)]
  = Raise (TypeError "'<' not supported between instances of 'NoneType' and 'str'").
Proof. reflexivity. Qed.

Example sort_by_one_none :
  sort_by (λ _, NoneAndStr) fst [(@None string, 1)] = Return [(None, 1)].
Proof. reflexivity. Qed.

Example called_process_message_exit :
  called_process_message ["gh"; "auth"; "token"] 1
  = "Command '['gh', 'auth', 'token']' returned non-zero exit status 1.".
Proof. reflexivity. Qed.

Example called_process_message_signal :
  called_process_message ["gh"; "auth"; "token"] (-9)
  = "Command '['gh', 'auth', 'token']' died with <Signals.SIGKILL: 9>.".
Proof. vm_compute. reflexivity. Qed.

End SortFacts.

(** ** Outcomes and logs *)

Module IOFacts.

Section logs.
Context {E : Type} (P : E → Prop).

Lemma log_ret {A : Type} (a : A) : Forall P (mret (M := IO E) a).2.
Proof. constructor. Qed.

Lemma log_raise {A : Type} (e : exception) : Forall P (raise (E := E) (A := A) e).2.
Proof. constructor. Qed.

Lemma log_lift {A : Type} (r : result A) : Forall P (lift (E := E) r).2.
Proof. constructor. Qed.

Lemma log_emit (ev : E) : P ev → Forall P (emit ev).2.
Proof. by repeat constructor. Qed.

Lemma log_bind {A B : Type} (m : IO E A) (f : A → IO E B) :
  Forall P m.2 → (∀ a, Forall P (f a).2) → Forall P (m ≫= f).2.
Proof.
  destruct m as [[a| |] log]; simpl; intros Hm Hf; try done.
  specialize (Hf a). unfold mbind, io_mbind, io_bind.
  destruct (f a) as [r log']. simpl in *. by apply Forall_app.
Qed.

Lemma log_try_except {A : Type} (m : IO E A) (h : exception → IO E A) :
  Forall P m.2 → (∀ e, Forall P (h e).2) → Forall P (try_except m h).2.
Proof.
  destruct m as [[a|e|] log]; simpl; intros Hm Hh; try done.
  specialize (Hh e). destruct (h e) as [r log']. simpl in *. by apply Forall_app.
Qed.

End logs.

(** Parts without a loop do not run out of fuel. *)
Section ends.
Context {E : Type}.

Lemma ends_ret {A : Type} (a : A) : ends (mret (M := IO E) a).
Proof. done. Qed.

Lemma ends_raise {A : Type} (e : exception) : ends (raise (E := E) (A := A) e).
Proof. done. Qed.

Lemma ends_lift {A : Type} (r : result A) : ends (lift (E := E) r).
Proof. by destruct r. Qed.

Lemma ends_emit (ev : E) : ends (emit ev).
Proof. done. Qed.

Lemma ends_bind {A B : Type} (m : IO E A) (f : A → IO E B) :
  ends m → (∀ a, ends (f a)) → ends (m ≫= f).
Proof.
  destruct m as [[a|e|] log]; unfold ends; simpl; intros Hm Hf; try done.
  specialize (Hf a). unfold mbind, io_mbind, io_bind. by destruct (f a).
Qed.

Lemma ends_try_except {A : Type} (m : IO E A) (h : exception → IO E A) :
  ends m → (∀ e, ends (h e)) → ends (try_except m h).
Proof.
  destruct m as [[a|e|] log]; unfold ends; simpl; intros Hm Hh; try done.
  specialize (Hh e). by destruct (h e).
Qed.

End ends.

(** What a bind comes to once its first part has returned. *)
Lemma bind_return {E A B : Type} (a : A) (log : list E) (f : A → IO E B) :
  (Returned a, log) ≫= f = ((f a).1, log ++ (f a).2).
Proof. unfold mbind, io_mbind, io_bind. by destruct (f a). Qed.

Lemma bind_raise {E A B : Type} (e : exception) (log : list E) (f : A → IO E B) :
  (Raised e, log) ≫= f = (Raised e, log).
Proof. reflexivity. Qed.

Lemma bind_out_of_fuel {E A B : Type} (log : list E) (f : A → IO E B) :
  (OutOfFuel, log) ≫= f = (OutOfFuel, log).
Proof. reflexivity. Qed.

(** Runs the binds and handlers whose first part is known. *)
Ltac io_simpl :=
  unfold print_stderr, call, subprocess_run, lift, raise, emit, try_except,
    mbind, mret, io_mbind, io_mret, io_bind, io_ret;
  simpl.

Lemma io_eta {E A : Type} (m : IO E A) : m = (m.1, m.2).
Proof. by destruct m. Qed.

End IOFacts.

(** ** prepare-worktree.py *)

Module PrepareWorktreeFacts.

Import PrepareWorktree PyFacts IOFacts.

(** The second test of [find_remote_for_repo] adds nothing to the first. *)
Lemma str_in_colon (pat url : string) :
  str_in (":" +:+ pat) url = true → str_in pat url = true.
Proof.
  rewrite !str_in_spec. intros (pre & suf & ->).
  exists (pre +:+ ":"), suf. by rewrite !str_app_assoc.
Qed.

Lemma remote_test (pat url : string) :
  str_in pat url || str_in (":" +:+ pat) url = str_in pat url.
Proof.
  destruct (str_in pat url) eqn:Hin; [done|]. simpl.
  destruct (str_in (":" +:+ pat) url) eqn:Hcolon; [|done].
  apply str_in_colon in Hcolon. congruence.
Qed.

(** What [find_remote_for_repo] does: it gives the name of the first
    remote, in the order of the list, whose URL has the text
    [owner/repo_name] anywhere in it, wherever that text begins; and it
    raises the [ValueError] "No remote found for owner/repo_name" (the
    specification's NotFoundError) exactly when no URL has that text. *)
Lemma find_remote_for_repo_first_occurrence
  (remotes : list Remote) (owner repo_name : string) :
  let occurs (remote : Remote) :=
    ∃ pre suf, remote_url remote = pre +:+ (owner +:+ "/" +:+ repo_name) +:+ suf in
  match find_remote_for_repo remotes owner repo_name with
  | Return name =>
      ∃ before remote after,
        remotes = before ++ remote :: after
        ∧ name = remote_name remote
        ∧ occurs remote
        ∧ Forall (λ r, ¬ occurs r) before
  | Raise e =>
      e = ValueError ("No remote found for " +:+ owner +:+ "/" +:+ repo_name)
      ∧ Forall (λ r, ¬ occurs r) remotes
  end.
Proof.
  intros occurs. induction remotes as [|remote remotes IH]; simpl.
  - by split.
  - change (":" +:+ owner +:+ "/" +:+ repo_name)
      with (":" +:+ (owner +:+ "/" +:+ repo_name)).
    rewrite remote_test.
    destruct (str_in (owner +:+ "/" +:+ repo_name) (remote_url remote)) eqn:Hin.
    + exists [], remote, remotes. repeat split; [|constructor].
      by apply str_in_spec.
    + assert (¬ occurs remote) as Hno.
      { intros Hoc. apply str_in_spec in Hoc. congruence. }
      destruct (find_remote_for_repo remotes owner repo_name) as [name|e].
      * destruct IH as (before & r & after & -> & -> & Hr & Hbefore).
        exists (remote :: before), r, after. repeat split; [done|].
        by constructor.
      * destruct IH as [-> Hall]. split; [done|]. by constructor.
Qed.

(** C3 does not hold of the code.  [find_remote_for_repo] is to find the
    remote that points to the repository [bob/repo]; it takes a URL that
    has the text [bob/repo] only inside another path segment, that of the
    repository [jimbob/repo], for one that does, since it tests for the
    text anywhere in the URL.  With that remote alone the code returns
    its name where the claim has NotFoundError; before a remote that does
    have [:bob/repo], the code returns the name of the former where the
    claim has the name of the latter. *)
Theorem find_remote_for_repo_inside_segment :
  let fork := {| remote_name := "fork";
                 remote_url := "https://github.com/jimbob/repo.git" |} in
  let origin := {| remote_name := "origin";
                   remote_url := "git@github.com:bob/repo.git" |} in
  embeds_at_boundary "bob" "repo" (remote_url fork) = false
  ∧ embeds_at_boundary "bob" "repo" (remote_url origin) = true
  ∧ find_remote_for_repo [fork] "bob" "repo" = Return "fork"
  ∧ find_remote_for_repo [fork; origin] "bob" "repo" = Return "fork".
Proof. vm_compute. done. Qed.

(** *** The working tree that is already there *)

#[local] Arguments str_in : simpl never.
#[local] Arguments uncommitted_changes_message : simpl never.

Section logs.
Context (P : event action → Prop).

Lemma log_call {A : Type} (x : action) (answer : result A) :
  P (Outside x) → Forall P (call x answer).2.
Proof. by repeat constructor. Qed.

Lemma log_print (text : string) :
  P (Stderr text) → Forall P (print_stderr (X := action) text).2.
Proof. by repeat constructor. Qed.

Lemma log_subprocess_run (w : Host) (argv : list string) (cwd : option string)
  (check : bool) :
  P (Spawn argv cwd) → Forall P (subprocess_run (X := action) (run w) argv cwd check).2.
Proof. by repeat constructor. Qed.

End logs.

Ltac log_step :=
  first [ apply log_bind | apply log_try_except | apply log_ret | apply log_raise
        | apply log_lift | apply log_call | apply log_print
        | apply log_subprocess_run | progress intros | case_match | reflexivity ].

Lemma resolve_context_keeps (w : Host) (repo_path : string) (pr_number : Z) :
  Forall (λ ev, is_removal ev = false) (resolve_context w repo_path pr_number).2.
Proof.
  unfold resolve_context, get_pr_info, get_repo_info. repeat log_step.
Qed.

Lemma seed_review_notes_keeps (w : Host) (c : WorktreeContext) :
  Forall (λ ev, is_removal ev = false) (seed_review_notes w c).2.
Proof. unfold seed_review_notes. repeat log_step. Qed.

Lemma ends_call {A : Type} (x : action) (answer : result A) :
  ends (call x answer).
Proof. by destruct answer. Qed.

Lemma ends_subprocess_run (w : Host) (argv : list string) (cwd : option string)
  (check : bool) : ends (subprocess_run (X := action) (run w) argv cwd check).
Proof. unfold ends, subprocess_run. simpl. by destruct (completed_stdout _ _ _). Qed.

Ltac ends_step :=
  first [ apply ends_bind | apply ends_try_except | apply ends_ret | apply ends_raise
        | apply ends_lift | apply ends_call | apply (ends_emit (E := event action))
        | apply ends_subprocess_run | progress intros | case_match ].

(** [prepare_worktree] has no loop: on every host it returns or raises. *)
Lemma prepare_worktree_ends (w : Host) (repo_path : string) (pr_number : Z) :
  (∃ path, (prepare_worktree w repo_path pr_number).1 = Returned path)
  ∨ (∃ e, (prepare_worktree w repo_path pr_number).1 = Raised e).
Proof.
  assert (ends (prepare_worktree w repo_path pr_number)) as Hends.
  { unfold prepare_worktree, resolve_context, get_pr_info, get_repo_info,
      seed_review_notes, remove_existing_worktree, fetch_pr_branch, add_worktree,
      print_stderr.
    repeat ends_step. }
  unfold ends in Hends.
  destruct (prepare_worktree w repo_path pr_number).1 as [path|e|]; [eauto..|done].
Qed.

Lemma uncommitted_changes_caught (worktree_path : string) :
  str_in "uncommitted changes" (uncommitted_changes_message worktree_path) = true.
Proof.
  apply str_in_spec.
  exists ("Worktree at " +:+ worktree_path +:+ " has "),
    ". Please commit or discard changes before recreating the worktree.".
  unfold uncommitted_changes_message. by rewrite !str_app_assoc.
Qed.

(** C7: when the steps before it have gone through and a working tree is
    already at the target path and opens as a repository, then
    - if it has uncommitted changes (untracked files included),
      [prepare_worktree] raises the [ValueError] that tells so (the
      specification's ConflictError), and nothing it has done up to there
      removes a working tree;
    - if it is clean, and git removes the working tree (at once, or by the
      fall back to [rmtree] and [prune]), fetches the branch and adds the
      working tree, [prepare_worktree] returns the path, having removed the
      working tree and then added it again. *)
Theorem prepare_worktree_existing_worktree
  (w : Host) (repo_path : string) (pr_number : Z) (c : WorktreeContext)
  (log0 log1 : list (event action)) (dirty : bool) :
  resolve_context w repo_path pr_number = (Returned c, log0) →
  seed_review_notes w c = (Returned tt, log1) →
  path_exists w (ctx_worktree_path c) = true →
  open_repo w (ctx_worktree_path c) = Return tt →
  is_dirty w (ctx_worktree_path c) = Return dirty →
  let worktree_path := ctx_worktree_path c in
  let remove := ["worktree"; "remove"; worktree_path; "--force"] in
  let add := ["worktree"; "add"; worktree_path; ctx_branch_name c] in
  let found :=
    log0 ++ log1 ++ [Stderr ("Worktree already exists at: " +:+ worktree_path)] in
  if dirty then
    prepare_worktree w repo_path pr_number
    = (Raised (ValueError (uncommitted_changes_message worktree_path)), found)
    ∧ Forall (λ ev, is_removal ev = false) found
  else
    ∀ log3 : list (event action),
      fetch_pr_branch w c = (Returned tt, log3) →
      git w add = Return tt →
      (git w remove = Return tt →
       prepare_worktree w repo_path pr_number
       = (Returned worktree_path,
          found ++ [Stderr "Removing and recreating..."; Outside (Git remove)]
          ++ log3 ++ [Outside (Git add)]))
      ∧ (∀ msg,
           git w remove = Raise (GitCommandError msg) →
           rmtree w worktree_path = Return tt →
           git w ["worktree"; "prune"] = Return tt →
           prepare_worktree w repo_path pr_number
           = (Returned worktree_path,
              found ++ [Stderr "Removing and recreating..."; Outside (Git remove);
                        Outside (Rmtree worktree_path);
                        Outside (Git ["worktree"; "prune"])]
              ++ log3 ++ [Outside (Git add)])).
Proof.
  intros Hctx Hseed Hexists Hopen Hdirty worktree_path remove add found.
  subst worktree_path remove add.
  assert (prepare_worktree w repo_path pr_number
          = ((_ ← remove_existing_worktree w c; _ ← fetch_pr_branch w c;
              add_worktree w c).1,
             log0 ++ log1 ++ (_ ← remove_existing_worktree w c;
                              _ ← fetch_pr_branch w c; add_worktree w c).2)) as ->.
  { unfold prepare_worktree. by rewrite Hctx, bind_return, Hseed, bind_return. }
  unfold remove_existing_worktree.
  rewrite Hexists, Hopen, Hdirty. destruct dirty.
  - split.
    + io_simpl. rewrite uncommitted_changes_caught. by io_simpl.
    + subst found. rewrite !Forall_app. split_and!.
      * replace log0 with (resolve_context w repo_path pr_number).2 by by rewrite Hctx.
        apply resolve_context_keeps.
      * replace log1 with (seed_review_notes w c).2 by by rewrite Hseed.
        apply seed_review_notes_keeps.
      * by repeat constructor.
  - intros log3 Hfetch Hadd. split.
    + intros Hremove. unfold add_worktree.
      io_simpl. rewrite Hremove. io_simpl. rewrite Hfetch. io_simpl.
      rewrite Hadd. io_simpl.
      subst found. by rewrite <- !(assoc_L (++)).
    + intros msg Hremove Hrmtree Hprune. unfold add_worktree.
      io_simpl. rewrite Hremove. io_simpl. rewrite Hrmtree. io_simpl.
      rewrite Hprune. io_simpl. rewrite Hfetch. io_simpl. rewrite Hadd. io_simpl.
      subst found. by rewrite <- !(assoc_L (++)).
Qed.

(** The theorem at a host with a dirty working tree, and at one with a
    clean working tree. *)
Lemma prepare_worktree_existing_worktree_witness :
  (prepare_worktree (example_host true) "/r" 7).1
  = Raised (ValueError (uncommitted_changes_message "/r/git-worktrees/feat"))
  ∧ (prepare_worktree (example_host false) "/r" 7).1 = Returned "/r/git-worktrees/feat".
Proof.
  split.
  - pose proof (prepare_worktree_existing_worktree (example_host true) "/r" 7
                  _ _ _ true eq_refl eq_refl eq_refl eq_refl eq_refl) as [-> _].
    reflexivity.
  - pose proof (prepare_worktree_existing_worktree (example_host false) "/r" 7
                  _ _ _ false eq_refl eq_refl eq_refl eq_refl eq_refl
                  _ eq_refl eq_refl) as [-> _]; reflexivity.
Defined.

End PrepareWorktreeFacts.

(** ** summarize-pr.py *)

Module SummarizePrFacts.

Import SummarizePr PyFacts SortFacts IOFacts.

(** *** The token *)

Lemma str_bool_true (s : string) : str_bool s = true ↔ s ≠ "".
Proof. by destruct s. Qed.

Lemma text_bool_true (t : text) : text_bool t = true ↔ t ≠ [].
Proof. by destruct t. Qed.

Lemma gh_auth_token_outcome (w : Services) :
  (gh_auth_token w).1 =
  match spawn w ["gh"; "auth"; "token"] None with
  | NotStarted msg => Raised (OSError msg)
  | Exited returncode stdout stderr =>
      if (returncode =? 0)%Z then Returned (strip stdout)
      else Raised (ValueError no_token_message)
  end.
Proof.
  unfold gh_auth_token, subprocess_run, completed_stdout.
  destruct (spawn w _ None) as [returncode stdout stderr|msg]; [|done].
  simpl. by destruct (returncode =? 0)%Z.
Qed.

(** The sources of the token: [get_github_token] returns the value of
    [GITHUB_TOKEN] when it is set and not empty, or else that of
    [GH_TOKEN] when it is set and not empty, or else the output (stripped)
    of [gh auth token] when that command exits with status 0; it raises a
    [ValueError] (the specification's AuthError) exactly when neither
    variable gives a token and [gh auth token] exits with another status,
    the one failure of the command the code handles; and when the system
    cannot start [gh] at all, the error of the system is what comes
    out. *)
Lemma get_github_token_sources (w : Services) :
  let GITHUB_TOKEN := environ w !! "GITHUB_TOKEN" in
  let GH_TOKEN := environ w !! "GH_TOKEN" in
  let gh := spawn w ["gh"; "auth"; "token"] None in
  (∀ token, GITHUB_TOKEN = Some token → token ≠ "" →
     get_github_token w = (Returned token, []))
  ∧ (∀ token, get_bool GITHUB_TOKEN = false → GH_TOKEN = Some token → token ≠ "" →
       get_github_token w = (Returned token, []))
  ∧ (∀ stdout stderr, get_bool GITHUB_TOKEN = false → get_bool GH_TOKEN = false →
       gh = Exited 0 stdout stderr →
       (get_github_token w).1 = Returned (strip stdout))
  ∧ ((∃ msg, (get_github_token w).1 = Raised (ValueError msg))
     ↔ get_bool GITHUB_TOKEN = false ∧ get_bool GH_TOKEN = false
       ∧ ∃ returncode stdout stderr,
           returncode ≠ 0%Z ∧ gh = Exited returncode stdout stderr)
  ∧ (∀ msg, (get_github_token w).1 = Raised (ValueError msg) → msg = no_token_message)
  ∧ (∀ msg, get_bool GITHUB_TOKEN = false → get_bool GH_TOKEN = false →
       gh = NotStarted msg → (get_github_token w).1 = Raised (OSError msg)).
Proof.
  intros GITHUB_TOKEN GH_TOKEN gh. unfold get_github_token, py_or.
  fold GITHUB_TOKEN GH_TOKEN. split_and!.
  - intros token -> Hne%str_bool_true. simpl. rewrite !Hne. reflexivity.
  - intros token -> -> Hne%str_bool_true. rewrite !Hne. reflexivity.
  - intros stdout stderr -> Hgh Hrun.
    assert ((gh_auth_token w).1 = Returned (strip stdout)) as Hcli.
    { rewrite gh_auth_token_outcome. fold gh. by rewrite Hrun. }
    destruct GH_TOKEN as [token|]; [|done]. simpl in Hgh. by rewrite Hgh.
  - pose proof (gh_auth_token_outcome w) as Hcli. fold gh in Hcli.
    destruct (get_bool GITHUB_TOKEN) eqn:H1.
    { destruct GITHUB_TOKEN as [token|]; [|done]. simpl in H1. rewrite H1.
      split; [by intros [msg ?]|by intros [? _]]. }
    assert ((match GH_TOKEN with
             | Some token' => if str_bool token' then mret token' else gh_auth_token w
             | None => gh_auth_token w
             end).1
            = if get_bool GH_TOKEN
              then Returned (default "" GH_TOKEN) else (gh_auth_token w).1) as ->.
    { destruct GH_TOKEN as [token|]; [|done]. simpl. by destruct (str_bool token). }
    destruct (get_bool GH_TOKEN) eqn:H2.
    { split; [by intros [msg ?]|by intros (_ & ? & _)]. }
    rewrite Hcli. destruct gh as [returncode stdout stderr|msg'].
    + destruct (returncode =? 0)%Z eqn:Hcode.
      * apply Z.eqb_eq in Hcode as ->.
        split; [by intros [msg ?]|]. intros (_ & _ & code & out & err & Hne & Heq).
        by simplify_eq.
      * apply Z.eqb_neq in Hcode. split; [|by eexists].
        intros _. split_and!; [done..|]. by exists returncode, stdout, stderr.
    + split; [by intros [msg ?]|]. by intros (_ & _ & code & out & err & _ & ?).
  - intros msg.
    assert (∀ m : IOs string, (m = gh_auth_token w ∨ ∃ t, m = mret t) →
              m.1 = Raised (ValueError msg) → msg = no_token_message) as Hcases.
    { intros m [->|[t ->]]; [|done]. rewrite gh_auth_token_outcome.
      destruct (spawn w _ None) as [returncode stdout stderr|msg']; [|done].
      destruct (returncode =? 0)%Z; [done|]. by intros [= <-]. }
    apply Hcases.
    destruct (get_bool GITHUB_TOKEN); [destruct GITHUB_TOKEN|destruct GH_TOKEN];
      try destruct (str_bool _); eauto.
  - intros msg -> Hgh Hrun.
    assert ((gh_auth_token w).1 = Raised (OSError msg)) as Hcli.
    { rewrite gh_auth_token_outcome. fold gh. by rewrite Hrun. }
    destruct GH_TOKEN as [token|]; [|done]. simpl in Hgh. by rewrite Hgh.
Qed.

(** C8 does not hold of the code.  Neither variable is set and the [gh]
    CLI is not installed: no source gives a token and the invocation of
    the CLI fails, so the claim has AuthError, the [ValueError] "No GitHub
    token found ...".  The code handles only the [CalledProcessError] of a
    [gh] that ran; the error of the system that could not start it is what
    [get_github_token] raises, and no [ValueError]. *)
Theorem get_github_token_cli_missing :
  get_bool (environ no_cli_services !! "GITHUB_TOKEN") = false
  ∧ get_bool (environ no_cli_services !! "GH_TOKEN") = false
  ∧ spawn no_cli_services ["gh"; "auth"; "token"] None
    = NotStarted "[Errno 2] No such file or directory: 'gh'"
  ∧ get_github_token no_cli_services
    = (Raised (OSError "[Errno 2] No such file or directory: 'gh'"),
       [Spawn ["gh"; "auth"; "token"] None])
  ∧ ∀ msg, (get_github_token no_cli_services).1 ≠ Raised (ValueError msg).
Proof. split_and!; try reflexivity. intros msg. by vm_compute. Qed.

(** *** The pages *)

Lemma reported_pages_head {A : Type} (page_after : option string → Connection A)
  (cursor : option string) (pages : list (Connection A)) :
  reported_pages page_after cursor pages →
  ∃ rest, pages = page_after cursor :: rest.
Proof. destruct 1; eauto. Qed.

(** The pages reported from a cursor on are determined by the API. *)
Lemma reported_pages_unique {A : Type} (page_after : option string → Connection A)
  (cursor : option string) (pages pages' : list (Connection A)) :
  reported_pages page_after cursor pages →
  reported_pages page_after cursor pages' → pages = pages'.
Proof.
  intros Hpages. revert pages'.
  induction Hpages as [cursor Hlast|cursor pages Hnext _ IH];
    intros pages' Hpages'; destruct Hpages'; try congruence.
  f_equal. by apply IH.
Qed.

Section pagination.
Context (w : Services) (token : string).
Context (files_after : option string → Connection File).
Context (comments_after : option string → Connection Comment).
Context (reviews_after : option string → Connection Review).
Context (threads_after : option string → Connection ReviewThread).
Context (Hserves : serves w token files_after comments_after reviews_after threads_after).

Lemma client_execute_serves (variables : Variables) :
  ∃ pr, client_execute w token variables = (Returned pr, [Outside (Execute variables)])
    ∧ files pr = files_after (filesCursor variables)
    ∧ comments pr = comments_after (commentsCursor variables)
    ∧ reviews pr = reviews_after (reviewsCursor variables)
    ∧ reviewThreads pr = threads_after (threadsCursor variables).
Proof.
  destruct (Hserves variables) as (pr & Hpr & ?). exists pr.
  unfold client_execute, call. by rewrite Hpr.
Qed.

(** Each loop, started on the first of the pages reported from a cursor
    on, adds the nodes of the pages after it, in their order. *)
Lemma paginate_files_pages (cursor : option string) (pages : list (Connection File)) :
  reported_pages files_after cursor pages →
  ∀ fuel variables all_files,
    (length pages ≤ S fuel)%nat →
    ∃ variables' log,
      paginate_files fuel w token variables all_files (pageInfo (files_after cursor))
      = (Returned (variables', all_files ++ concat (nodes <$> tail pages)), log)
      ∧ Forall (λ ev, is_warning ev = false) log.
Proof.
  induction 1 as [cursor Hlast|cursor pages Hnext Hpages IH];
    intros fuel variables all_files Hfuel.
  - exists variables, []. destruct fuel; cbn [paginate_files]; rewrite Hlast, app_nil_r; by split.
  - destruct (reported_pages_head _ _ _ Hpages) as [rest ->].
    destruct fuel as [|fuel]; [simpl in Hfuel; lia|]. cbn [paginate_files]. rewrite Hnext.
    destruct (client_execute_serves
                (set_filesCursor (endCursor (pageInfo (files_after cursor))) variables))
      as (pr & -> & Hpr & _).
    rewrite bind_return, Hpr. simpl filesCursor.
    destruct (IH fuel (set_filesCursor (endCursor (pageInfo (files_after cursor))) variables)
                (all_files ++ nodes (files_after (endCursor (pageInfo (files_after cursor))))))
      as (variables' & log & -> & Hlog); [simpl in *; lia|].
    eexists _, _. simpl. rewrite <- (assoc_L (++)). split; [done|].
    by constructor.
Qed.

Lemma paginate_general_comments_pages (cursor : option string)
  (pages : list (Connection Comment)) :
  reported_pages comments_after cursor pages →
  ∀ fuel variables all_comments,
    (length pages ≤ S fuel)%nat →
    ∃ variables' log,
      paginate_general_comments fuel w token variables all_comments
        (pageInfo (comments_after cursor))
      = (Returned (variables', all_comments ++ concat (nodes <$> tail pages)), log)
      ∧ Forall (λ ev, is_warning ev = false) log.
Proof.
  induction 1 as [cursor Hlast|cursor pages Hnext Hpages IH];
    intros fuel variables all_comments Hfuel.
  - exists variables, []. destruct fuel; cbn [paginate_general_comments]; rewrite Hlast, app_nil_r; by split.
  - destruct (reported_pages_head _ _ _ Hpages) as [rest ->].
    destruct fuel as [|fuel]; [simpl in Hfuel; lia|]. cbn [paginate_general_comments]. rewrite Hnext.
    set (next := endCursor (pageInfo (comments_after cursor))) in *.
    set (variables1 := set_filesCursor None (set_commentsCursor next variables)).
    destruct (client_execute_serves variables1) as (pr & -> & _ & Hpr & _).
    rewrite bind_return, Hpr. simpl commentsCursor.
    destruct (IH fuel variables1 (all_comments ++ nodes (comments_after next)))
      as (variables' & log & -> & Hlog); [simpl in *; lia|].
    eexists _, _. simpl. rewrite <- (assoc_L (++)). split; [done|].
    by constructor.
Qed.

Lemma paginate_reviews_pages (cursor : option string) (pages : list (Connection Review)) :
  reported_pages reviews_after cursor pages →
  ∀ fuel variables all_reviews,
    (length pages ≤ S fuel)%nat →
    ∃ variables' log,
      paginate_reviews fuel w token variables all_reviews
        (pageInfo (reviews_after cursor))
      = (Returned (variables', all_reviews ++ concat (nodes <$> tail pages)), log)
      ∧ Forall (λ ev, is_warning ev = false) log.
Proof.
  induction 1 as [cursor Hlast|cursor pages Hnext Hpages IH];
    intros fuel variables all_reviews Hfuel.
  - exists variables, []. destruct fuel; cbn [paginate_reviews]; rewrite Hlast, app_nil_r; by split.
  - destruct (reported_pages_head _ _ _ Hpages) as [rest ->].
    destruct fuel as [|fuel]; [simpl in Hfuel; lia|]. cbn [paginate_reviews]. rewrite Hnext.
    set (next := endCursor (pageInfo (reviews_after cursor))) in *.
    set (variables1 :=
           set_commentsCursor None (set_filesCursor None (set_reviewsCursor next variables))).
    destruct (client_execute_serves variables1) as (pr & -> & _ & _ & Hpr & _).
    rewrite bind_return, Hpr. simpl reviewsCursor.
    destruct (IH fuel variables1 (all_reviews ++ nodes (reviews_after next)))
      as (variables' & log & -> & Hlog); [simpl in *; lia|].
    eexists _, _. simpl. rewrite <- (assoc_L (++)). split; [done|].
    by constructor.
Qed.

Lemma paginate_threads_pages (cursor : option string)
  (pages : list (Connection ReviewThread)) :
  reported_pages threads_after cursor pages →
  ∀ fuel variables all_threads,
    (length pages ≤ S fuel)%nat →
    ∃ variables' log,
      paginate_threads fuel w token variables all_threads
        (pageInfo (threads_after cursor))
      = (Returned (variables', all_threads ++ concat (nodes <$> tail pages)), log)
      ∧ Forall (λ ev, is_warning ev = false) log.
Proof.
  induction 1 as [cursor Hlast|cursor pages Hnext Hpages IH];
    intros fuel variables all_threads Hfuel.
  - exists variables, []. destruct fuel; cbn [paginate_threads]; rewrite Hlast, app_nil_r; by split.
  - destruct (reported_pages_head _ _ _ Hpages) as [rest ->].
    destruct fuel as [|fuel]; [simpl in Hfuel; lia|]. cbn [paginate_threads]. rewrite Hnext.
    set (next := endCursor (pageInfo (threads_after cursor))) in *.
    set (variables1 :=
           set_reviewsCursor None
             (set_commentsCursor None (set_filesCursor None (set_threadsCursor next variables)))).
    destruct (client_execute_serves variables1) as (pr & -> & _ & _ & _ & Hpr).
    rewrite bind_return, Hpr. simpl threadsCursor.
    destruct (IH fuel variables1 (all_threads ++ nodes (threads_after next)))
      as (variables' & log & -> & Hlog); [simpl in *; lia|].
    eexists _, _. simpl. rewrite <- (assoc_L (++)). split; [done|].
    by constructor.
Qed.

End pagination.

Ltac pr_simpl :=
  cbn [fst snd set_files set_comments set_reviews set_reviewThreads set_nodes
       files comments reviews reviewThreads nodes pageInfo].

(** C1: when a token is found and the endpoint answers every query, then
    for the pages the API reports for the files, the general comments, the
    reviews and the review threads, each from the start and up to the page
    that says there is no next one, [get_pr_data] (with fuel for the pages)
    returns a pull request in which the nodes of each of the four
    collections are the nodes of all its pages, joined in the order of the
    pages. *)
Theorem get_pr_data_all_pages
  (fuel : nat) (w : Services) (owner repo : string) (pr_number : Z)
  (token : string) (token_log : list (event query))
  (files_after : option string → Connection File)
  (comments_after : option string → Connection Comment)
  (reviews_after : option string → Connection Review)
  (threads_after : option string → Connection ReviewThread)
  (file_pages : list (Connection File))
  (comment_pages : list (Connection Comment))
  (review_pages : list (Connection Review))
  (thread_pages : list (Connection ReviewThread)) :
  get_github_token w = (Returned token, token_log) →
  serves w token files_after comments_after reviews_after threads_after →
  reported_pages files_after None file_pages →
  reported_pages comments_after None comment_pages →
  reported_pages reviews_after None review_pages →
  reported_pages threads_after None thread_pages →
  (length file_pages ≤ S fuel)%nat →
  (length comment_pages ≤ S fuel)%nat →
  (length review_pages ≤ S fuel)%nat →
  (length thread_pages ≤ S fuel)%nat →
  ∃ pr_data log,
    get_pr_data fuel w owner repo pr_number = (Returned pr_data, log)
    ∧ nodes (files pr_data) = concat (nodes <$> file_pages)
    ∧ nodes (comments pr_data) = concat (nodes <$> comment_pages)
    ∧ nodes (reviews pr_data) = concat (nodes <$> review_pages)
    ∧ nodes (reviewThreads pr_data) = concat (nodes <$> thread_pages).
Proof.
  intros Htoken Hserves Hfiles Hcomments Hreviews Hthreads Hf Hc Hr Ht.
  unfold get_pr_data. rewrite Htoken, bind_return.
  set (variables := {| v_owner := owner; v_repo := repo; v_number := pr_number;
                       filesCursor := None; threadsCursor := None;
                       commentsCursor := None; reviewsCursor := None |}).
  destruct (client_execute_serves w token _ _ _ _ Hserves variables)
    as (pr0 & -> & Hpr_files & Hpr_comments & Hpr_reviews & Hpr_threads).
  simpl in Hpr_files, Hpr_comments, Hpr_reviews, Hpr_threads.
  rewrite bind_return.
  destruct (reported_pages_head _ _ _ Hfiles) as [file_rest ->].
  destruct (reported_pages_head _ _ _ Hcomments) as [comment_rest ->].
  destruct (reported_pages_head _ _ _ Hreviews) as [review_rest ->].
  destruct (reported_pages_head _ _ _ Hthreads) as [thread_rest ->].
  rewrite Hpr_files.
  destruct (paginate_files_pages w token _ _ _ _ Hserves _ _ Hfiles fuel variables
              (nodes (files_after None)) Hf) as (v1 & log1 & -> & _).
  rewrite bind_return. pr_simpl.
  rewrite Hpr_comments.
  destruct (paginate_general_comments_pages w token _ _ _ _ Hserves _ _ Hcomments fuel v1
              (nodes (comments_after None)) Hc) as (v2 & log2 & -> & _).
  rewrite bind_return. pr_simpl.
  rewrite Hpr_reviews.
  destruct (paginate_reviews_pages w token _ _ _ _ Hserves _ _ Hreviews fuel v2
              (nodes (reviews_after None)) Hr) as (v3 & log3 & -> & _).
  rewrite bind_return. pr_simpl.
  rewrite Hpr_threads.
  destruct (paginate_threads_pages w token _ _ _ _ Hserves _ _ Hthreads fuel v3
              (nodes (threads_after None)) Ht) as (v4 & log4 & -> & _).
  rewrite bind_return. eexists _, _. split; [reflexivity|].
  by cbn.
Qed.

(** The theorem at the example: the files come on two pages, the other
    collections on one page each. *)
Lemma get_pr_data_all_pages_witness :
  ∃ pr_data log,
    get_pr_data 1 example_services "bob" "repo" 7 = (Returned pr_data, log)
    ∧ file_path <$> nodes (files pr_data) = ["src/a.py"; "src/b.py"]
    ∧ nodes (comments pr_data) = []
    ∧ nodes (reviews pr_data) = [example_review]
    ∧ nodes (reviewThreads pr_data) = [example_thread].
Proof.
  destruct (get_pr_data_all_pages 1 example_services "bob" "repo" 7 "secret" []
              example_files_after (λ _, last_page []) (λ _, last_page [example_review])
              (λ _, last_page [example_thread])
              [example_files_after None; example_files_after (Some "f1")]
              [last_page []] [last_page [example_review]] [last_page [example_thread]])
    as (pr_data & log & Hrun & Hfiles & Hcomments & Hreviews & Hthreads).
  - reflexivity.
  - intros variables. by eexists.
  - apply reported_next; [reflexivity|].
    by apply (reported_last example_files_after (Some "f1")).
  - by apply (reported_last (λ _, last_page []) None).
  - by apply (reported_last (λ _, last_page [example_review]) None).
  - by apply (reported_last (λ _, last_page [example_thread]) None).
  - simpl. lia.
  - simpl. lia.
  - simpl. lia.
  - simpl. lia.
  - exists pr_data, log. rewrite Hfiles, Hcomments, Hreviews, Hthreads. by split_and!.
Defined.

(** The whole fetch prints nothing to standard error: the warning for a
    thread with more comments than its page is in [paginate_comments] only,
    which [get_pr_data] does not call. *)
Lemma gh_auth_token_silent (w : Services) :
  Forall (λ ev, is_warning ev = false) (gh_auth_token w).2.
Proof.
  unfold gh_auth_token. apply log_try_except.
  - apply log_bind; [by repeat constructor|]. intros stdout. constructor.
  - intros []; constructor.
Qed.

Lemma get_github_token_silent (w : Services) :
  Forall (λ ev, is_warning ev = false) (get_github_token w).2.
Proof.
  unfold get_github_token.
  destruct (py_or _ _) as [token|]; [destruct (str_bool token)|];
    first [apply gh_auth_token_silent|constructor].
Qed.

Lemma client_execute_silent (w : Services) (token : string) (variables : Variables) :
  Forall (λ ev, is_warning ev = false) (client_execute w token variables).2.
Proof. by repeat constructor. Qed.

Lemma paginate_files_silent (fuel : nat) (w : Services) (token : string)
  (variables : Variables) (all_files : list File) (files_page_info : PageInfo) :
  Forall (λ ev, is_warning ev = false)
    (paginate_files fuel w token variables all_files files_page_info).2.
Proof.
  revert variables all_files files_page_info.
  induction fuel as [|fuel IH]; intros variables all_files files_page_info;
    cbn [paginate_files]; destruct (hasNextPage files_page_info); try constructor.
  apply log_bind; [apply client_execute_silent|]. intros result. apply IH.
Qed.

Lemma paginate_general_comments_silent (fuel : nat) (w : Services) (token : string)
  (variables : Variables) (all_comments : list Comment) (comments_page_info : PageInfo) :
  Forall (λ ev, is_warning ev = false)
    (paginate_general_comments fuel w token variables all_comments comments_page_info).2.
Proof.
  revert variables all_comments comments_page_info.
  induction fuel as [|fuel IH]; intros variables all_comments comments_page_info;
    cbn [paginate_general_comments]; destruct (hasNextPage comments_page_info);
    try constructor.
  apply log_bind; [apply client_execute_silent|]. intros result. apply IH.
Qed.

Lemma paginate_reviews_silent (fuel : nat) (w : Services) (token : string)
  (variables : Variables) (all_reviews : list Review) (reviews_page_info : PageInfo) :
  Forall (λ ev, is_warning ev = false)
    (paginate_reviews fuel w token variables all_reviews reviews_page_info).2.
Proof.
  revert variables all_reviews reviews_page_info.
  induction fuel as [|fuel IH]; intros variables all_reviews reviews_page_info;
    cbn [paginate_reviews]; destruct (hasNextPage reviews_page_info); try constructor.
  apply log_bind; [apply client_execute_silent|]. intros result. apply IH.
Qed.

Lemma paginate_threads_silent (fuel : nat) (w : Services) (token : string)
  (variables : Variables) (all_threads : list ReviewThread) (threads_page_info : PageInfo) :
  Forall (λ ev, is_warning ev = false)
    (paginate_threads fuel w token variables all_threads threads_page_info).2.
Proof.
  revert variables all_threads threads_page_info.
  induction fuel as [|fuel IH]; intros variables all_threads threads_page_info;
    cbn [paginate_threads]; destruct (hasNextPage threads_page_info); try constructor.
  apply log_bind; [apply client_execute_silent|]. intros result. apply IH.
Qed.

Lemma get_pr_data_silent (fuel : nat) (w : Services) (owner repo : string)
  (pr_number : Z) :
  Forall (λ ev, is_warning ev = false) (get_pr_data fuel w owner repo pr_number).2.
Proof.
  unfold get_pr_data.
  repeat first [ apply log_bind | apply get_github_token_silent
               | apply client_execute_silent | apply paginate_files_silent
               | apply paginate_general_comments_silent | apply paginate_reviews_silent
               | apply paginate_threads_silent | apply log_ret | progress intros ].
Qed.

(** [paginate_comments] does warn about a thread whose comments have a
    further page, and gives the comments of the first page. *)
Lemma paginate_comments_warns (w : Services) (owner repo : string) (pr_number : Z)
  (thread_id : string) (initial_comments : Connection ThreadComment) :
  hasNextPage (pageInfo initial_comments) = true →
  paginate_comments w owner repo pr_number thread_id initial_comments
  = (Returned (nodes initial_comments),
     [Stderr "Warning: Thread has >100 comments, some may be truncated"]).
Proof. intros Hnext. unfold paginate_comments. by rewrite Hnext. Qed.

(** C2 fails on the code: the example has a review thread whose comments
    report a further page; [get_pr_data] returns the thread with the
    comments of the first page only, and prints no warning. *)
Theorem get_pr_data_prints_no_warning :
  ∃ pr_data log,
    get_pr_data 1 example_services "bob" "repo" 7 = (Returned pr_data, log)
    ∧ nodes (reviewThreads pr_data) = [example_thread]
    ∧ hasNextPage (pageInfo (thread_comments example_thread)) = true
    ∧ Forall (λ ev, is_warning ev = false) log.
Proof.
  eexists _, _. split; [vm_compute; reflexivity|].
  split; [reflexivity|]. split; [reflexivity|]. by repeat constructor.
Qed.

(** *** Unresolved threads *)

(** The loop returns a record for each unresolved thread; it raises at
    the first unresolved thread that has no comment, or whose opening
    comment has no author. *)
Lemma extract_loop_views (threads : list ReviewThread) (acc : list UnresolvedThread) :
  match extract_loop threads acc with
  | Return out =>
      ∃ views, out = acc ++ views ∧ Forall2 view_of (filter unresolved threads) views
  | Raise e =>
      ∃ before thread after,
        threads = before ++ thread :: after
        ∧ Forall (λ t, unresolved t → opens_with_author t) before
        ∧ unresolved thread
        ∧ (nodes (thread_comments thread) = []
           ∧ e = IndexError "list index out of range"
           ∨ opens_without_author thread
             ∧ e = TypeError "'NoneType' object is not subscriptable")
  end.
Proof.
  revert acc. induction threads as [|thread threads IH]; intros acc.
  - exists []. by rewrite app_nil_r.
  - cbn [extract_loop]. destruct (isResolved thread) eqn:Hresolved; cbn [negb].
    + rewrite filter_cons_False by (unfold unresolved; congruence).
      specialize (IH acc). destruct (extract_loop threads acc); [done|].
      destruct IH as (before & t & after & -> & Hbefore & Hrest).
      exists (thread :: before), t, after. split; [done|]. split; [|done].
      constructor; [|done]. unfold unresolved. congruence.
    + rewrite filter_cons_True by done.
      destruct (nodes (thread_comments thread)) as [|first_comment later] eqn:Hnodes.
      { exists [], thread, threads. split_and!; [done|constructor|done|by left]. }
      cbn [getitem lookup list_lookup]. unfold mbind, result_mbind. cbn [result_bind].
      destruct (text_split_first line_feed (tc_body first_comment))
        as (line & pieces & -> & Hline & Hbody).
      cbn [getitem lookup list_lookup result_bind].
      destruct (tc_author first_comment) as [login|] eqn:Hauthor;
        cbn [subscript result_bind].
      2:{ exists [], thread, threads. split_and!; [done|constructor|done|].
          right. split; [|done]. by exists first_comment, later. }
      match goal with |- context [extract_loop threads (acc ++ [?v])] => set (view := v) end.
      specialize (IH (acc ++ [view])).
      destruct (extract_loop threads (acc ++ [view])) as [out|e].
      * destruct IH as (views & -> & Hviews). exists (view :: views).
        split; [by rewrite <- (assoc_L (++))|]. constructor; [|done].
        unfold view_of. subst view.
        cbn [threadId u_isResolved u_isOutdated u_author u_line u_path preview
             commentCount allComments].
        rewrite ?Hresolved, ?Hnodes. split_and!; try done.
        exists first_comment, later, line. split_and!; try done.
        -- destruct Hbody as [[_ ->]|(rest & _ & ->)]; eauto.
        -- exists (drop 120 line). by rewrite take_drop.
        -- apply length_take.
      * destruct IH as (before & t & after & -> & Hbefore & Hrest).
        exists (thread :: before), t, after. split; [done|]. split; [|done].
        constructor; [|done]. intros _. by exists first_comment, later, login.
Qed.

Lemma extract_loop_raises (before : list ReviewThread) (thread : ReviewThread)
  (after : list ReviewThread) (e : exception) :
  Forall (λ t, unresolved t → opens_with_author t) before →
  unresolved thread →
  (nodes (thread_comments thread) = [] ∧ e = IndexError "list index out of range"
   ∨ opens_without_author thread
     ∧ e = TypeError "'NoneType' object is not subscriptable") →
  ∀ acc, extract_loop (before ++ thread :: after) acc = Raise e.
Proof.
  intros Hbefore Hun Hcause.
  induction Hbefore as [|t before Ht _ IH]; intros acc; cbn [app extract_loop].
  - unfold unresolved in Hun. rewrite Hun. cbn [negb].
    destruct Hcause as [[Hnone ->]|[(first_comment & later & Hnodes & Hauthor) ->]].
    + by rewrite Hnone.
    + rewrite Hnodes. cbn [getitem lookup list_lookup]. unfold mbind, result_mbind.
      cbn [result_bind].
      destruct (text_split_first line_feed (tc_body first_comment))
        as (line & pieces & -> & _).
      cbn [getitem lookup list_lookup result_bind]. by rewrite Hauthor.
  - destruct (isResolved t) eqn:Hresolved; cbn [negb]; [apply IH|].
    destruct (Ht Hresolved) as (first_comment & later & login & Hnodes & Hauthor).
    rewrite Hnodes. cbn [getitem lookup list_lookup]. unfold mbind, result_mbind.
    cbn [result_bind].
    destruct (text_split_first line_feed (tc_body first_comment))
      as (line & pieces & -> & _).
    cbn [getitem lookup list_lookup result_bind]. rewrite Hauthor.
    cbn [subscript result_bind]. apply IH.
Qed.


(** C9: when every review thread has at least one comment,
    [extract_unresolved_threads] raises no [IndexError]: the opening
    comment it reads at index 0 is there.  It returns, unless the opening
    comment of an unresolved thread has no author, where it raises a
    [TypeError]. *)
Theorem extract_unresolved_threads_total (pr_data : PullRequest) :
  let threads := nodes (reviewThreads pr_data) in
  Forall (λ thread, nodes (thread_comments thread) ≠ []) threads →
  (∀ msg, extract_unresolved_threads pr_data ≠ Raise (IndexError msg))
  ∧ (Forall (λ thread, unresolved thread → ¬ opens_without_author thread) threads →
     ∃ views, extract_unresolved_threads pr_data = Return views)
  ∧ (∀ e, extract_unresolved_threads pr_data = Raise e →
          e = TypeError "'NoneType' object is not subscriptable"
          ∧ Exists (λ thread, unresolved thread ∧ opens_without_author thread) threads).
Proof.
  intros threads Hcomments. unfold extract_unresolved_threads. fold threads.
  pose proof (extract_loop_views threads []) as Hloop.
  assert (∀ e, extract_loop threads [] = Raise e →
               e = TypeError "'NoneType' object is not subscriptable"
               ∧ Exists (λ thread, unresolved thread ∧ opens_without_author thread) threads)
    as Hraise.
  { intros e He. rewrite He in Hloop.
    destruct Hloop as (before & thread & after & Heq & _ & Hun & [[Hnone ->]|[Hauthor ->]]).
    - rewrite Forall_forall in Hcomments. destruct (Hcomments thread); [|done].
      rewrite Heq. set_solver.
    - split; [done|]. rewrite Heq. apply Exists_app. right. by left. }
  split_and!; [| |done].
  - intros msg He. by destruct (Hraise _ He).
  - intros Hauthors. destruct (extract_loop threads []) as [out|e]; [by exists out|].
    destruct (Hraise e eq_refl) as [_ Hex].
    apply Exists_exists in Hex as (thread & Hin & Hun & Hnone).
    rewrite Forall_forall in Hauthors. by destruct (Hauthors thread Hin Hun).
Qed.

(** The theorem at the example, whose one thread has its opening
    comment. *)
Lemma extract_unresolved_threads_total_witness :
  let pr_data :=
    example_pull_request
      {| v_owner := "bob"; v_repo := "repo"; v_number := 7; filesCursor := None;
         threadsCursor := None; commentsCursor := None; reviewsCursor := None |} in
  (∀ msg, extract_unresolved_threads pr_data ≠ Raise (IndexError msg))
  ∧ (Forall (λ thread, unresolved thread → ¬ opens_without_author thread)
       (nodes (reviewThreads pr_data)) →
     ∃ views, extract_unresolved_threads pr_data = Return views)
  ∧ (∀ e, extract_unresolved_threads pr_data = Raise e →
          e = TypeError "'NoneType' object is not subscriptable"
          ∧ Exists (λ thread, unresolved thread ∧ opens_without_author thread)
              (nodes (reviewThreads pr_data))).
Proof.
  apply extract_unresolved_threads_total. simpl. by repeat constructor.
Defined.

(** *** The discussion *)

Lemma Forall2_perm_r {A B : Type} (R : A → B → Prop) (l : list A) (k k' : list B) :
  Forall2 R l k → k ≡ₚ k' → ∃ l', l ≡ₚ l' ∧ Forall2 R l' k'.
Proof.
  intros Hlk Hperm. revert l Hlk.
  induction Hperm as [|y k k' _ IH|y z k|k k' k'' _ IH1 _ IH2]; intros l Hlk.
  - inversion Hlk; subst. by exists [].
  - inversion Hlk as [|x ? l0 ? Hx Hrest]; subst.
    destruct (IH l0 Hrest) as (l' & Hl' & Hrel). exists (x :: l').
    split; [by constructor|by constructor].
  - inversion Hlk as [|x ? l0 ? Hx Hrest]; subst.
    inversion Hrest as [|x' ? l1 ? Hx' Hrest']; subst.
    exists (x' :: x :: l1). split; [apply Permutation_swap|by repeat constructor].
  - destruct (IH1 l Hlk) as (l' & Hl' & Hrel').
    destruct (IH2 l' Hrel') as (l'' & Hl'' & Hrel'').
    exists l''. split; [by etrans|done].
Qed.

Lemma StronglySorted_Forall2 {A B : Type} (R : A → B → Prop) (P : A → A → Prop)
  (Q : B → B → Prop) (l : list A) (k : list B) :
  (∀ a b x y, R a x → R b y → Q x y → P a b) →
  Forall2 R l k → StronglySorted Q k → StronglySorted P l.
Proof.
  intros HPQ Hlk. induction Hlk as [|a x l k Hax Hlk IH]; intros Hsorted; [constructor|].
  inversion Hsorted as [|? ? Hk Hx]; subst. constructor; [by apply IH|].
  eapply Forall2_Forall_l; [exact Hlk|].
  eapply Forall_impl; [exact Hx|]. intros y Hxy b Hby. by eapply HPQ.
Qed.

Lemma item_of_functional (e : entry) (item item' : timeline_item) :
  item_of e item → item_of e item' → item = item'.
Proof. destruct 1; inversion 1; congruence. Qed.

Lemma item_of_timestamp (e : entry) (item : timeline_item) :
  item_of e item → timestamp item = entry_time e.
Proof. by destruct 1. Qed.

Lemma item_of_author (e : entry) (item : timeline_item) :
  item_of e item → entry_author e ≠ None.
Proof. destruct 1; simpl; congruence. Qed.

Lemma item_of_shows (e : entry) (item : timeline_item) :
  item_of e item → shows e (timeline_blocks item).
Proof. destruct 1; by constructor. Qed.

Lemma comment_item_spec (comment : Comment) (item : timeline_item) :
  comment_item comment = Return item ↔ item_of (OfComment comment) item.
Proof.
  unfold comment_item. split.
  - destruct (comment_author comment) as [login|] eqn:Hauthor; [|done].
    intros [= <-]. by constructor.
  - inversion 1 as [? login Hauthor|]; subst. by rewrite Hauthor.
Qed.

(** The loop over the general comments: an item for each, unless one has
    no author. *)
Lemma collect_comment_items (l : list Comment) :
  match collect (λ comment, item ← comment_item comment; Return [item]) l with
  | Return out => Forall2 item_of (OfComment <$> l) out
  | Raise e =>
      e = TypeError "'NoneType' object is not subscriptable"
      ∧ Exists (λ comment, comment_author comment = None) l
  end.
Proof.
  induction l as [|comment l IH]; [constructor|].
  cbn [collect]. unfold mbind, result_mbind, comment_item.
  destruct (comment_author comment) as [login|] eqn:Hauthor; cbn [subscript result_bind].
  - destruct (collect _ l) as [out|e]; cbn [result_bind].
    + rewrite fmap_cons. constructor; [by constructor|done].
    + destruct IH as [-> Hex]. split; [done|]. by right.
  - split; [done|]. by left.
Qed.

(** The loop over the reviews: an item for each review with a body,
    unless one of these has no author. *)
Lemma collect_review_items (l : list Review) :
  match collect review_items l with
  | Return out =>
      Forall2 item_of
        (OfReview <$> filter (λ review, get_text_bool (review_body review) = true) l) out
  | Raise e =>
      e = TypeError "'NoneType' object is not subscriptable"
      ∧ Exists (λ review, get_text_bool (review_body review) = true
                          ∧ review_author review = None) l
  end.
Proof.
  induction l as [|review l IH]; [constructor|].
  cbn [collect]. unfold mbind, result_mbind.
  assert (get_text_bool (review_body review) = false ∧ review_items review = Return []
          ∨ ∃ body,
              review_body review = Some body
              ∧ get_text_bool (review_body review) = true
              ∧ review_items review
                = result_bind
                    (λ author, Return [TimelineReview (review_submittedAt review) author
                                         body (review_state review)])
                    (subscript (review_author review))) as Hcase.
  { unfold review_items, mbind, result_mbind.
    destruct (review_body review) as [body|]; [|by left]. simpl.
    destruct (text_bool body); [right; by exists body|by left]. }
  destruct Hcase as [[Hbody ->]|(body & Hsome & Hbody & ->)].
  - cbn [result_bind]. rewrite filter_cons_False by congruence.
    destruct (collect review_items l) as [out|e]; cbn [result_bind app]; [done|].
    destruct IH as [-> Hex]. split; [done|]. by right.
  - rewrite filter_cons_True by done.
    destruct (review_author review) as [login|] eqn:Hauthor; cbn [subscript result_bind].
    + destruct (collect review_items l) as [out|e]; cbn [result_bind].
      * rewrite fmap_cons. constructor; [by constructor|done].
      * destruct IH as [-> Hex]. split; [done|]. by right.
    + split; [done|]. by left.
Qed.

(** The timeline: the items of the entries are gathered, then sorted; or
    an entry has no author, and a [TypeError] is raised. *)
Lemma all_timeline_items_outcome (first_clash : list (option string) → clash)
  (pr_data : PullRequest) :
  (∃ gathered,
     Forall2 item_of (entries_of pr_data) gathered
     ∧ all_timeline_items first_clash pr_data = sort_by first_clash timestamp gathered)
  ∨ (Exists (λ e, entry_author e = None) (entries_of pr_data)
     ∧ all_timeline_items first_clash pr_data
       = Raise (TypeError "'NoneType' object is not subscriptable")).
Proof.
  unfold all_timeline_items, entries_of.
  pose proof (collect_comment_items (nodes (comments pr_data))) as Hcomments.
  pose proof (collect_review_items (nodes (reviews pr_data))) as Hreviews.
  unfold mbind, result_mbind.
  destruct (collect _ (nodes (comments pr_data))) as [from_comments|e];
    cbn [result_bind].
  - destruct (collect review_items _) as [from_reviews|e]; cbn [result_bind].
    + left. exists (from_comments ++ from_reviews). split; [|done]. by apply Forall2_app.
    + destruct Hreviews as [-> Hex]. right. split; [|done].
      apply Exists_app. right. rewrite Exists_fmap.
      apply Exists_exists in Hex as (review & Hin & Hbody & Hauthor).
      apply Exists_exists. exists review. split; [|done].
      by apply list_elem_of_filter.
  - destruct Hcomments as [-> Hex]. right. split; [|done].
    apply Exists_app. left. by rewrite Exists_fmap.
Qed.

(** When the timeline is there: its items are those of the entries, in
    an order in which no timestamp field is followed by a lesser one. *)
Lemma all_timeline_items_returns (first_clash : list (option string) → clash)
  (pr_data : PullRequest) (items : list timeline_item) :
  all_timeline_items first_clash pr_data = Return items →
  ∃ gathered entries,
    Forall2 item_of (entries_of pr_data) gathered
    ∧ sort_by first_clash timestamp gathered = Return items
    ∧ entries_of pr_data ≡ₚ entries
    ∧ Forall2 item_of entries items
    ∧ StronglySorted (λ a b, time_le (entry_time a) (entry_time b)) entries.
Proof.
  intros Hitems.
  destruct (all_timeline_items_outcome first_clash pr_data)
    as [(gathered & Hgathered & Heq)|[_ Heq]]; [|congruence].
  rewrite Heq in Hitems. clear Heq.
  destruct (sort_by_returns _ _ _ _ Hitems) as (Hperm & Hsorted & _).
  destruct (Forall2_perm_r _ _ _ _ Hgathered (symmetry Hperm)) as (entries & Hentries & Hrel).
  exists gathered, entries. split_and!; try done.
  eapply StronglySorted_Forall2; [|exact Hrel|exact Hsorted].
  intros a b x y Ha Hb. simpl.
  by rewrite (item_of_timestamp _ _ Ha), (item_of_timestamp _ _ Hb).
Qed.

Lemma all_timeline_items_raises (first_clash : list (option string) → clash)
  (pr_data : PullRequest) (e : exception) :
  all_timeline_items first_clash pr_data = Raise e → ∃ msg, e = TypeError msg.
Proof.
  destruct (all_timeline_items_outcome first_clash pr_data)
    as [(gathered & _ & ->)|[_ ->]].
  - intros (_ & _ & ->)%sort_by_raises. by eexists.
  - intros [= <-]. by eexists.
Qed.

(** *** The parts of the document *)

Lemma collect_Forall {A : Type} (P : block → Prop) (f : A → result (list block))
  (l : list A) (out : list block) :
  (∀ x part, f x = Return part → Forall P part) →
  collect f l = Return out → Forall P out.
Proof.
  intros Hf (parts & Hparts & ->)%collect_returns.
  induction Hparts as [|x part l parts Hx _ IH]; [constructor|].
  simpl. apply Forall_app_2; [by eapply Hf|done].
Qed.

Lemma collect_raises_with {A B : Type} (P : exception → Prop) (f : A → result (list B))
  (l : list A) (e : exception) :
  (∀ x e', f x = Raise e' → P e') → collect f l = Raise e → P e.
Proof. intros Hf (before & x & after & _ & _ & Hx)%collect_raises. by eapply Hf. Qed.

Ltac no_heading :=
  repeat first [ apply Forall_nil_2 | apply Forall_app_2 | apply Forall_cons_2
               | case_match | done ].

Lemma timeline_blocks_no_heading (items : list timeline_item) :
  Forall (λ b, ∀ level title, b ≠ Heading level title) (flat_map timeline_blocks items).
Proof.
  induction items as [|item items IH]; simpl; [constructor|].
  apply Forall_app_2; [|done]. unfold timeline_blocks. no_heading.
Qed.

Lemma thread_comment_blocks_no_heading (entry : nat * ThreadComment) (part : list block) :
  thread_comment_blocks entry = Return part →
  Forall (λ b, ∀ level title, b ≠ Heading level title) part.
Proof.
  destruct entry as [idx comment]. unfold thread_comment_blocks.
  destruct (tc_author comment) as [login|]; [|done]. intros [= <-]. no_heading.
Qed.

(** The blocks of a thread have one heading, of level 3. *)
Lemma unresolved_thread_blocks_no_heading (entry : nat * UnresolvedThread)
  (part : list block) :
  unresolved_thread_blocks entry = Return part →
  Forall (λ b, ∀ title, b ≠ Heading 2 title) part.
Proof.
  destruct entry as [i thread]. unfold unresolved_thread_blocks, mbind, result_mbind.
  destruct (collect thread_comment_blocks _) as [of_comments|e] eqn:Hcomments; [|done].
  intros [= <-].
  apply Forall_cons_2; [done|]. apply Forall_app_2; [no_heading|].
  apply Forall_cons_2; [done|].
  eapply collect_Forall; [|exact Hcomments].
  intros x part Hx. eapply Forall_impl; [by eapply thread_comment_blocks_no_heading|].
  intros b Hb title. apply Hb.
Qed.

(** The last section: its heading, then blocks without a heading of
    level 2. *)
Lemma unresolved_blocks_returns (unresolved_threads : list UnresolvedThread)
  (blocks : list block) :
  unresolved_blocks unresolved_threads = Return blocks →
  ∃ of_threads,
    blocks = Heading 2 "Unresolved Review Comments" :: of_threads
    ∧ Forall (λ b, ∀ title, b ≠ Heading 2 title) of_threads.
Proof.
  unfold unresolved_blocks, mbind, result_mbind.
  destruct unresolved_threads as [|thread threads].
  - intros [= <-]. eexists. split; [done|]. by repeat constructor.
  - destruct (collect unresolved_thread_blocks _) as [of_threads|e] eqn:Hthreads; [|done].
    intros [= <-]. exists of_threads. split; [done|].
    eapply collect_Forall; [|exact Hthreads].
    intros x part. apply unresolved_thread_blocks_no_heading.
Qed.

Lemma unresolved_blocks_raises (unresolved_threads : list UnresolvedThread)
  (e : exception) :
  unresolved_blocks unresolved_threads = Raise e →
  e = TypeError "'NoneType' object is not subscriptable".
Proof.
  unfold unresolved_blocks, mbind, result_mbind.
  destruct unresolved_threads as [|thread threads]; [done|].
  destruct (collect unresolved_thread_blocks _) as [of_threads|e'] eqn:Hthreads; [done|].
  intros [= <-]. revert Hthreads.
  apply (collect_raises_with
           (λ e, e = TypeError "'NoneType' object is not subscriptable")).
  intros [i t] e. unfold unresolved_thread_blocks, mbind, result_mbind.
  destruct (collect thread_comment_blocks _) as [of_comments|e''] eqn:Hcomments; [done|].
  intros [= <-]. revert Hcomments.
  apply (collect_raises_with
           (λ e, e = TypeError "'NoneType' object is not subscriptable")).
  intros [idx comment] e. unfold thread_comment_blocks.
  destruct (tc_author comment); [done|]. by intros [= <-].
Qed.

(** A loop whose every turn returns or raises [e0], raising where [P]
    holds. *)
Lemma collect_uniform {A B : Type} (f : A → result (list B)) (P : A → Prop)
  (e0 : exception) (l : list A) :
  (∀ x, match f x with
        | Return _ => ¬ P x
        | Raise e => P x ∧ e = e0
        end) →
  match collect f l with
  | Return _ => Forall (λ x, ¬ P x) l
  | Raise e => Exists P l ∧ e = e0
  end.
Proof.
  intros Hf. induction l as [|x l IH]; [constructor|].
  cbn [collect]. unfold mbind, result_mbind. specialize (Hf x).
  destruct (f x) as [part|e]; cbn [result_bind].
  - destruct (collect f l) as [out|e]; cbn [result_bind].
    + by constructor.
    + destruct IH as [Hex ->]. split; [by right|done].
  - destruct Hf as [Hx ->]. split; [by left|done].
Qed.

Lemma Forall_not_Exists {A : Type} (P : A → Prop) (l : list A) :
  Forall (λ x, ¬ P x) l → Exists P l → False.
Proof.
  intros Hall (x & Hin & Hx)%Exists_exists. rewrite Forall_forall in Hall.
  by apply (Hall x).
Qed.

Lemma item_of_timestamps (entries : list entry) (items : list timeline_item) :
  Forall2 item_of entries items → timestamp <$> items = entry_time <$> entries.
Proof.
  induction 1 as [|e item entries items He _ IH]; [done|].
  cbn [fmap list_fmap]. by rewrite IH, (item_of_timestamp _ _ He).
Qed.

(** The timeline is made when every entry has its author and, if there
    are two entries or more, its timestamp. *)
Lemma all_timeline_items_cases (first_clash : list (option string) → clash)
  (pr_data : PullRequest) :
  let entries := entries_of pr_data in
  match all_timeline_items first_clash pr_data with
  | Return _ =>
      Forall (λ en, entry_author en ≠ None) entries
      ∧ ((length entries < 2)%nat ∨ Forall (λ en, entry_time en ≠ None) entries)
  | Raise e =>
      Exists (λ en, entry_author en = None) entries
      ∧ e = TypeError "'NoneType' object is not subscriptable"
      ∨ Forall (λ en, entry_author en ≠ None) entries
        ∧ (2 ≤ length entries)%nat
        ∧ Exists (λ en, entry_time en = None) entries
        ∧ e = TypeError (unorderable (first_clash (entry_time <$> entries)))
  end.
Proof.
  intros entries.
  destruct (all_timeline_items_outcome first_clash pr_data)
    as [(gathered & Hgathered & ->)|[Hex ->]]; [|by left].
  fold entries in Hgathered.
  assert (Forall (λ en, entry_author en ≠ None) entries) as Hauthors.
  { eapply Forall2_Forall_l; [exact Hgathered|]. apply Forall_forall.
    intros item _ en. apply item_of_author. }
  pose proof (item_of_timestamps _ _ Hgathered) as Htimes.
  pose proof (Forall2_length _ _ _ Hgathered) as Hlength.
  assert (Exists (λ item, timestamp item = None) gathered
          ↔ Exists (λ en, entry_time en = None) entries) as Hexists.
  { split; intros Hex.
    - apply (Exists_fmap entry_time (λ k, k = None)). rewrite <- Htimes.
      by apply (Exists_fmap timestamp (λ k, k = None)).
    - apply (Exists_fmap timestamp (λ k, k = None)). rewrite Htimes.
      by apply (Exists_fmap entry_time (λ k, k = None)). }
  destruct (sort_by first_clash timestamp gathered) as [items|e] eqn:Hsort.
  - split; [done|].
    destruct (decide (length entries < 2)%nat) as [|Hlen]; [by left|]. right.
    apply Forall_forall. intros en Hin Hnone.
    assert (∃ e, sort_by first_clash timestamp gathered = Raise e) as [e He];
      [|congruence].
    eexists. apply sort_by_raises. split_and!; [lia| |done].
    apply Hexists, Exists_exists. by exists en.
  - apply sort_by_raises in Hsort as (Hlen & Hnone & ->). right.
    split_and!; [done|lia|by apply Hexists|by rewrite Htimes].
Qed.

(** The last section is made when every comment of every thread has its
    author. *)
Lemma unresolved_blocks_cases (unresolved_threads : list UnresolvedThread) :
  match unresolved_blocks unresolved_threads with
  | Return _ =>
      Forall (λ thread, Forall (λ comment, tc_author comment ≠ None) (allComments thread))
        unresolved_threads
  | Raise e =>
      Exists (λ thread, Exists (λ comment, tc_author comment = None) (allComments thread))
        unresolved_threads
      ∧ e = TypeError "'NoneType' object is not subscriptable"
  end.
Proof.
  assert (∀ (start : nat) (comments : list ThreadComment),
            match collect thread_comment_blocks (enumerate start comments) with
            | Return _ => Forall (λ comment, tc_author comment ≠ None) comments
            | Raise e =>
                Exists (λ comment, tc_author comment = None) comments
                ∧ e = TypeError "'NoneType' object is not subscriptable"
            end) as Hcomments.
  { intros start comments.
    pose proof (collect_uniform thread_comment_blocks
                  (λ entry, tc_author entry.2 = None)
                  (TypeError "'NoneType' object is not subscriptable")
                  (enumerate start comments)) as Hloop.
    destruct (collect thread_comment_blocks _) as [out|e].
    - rewrite <- (enumerate_snd start comments), Forall_fmap. apply Hloop.
      intros [idx comment]. unfold thread_comment_blocks. simpl.
      by destruct (tc_author comment).
    - rewrite <- (enumerate_snd start comments), Exists_fmap. apply Hloop.
      intros [idx comment]. unfold thread_comment_blocks. simpl.
      by destruct (tc_author comment). }
  assert (∀ entry : nat * UnresolvedThread,
            match unresolved_thread_blocks entry with
            | Return _ =>
                ¬ Exists (λ comment, tc_author comment = None) (allComments entry.2)
            | Raise e =>
                Exists (λ comment, tc_author comment = None) (allComments entry.2)
                ∧ e = TypeError "'NoneType' object is not subscriptable"
            end) as Hthread.
  { intros [i thread]. unfold unresolved_thread_blocks, mbind, result_mbind.
    specialize (Hcomments 0%nat (allComments thread)).
    destruct (collect thread_comment_blocks _) as [out|e]; cbn [result_bind]; [|done].
    simpl. intros Hex. exact (Forall_not_Exists _ _ Hcomments Hex). }
  unfold unresolved_blocks, mbind, result_mbind.
  destruct unresolved_threads as [|thread threads]; [constructor|].
  pose proof (collect_uniform unresolved_thread_blocks
                (λ entry, Exists (λ comment, tc_author comment = None)
                            (allComments entry.2))
                (TypeError "'NoneType' object is not subscriptable")
                (enumerate 1 (thread :: threads)) Hthread) as Hloop.
  destruct (collect unresolved_thread_blocks _) as [out|e]; cbn [result_bind].
  - rewrite <- (enumerate_snd 1 (thread :: threads)), Forall_fmap.
    eapply Forall_impl; [exact Hloop|]. intros [i t] Hno. simpl in *.
    apply Forall_forall. intros comment Hin Hnone. apply Hno.
    apply Exists_exists. by exists comment.
  - destruct Hloop as [Hex ->]. split; [|done].
    by rewrite <- (enumerate_snd 1 (thread :: threads)), Exists_fmap.
Qed.

(** The document is made when the pull request, the entries of the
    discussion and the comments of the threads have their authors, and the
    entries their timestamps if they are two or more. *)
Lemma summary_document_returns (first_clash : list (option string) → clash)
  (pr_data : PullRequest) (unresolved_threads : list UnresolvedThread) :
  author pr_data ≠ None →
  Forall (λ en, entry_author en ≠ None) (entries_of pr_data) →
  (length (entries_of pr_data) < 2)%nat
  ∨ Forall (λ en, entry_time en ≠ None) (entries_of pr_data) →
  Forall (λ thread, Forall (λ comment, tc_author comment ≠ None) (allComments thread))
    unresolved_threads →
  ∃ doc, summary_document first_clash pr_data unresolved_threads = Return doc.
Proof.
  intros Hauthor Hauthors Htimes Hthreads.
  pose proof (all_timeline_items_cases first_clash pr_data) as Hitems.
  pose proof (unresolved_blocks_cases unresolved_threads) as Hunresolved.
  unfold summary_document, header_blocks, mbind, result_mbind.
  destruct (author pr_data) as [login|]; [|done]. cbn [subscript result_bind].
  destruct (all_timeline_items first_clash pr_data) as [items|e]; cbn [result_bind].
  - destruct (unresolved_blocks unresolved_threads) as [blocks|e]; cbn [result_bind];
      [by eexists|].
    destruct Hunresolved as [Hex _].
    apply Exists_exists in Hex as (thread & Hin & Hex).
    rewrite Forall_forall in Hthreads.
    destruct (Forall_not_Exists _ _ (Hthreads thread Hin) Hex).
  - destruct Hitems as [[Hex _]|(_ & Hlen & Hex & _)].
    + destruct (Forall_not_Exists _ _ Hauthors Hex).
    + destruct Htimes as [?|Htimes]; [lia|].
      destruct (Forall_not_Exists _ _ Htimes Hex).
Qed.

(** The document is made of its six parts, when the three parts that read
    an author (and the sort) do not raise; what one of them raises is what
    comes out, and it is a [TypeError]. *)
Lemma summary_document_outcome (first_clash : list (option string) → clash)
  (pr_data : PullRequest) (unresolved_threads : list UnresolvedThread) :
  match summary_document first_clash pr_data unresolved_threads with
  | Return doc =>
      ∃ header items unresolved,
        header_blocks pr_data = Return header
        ∧ all_timeline_items first_clash pr_data = Return items
        ∧ unresolved_blocks unresolved_threads = Return unresolved
        ∧ doc = header ++ stats_blocks pr_data unresolved_threads
                ++ description_blocks pr_data ++ file_blocks pr_data
                ++ discussion_blocks items ++ unresolved
  | Raise e =>
      (∃ msg, e = TypeError msg)
      ∧ (header_blocks pr_data = Raise e
         ∨ (∃ header, header_blocks pr_data = Return header)
           ∧ (all_timeline_items first_clash pr_data = Raise e
              ∨ (∃ items, all_timeline_items first_clash pr_data = Return items)
                ∧ unresolved_blocks unresolved_threads = Raise e))
  end.
Proof.
  unfold summary_document, mbind, result_mbind.
  destruct (header_blocks pr_data) as [header|e] eqn:Hheader; cbn [result_bind].
  - destruct (all_timeline_items first_clash pr_data) as [items|e] eqn:Hitems;
      cbn [result_bind].
    + destruct (unresolved_blocks unresolved_threads) as [unresolved|e] eqn:Hunresolved;
        cbn [result_bind].
      * by exists header, items, unresolved.
      * split; [apply unresolved_blocks_raises in Hunresolved; by eexists|].
        right. split; [by eexists|]. right. split; [by eexists|done].
    + split; [by eapply all_timeline_items_raises|].
      right. split; [by eexists|]. by left.
  - split; [|by left]. unfold header_blocks in Hheader.
    destruct (author pr_data); [done|]. injection Hheader as <-. by eexists.
Qed.

Lemma header_blocks_headings (pr_data : PullRequest) (header : list block) :
  header_blocks pr_data = Return header →
  Forall (λ b, ∀ title, b ≠ Heading 2 title) header.
Proof.
  unfold header_blocks. destruct (author pr_data); [|done]. intros [= <-]. no_heading.
Qed.

(** The front of the document has no heading "Discussion & Reviews". *)
Lemma front_no_discussion (pr_data : PullRequest)
  (unresolved_threads : list UnresolvedThread) (header : list block) :
  header_blocks pr_data = Return header →
  Forall (λ b, b ≠ Heading 2 "Discussion & Reviews")
    (header ++ stats_blocks pr_data unresolved_threads
     ++ description_blocks pr_data ++ file_blocks pr_data).
Proof.
  intros Hheader%header_blocks_headings. repeat apply Forall_app_2.
  - eapply Forall_impl; [exact Hheader|]. intros b Hb. apply Hb.
  - unfold stats_blocks. no_heading.
  - unfold description_blocks. no_heading.
  - unfold file_blocks. no_heading.
Qed.

Lemma app_front {A : Type} (a b c d e f : list A) :
  a ++ b ++ c ++ d ++ e ++ f = (a ++ b ++ c ++ d) ++ e ++ f.
Proof. by rewrite <- !(assoc_L (++)). Qed.

Lemma section_of_skip (title : string) (front rest : list block) :
  Forall (λ b, b ≠ Heading 2 title) front →
  section_of title (front ++ rest) = section_of title rest.
Proof.
  induction 1 as [|b front Hb _ IH]; [done|].
  cbn [app section_of]. rewrite IH.
  destruct b as [level t| | | | |]; try done.
  destruct level as [|[|[|level]]]; try done.
  destruct (decide (t = title)) as [->|]; [done|done].
Qed.

Lemma section_of_none (title : string) (doc : list block) :
  Forall (λ b, b ≠ Heading 2 title) doc → section_of title doc = None.
Proof.
  intros Hdoc. rewrite <- (app_nil_r doc). by rewrite section_of_skip.
Qed.

Lemma up_to_heading_app (body rest : list block) (title : string) :
  Forall (λ b, ∀ t, b ≠ Heading 2 t) body →
  up_to_heading (body ++ Heading 2 title :: rest) = body.
Proof.
  induction 1 as [|b body Hb _ IH]; [done|].
  cbn [app up_to_heading]. rewrite IH.
  destruct b as [level t| | | | |]; try done.
  destruct level as [|[|[|level]]]; try done. by destruct (Hb t).
Qed.

(** C5: the section "Discussion & Reviews" of the document shows the
    general comments and the reviews that have a body, each with its
    timestamp field ([createdAt] of a comment, [submittedAt] of a review),
    in an order in which no entry is followed by one whose timestamp field
    is less than its own, as strings compare; without an entry the section
    is not there.  The document is not made when a [TypeError] is raised on
    the way; and one is raised when there are two entries or more and the
    [submittedAt] of a review with a body is null, which the sort cannot
    compare.  It is made when the pull request, every entry and every
    comment of the unresolved threads has its author, and every entry its
    timestamp. *)
Theorem discussion_in_timestamp_order (first_clash : list (option string) → clash)
  (pr_data : PullRequest) (unresolved_threads : list UnresolvedThread) :
  match summary_document first_clash pr_data unresolved_threads with
  | Return doc =>
      ∃ entries shown,
        entries_of pr_data ≡ₚ entries
        ∧ StronglySorted (λ a b, time_le (entry_time a) (entry_time b)) entries
        ∧ Forall2 shows entries shown
        ∧ section_of "Discussion & Reviews" doc
          = match entries with
            | [] => None
            | _ :: _ => Some (concat shown)
            end
  | Raise e => ∃ msg, e = TypeError msg
  end
  ∧ ((2 ≤ length (entries_of pr_data))%nat →
     Exists (λ e, entry_time e = None) (entries_of pr_data) →
     ∃ msg, summary_document first_clash pr_data unresolved_threads
            = Raise (TypeError msg))
  ∧ (author pr_data ≠ None →
     Forall (λ e, entry_author e ≠ None ∧ entry_time e ≠ None) (entries_of pr_data) →
     Forall (λ thread, Forall (λ comment, tc_author comment ≠ None) (allComments thread))
       unresolved_threads →
     ∃ doc, summary_document first_clash pr_data unresolved_threads = Return doc).
Proof.
  pose proof (summary_document_outcome first_clash pr_data unresolved_threads) as Hdoc.
  split; [|split].
  3:{ intros Hauthor Hentries Hthreads. apply summary_document_returns; try done.
      - eapply Forall_impl; [exact Hentries|]. by intros en [? _].
      - right. eapply Forall_impl; [exact Hentries|]. by intros en [_ ?]. }
  - destruct (summary_document first_clash pr_data unresolved_threads) as [doc|e];
      [|by destruct Hdoc].
    destruct Hdoc as (header & items & unresolved & Hheader & Hitems & Hunresolved & ->).
    destruct (all_timeline_items_returns _ _ _ Hitems)
      as (gathered & entries & _ & _ & Hperm & Hrel & Hsorted).
    exists entries, (timeline_blocks <$> items). split_and!; try done.
    { apply Forall2_fmap_r. eapply Forall2_impl; [exact Hrel|]. apply item_of_shows. }
    apply unresolved_blocks_returns in Hunresolved as (of_threads & -> & Hthreads).
    rewrite app_front, section_of_skip by by apply front_no_discussion.
    destruct Hrel as [|e item entries items He Hrel]; cbn [discussion_blocks app].
    + cbn [section_of]. rewrite decide_False by done. apply section_of_none.
      eapply Forall_impl; [exact Hthreads|]. intros b Hb. apply Hb.
    + cbn [section_of]. rewrite decide_True by done. f_equal.
      rewrite <- flat_map_concat_map. apply up_to_heading_app.
      eapply Forall_impl; [apply (timeline_blocks_no_heading (item :: items))|].
      intros b Hb title. apply Hb.
  - intros Hlen Hnone.
    destruct (summary_document first_clash pr_data unresolved_threads) as [doc|e];
      [|destruct Hdoc as [[msg ->] _]; by eexists].
    destruct Hdoc as (header & items & unresolved & _ & Hitems & _).
    destruct (all_timeline_items_returns _ _ _ Hitems)
      as (gathered & entries & Hgathered & Hsort & _).
    assert (∃ e, sort_by first_clash timestamp gathered = Raise e) as [e He];
      [|congruence].
    eexists. apply sort_by_raises. split_and!; [|  |done].
    + by rewrite <- (Forall2_length _ _ _ Hgathered).
    + apply Exists_exists in Hnone as (entry & Hin & Htime).
      apply list_elem_of_lookup in Hin as [i Hi].
      destruct (Forall2_lookup_l _ _ _ _ _ Hgathered Hi) as (item & Hitem & Hof).
      apply Exists_exists. exists item. split; [by eapply list_elem_of_lookup_2|].
      by rewrite (item_of_timestamp _ _ Hof).
Qed.

(** C6: the label of a review is looked up by its state in a fixed
    table, APPROVED, CHANGES_REQUESTED, COMMENTED, DISMISSED and PENDING
    each with its label; a state that is not in the table is its own
    label; and the line of a review in the discussion shows that label. *)
Theorem review_state_label_table :
  state_label "APPROVED" = "✅ APPROVED"
  ∧ state_label "CHANGES_REQUESTED" = "🔴 CHANGES REQUESTED"
  ∧ state_label "COMMENTED" = "💬 COMMENTED"
  ∧ state_label "DISMISSED" = "❌ DISMISSED"
  ∧ state_label "PENDING" = "⏳ PENDING"
  ∧ (∀ state,
       state_label state =
       if decide (state = "APPROVED") then "✅ APPROVED"
       else if decide (state = "CHANGES_REQUESTED") then "🔴 CHANGES REQUESTED"
       else if decide (state = "COMMENTED") then "💬 COMMENTED"
       else if decide (state = "DISMISSED") then "❌ DISMISSED"
       else if decide (state = "PENDING") then "⏳ PENDING"
       else state)
  ∧ (∀ timestamp author body state,
       timeline_blocks (TimelineReview (Some timestamp) author body state)
       = [Para [Bold ("@" +:+ author);
                Text (" (" +:+ timestamp +:+ ") - " +:+ state_label state +:+ ":")];
          Raw body; HorizontalRule])
  ∧ (∀ author body state,
       timeline_blocks (TimelineReview None author body state)
       = [Para [Bold ("@" +:+ author);
                Text (" (None) - " +:+ state_label state +:+ ":")];
          Raw body; HorizontalRule]).
Proof.
  split_and!; try by vm_compute.
  intros state. unfold state_label, state_labels.
  rewrite !lookup_insert, lookup_empty.
  repeat case_decide; simplify_eq; done.
Qed.

(** C10: the timeline holds every general comment, and a review exactly
    when its body is there and not empty; it is empty exactly when there is
    no general comment and no review with such a body; and the document has
    the heading "Discussion & Reviews" exactly when the timeline is not
    empty.  (Where the document is not made, a [TypeError] has been
    raised.) *)
Theorem discussion_heading_and_items (first_clash : list (option string) → clash)
  (pr_data : PullRequest) (unresolved_threads : list UnresolvedThread) :
  match summary_document first_clash pr_data unresolved_threads with
  | Return doc =>
      ∃ items,
        all_timeline_items first_clash pr_data = Return items
        ∧ (∀ item,
             item ∈ items ↔
             (∃ comment,
                comment ∈ nodes (comments pr_data) ∧ comment_item comment = Return item)
             ∨ (∃ review body login,
                  review ∈ nodes (reviews pr_data)
                  ∧ review_body review = Some body ∧ body ≠ []
                  ∧ review_author review = Some login
                  ∧ item = TimelineReview (review_submittedAt review) login
                             body (review_state review)))
        ∧ (items = [] ↔
           nodes (comments pr_data) = []
           ∧ Forall (λ review, get_text_bool (review_body review) = false)
               (nodes (reviews pr_data)))
        ∧ (Heading 2 "Discussion & Reviews" ∈ doc ↔ items ≠ [])
  | Raise e => ∃ msg, e = TypeError msg
  end.
Proof.
  pose proof (summary_document_outcome first_clash pr_data unresolved_threads) as Hdoc.
  destruct (summary_document first_clash pr_data unresolved_threads) as [doc|e];
    [|by destruct Hdoc].
  destruct Hdoc as (header & items & unresolved & Hheader & Hitems & Hunresolved & ->).
  exists items. split; [done|].
  destruct (all_timeline_items_returns _ _ _ Hitems)
    as (gathered & entries & Hgathered & Hsort & Hperm & Hrel & _).
  assert (∀ item, item ∈ items ↔ ∃ e, e ∈ entries_of pr_data ∧ item_of e item) as Hin.
  { intros item. split.
    - intros [i Hi]%list_elem_of_lookup.
      destruct (Forall2_lookup_r _ _ _ _ _ Hrel Hi) as (e & He & Hof).
      exists e. split; [|done]. rewrite Hperm. by eapply list_elem_of_lookup_2.
    - intros (e & He & Hof). rewrite Hperm in He.
      apply list_elem_of_lookup in He as [i Hi].
      destruct (Forall2_lookup_l _ _ _ _ _ Hrel Hi) as (item' & Hitem' & Hof').
      rewrite (item_of_functional _ _ _ Hof Hof'). by eapply list_elem_of_lookup_2. }
  split_and!.
  - intros item. rewrite Hin. unfold entries_of. split.
    + intros (e & [He|He]%elem_of_app & Hof).
      * apply list_elem_of_fmap in He as (comment & -> & Hcomment).
        left. exists comment. split; [done|]. by apply comment_item_spec.
      * apply list_elem_of_fmap in He as (review & -> & Hreview).
        apply list_elem_of_filter in Hreview as [Hbody Hreview].
        inversion Hof as [|? login body Hauthor Hsome]; subst.
        right. exists review, body, login. split_and!; try done.
        rewrite Hsome in Hbody. simpl in Hbody. by apply text_bool_true.
    + intros [(comment & Hcomment & Hitem)|(review & body & login & Hreview & Hsome
                                             & Hne & Hauthor & ->)].
      * exists (OfComment comment). split; [|by apply comment_item_spec].
        apply elem_of_app. left. by apply list_elem_of_fmap_2.
      * exists (OfReview review). split; [|by constructor].
        apply elem_of_app. right. apply list_elem_of_fmap_2.
        apply list_elem_of_filter. split; [|done].
        rewrite Hsome. simpl. by apply text_bool_true.
  - assert (items = [] ↔ entries_of pr_data = []) as ->.
    { split; intros Hnil.
      - subst items. inversion Hrel; subst. by apply Permutation_nil_r in Hperm.
      - rewrite Hnil in Hperm. apply Permutation_nil in Hperm. subst entries.
        by inversion Hrel. }
    unfold entries_of. split.
    + intros [Hcomments Hreviews]%app_eq_nil. split.
      * by apply fmap_nil_inv in Hcomments.
      * apply fmap_nil_inv in Hreviews. apply Forall_forall. intros review Hreview.
        destruct (get_text_bool (review_body review)) eqn:Hbody; [|done].
        assert (review ∈ filter (λ review, get_text_bool (review_body review) = true)
                           (nodes (reviews pr_data))) as Hfiltered.
        { by apply list_elem_of_filter. }
        rewrite Hreviews in Hfiltered. by apply elem_of_nil in Hfiltered.
    + intros [-> Hreviews]. simpl.
      assert (filter (λ review, get_text_bool (review_body review) = true)
                (nodes (reviews pr_data)) = []) as ->; [|done].
      apply filter_none. eapply Forall_impl; [exact Hreviews|].
      intros review Hbody. simpl in *. congruence.
  - apply unresolved_blocks_returns in Hunresolved as (of_threads & -> & Hthreads).
    assert (∀ blocks : list block,
              Forall (λ b, b ≠ Heading 2 "Discussion & Reviews") blocks →
              ¬ Heading 2 "Discussion & Reviews" ∈ blocks) as Hnot.
    { intros blocks Hall Hb. rewrite Forall_forall in Hall. by apply (Hall _ Hb). }
    pose proof (front_no_discussion pr_data unresolved_threads header Hheader) as Hfront.
    rewrite app_front, elem_of_app, (elem_of_app (discussion_blocks items)). split.
    + intros [Hb|[Hb|Hb]].
      * by destruct (Hnot _ Hfront).
      * intros ->. by apply elem_of_nil in Hb.
      * exfalso. revert Hb. apply Hnot. constructor; [done|].
        eapply Forall_impl; [exact Hthreads|]. intros b Hb. apply Hb.
    + intros Hne. right. left. destruct items; [done|]. by left.
Qed.

(** *** The end-to-end example of the specification *)

Example extract_unresolved_threads_end_to_end :
  extract_unresolved_threads end_to_end_pull_request = Return [].
Proof. reflexivity. Qed.

Example summary_document_end_to_end :
  summary_document (λ _, NoneAndStr) end_to_end_pull_request []
  = Return
    [Heading 1 "PR #7: Add a";
     Para [Bold "URL"; Text ": https://example.org/pr/7"];
     Para [Bold "Author"; Text ": @bob"];
     Para [Bold "Status"; Text ": OPEN"];
     Para [Bold "Branch"; Text ": "; InlineCode "feat"; Text " → "; InlineCode "main"];
     Heading 2 "Summary";
     UnorderedList
       [[Bold "Files changed"; Text ": 1"];
        [Bold "Additions"; Text ": +10"];
        [Bold "Deletions"; Text ": -2"];
        [Bold "General comments"; Text ": 0"];
        [Bold "Unresolved review comments"; Text ": 0"]];
     Heading 2 "Files Changed";
     UnorderedList [[InlineCode "src/a.py"; Text " (+10 -2)"]];
     Heading 2 "Discussion & Reviews";
     Para [Bold "@carol"; Text " (2024-01-03T00:00:00Z) - ✅ APPROVED:"];
     Raw (text_of_ascii "lgtm"); HorizontalRule;
     Heading 2 "Unresolved Review Comments";
     Para [Text "*No unresolved comments*"]].
Proof. vm_compute. reflexivity. Qed.

(** Without fuel for the second page of the files the fetch does not
    come to an end. *)
Example get_pr_data_out_of_fuel :
  (get_pr_data 0 example_services "bob" "repo" 7).1 = OutOfFuel.
Proof. vm_compute. reflexivity. Qed.

End SummarizePrFacts.

(** ** More on outcomes and logs *)

Module IOMore.

Import IOFacts.

Section parts.
Context {E : Type}.

Lemma bind_fst {A B : Type} (m : IO E A) (f : A → IO E B) :
  (m ≫= f).1 =
  match m.1 with
  | Returned a => (f a).1
  | Raised e => Raised e
  | OutOfFuel => OutOfFuel
  end.
Proof.
  destruct m as [[a|e|] log]; try done.
  unfold mbind, io_mbind, io_bind. simpl. by destruct (f a).
Qed.

Lemma bind_snd {A B : Type} (m : IO E A) (f : A → IO E B) :
  (m ≫= f).2 = m.2 ++ match m.1 with Returned a => (f a).2 | _ => [] end.
Proof.
  destruct m as [[a|e|] log]; simpl; try by rewrite app_nil_r.
  unfold mbind, io_mbind, io_bind. simpl. by destruct (f a).
Qed.

Lemma try_except_fst {A : Type} (m : IO E A) (h : exception → IO E A) :
  (try_except m h).1 =
  match m.1 with
  | Raised e => (h e).1
  | o => o
  end.
Proof. destruct m as [[a|e|] log]; try done. simpl. by destruct (h e). Qed.

Lemma try_except_snd {A : Type} (m : IO E A) (h : exception → IO E A) :
  (try_except m h).2 = m.2 ++ match m.1 with Raised e => (h e).2 | _ => [] end.
Proof.
  destruct m as [[a|e|] log]; simpl; try by rewrite app_nil_r.
  by destruct (h e).
Qed.

Lemma elem_of_bind_log {A B : Type} (m : IO E A) (f : A → IO E B) (ev : E) :
  ev ∈ (m ≫= f).2 → ev ∈ m.2 ∨ ∃ a, m.1 = Returned a ∧ ev ∈ (f a).2.
Proof.
  rewrite bind_snd, elem_of_app. intros [Hin|Hin]; [by left|].
  destruct m.1 as [a| |]; [right; by exists a|by apply elem_of_nil in Hin..].
Qed.

Lemma elem_of_try_except_log {A : Type} (m : IO E A) (h : exception → IO E A) (ev : E) :
  ev ∈ (try_except m h).2 → ev ∈ m.2 ∨ ∃ e, m.1 = Raised e ∧ ev ∈ (h e).2.
Proof.
  rewrite try_except_snd, elem_of_app. intros [Hin|Hin]; [by left|].
  destruct m.1 as [|e|]; [by apply elem_of_nil in Hin|right; by exists e|
                          by apply elem_of_nil in Hin].
Qed.

Lemma bind_returned_inv {A B : Type} (m : IO E A) (f : A → IO E B) (b : B)
  (log : list E) :
  m ≫= f = (Returned b, log) →
  ∃ a l1 l2, m = (Returned a, l1) ∧ f a = (Returned b, l2) ∧ log = l1 ++ l2.
Proof.
  destruct m as [[a|e|] l1]; try done.
  unfold mbind, io_mbind, io_bind. destruct (f a) as [r l2] eqn:Hf.
  intros [= -> <-]. by exists a, l1, l2.
Qed.

Lemma try_except_returned_inv {A : Type} (m : IO E A) (h : exception → IO E A)
  (a : A) (log : list E) :
  try_except m h = (Returned a, log) →
  m = (Returned a, log)
  ∨ ∃ e l1 l2, m = (Raised e, l1) ∧ h e = (Returned a, l2) ∧ log = l1 ++ l2.
Proof.
  destruct m as [[a'|e|] l1]; simpl; try done.
  - intros [= -> ->]. by left.
  - destruct (h e) as [r l2] eqn:Hh. intros [= -> <-]. right. by exists e, l1, l2.
Qed.

Lemma bind_ext {A B : Type} (m : IO E A) (f g : A → IO E B) :
  (∀ a, f a = g a) → m ≫= f = m ≫= g.
Proof.
  intros Hfg. destruct m as [[a|e|] log]; try done.
  unfold mbind, io_mbind, io_bind. by rewrite Hfg.
Qed.


Lemma bind_out_of_fuel_inv {A B : Type} (m : IO E A) (f : A → IO E B) (log : list E) :
  m ≫= f = (OutOfFuel, log) →
  m = (OutOfFuel, log)
  ∨ ∃ a l1 l2, m = (Returned a, l1) ∧ f a = (OutOfFuel, l2) ∧ log = l1 ++ l2.
Proof.
  destruct m as [[a|e'|] l1]; try done.
  - unfold mbind, io_mbind, io_bind. destruct (f a) as [r l2] eqn:Hf.
    intros [= -> <-]. right. by exists a, l1, l2.
  - intros [= ->]. by left.
Qed.

Lemma log_bind_returned (P : E → Prop) {A B : Type} (m : IO E A) (f : A → IO E B) :
  Forall P m.2 → (∀ a log, m = (Returned a, log) → Forall P (f a).2) →
  Forall P (m ≫= f).2.
Proof.
  intros Hm Hf. rewrite bind_snd. apply Forall_app_2; [done|].
  destruct m as [[a|e|] log]; simpl; [by eapply Hf|constructor..].
Qed.

End parts.

End IOMore.

(** ** More on prepare-worktree.py *)

Module PrepareWorktreeMore.

Import PrepareWorktree PyFacts IOFacts IOMore PrepareWorktreeFacts.

#[local] Arguments str_in : simpl never.
#[local] Arguments uncommitted_changes_message : simpl never.
#[local] Arguments readme_template : simpl never.
#[local] Arguments joinpath : simpl never.
#[local] Arguments str_of_int : simpl never.

Lemma fetch_pr_branch_keeps (w : Host) (c : WorktreeContext) :
  Forall (λ ev, is_removal ev = false) (fetch_pr_branch w c).2.
Proof. unfold fetch_pr_branch. repeat log_step. Qed.

Lemma add_worktree_keeps (w : Host) (c : WorktreeContext) :
  Forall (λ ev, is_removal ev = false) (add_worktree w c).2.
Proof. unfold add_worktree. repeat log_step. Qed.

(** An event of [prepare_worktree] is an event of one of its parts, run
    on the context that was resolved. *)
Lemma prepare_worktree_events (w : Host) (repo_path : string) (pr_number : Z)
  (ev : event action) :
  ev ∈ (prepare_worktree w repo_path pr_number).2 →
  ev ∈ (resolve_context w repo_path pr_number).2
  ∨ ∃ c, (resolve_context w repo_path pr_number).1 = Returned c
      ∧ (ev ∈ (seed_review_notes w c).2
         ∨ ev ∈ (remove_existing_worktree w c).2
         ∨ ev ∈ (fetch_pr_branch w c).2
         ∨ ev ∈ (add_worktree w c).2).
Proof.
  unfold prepare_worktree.
  intros [Hin|(c & Hc & Hin)]%elem_of_bind_log; [by left|]. right. exists c.
  split; [done|].
  apply elem_of_bind_log in Hin as [Hin|(_ & _ & Hin)]; [by left|].
  apply elem_of_bind_log in Hin as [Hin|(_ & _ & Hin)]; [by right; left|].
  apply elem_of_bind_log in Hin as [Hin|(_ & _ & Hin)]; [by right; right; left|].
  by right; right; right.
Qed.

(** What a removal call in the log of [remove_existing_worktree] tells. *)
Lemma remove_existing_worktree_events (w : Host) (c : WorktreeContext)
  (ev : event action) :
  let worktree_path := ctx_worktree_path c in
  let remove := ["worktree"; "remove"; worktree_path; "--force"] in
  ev ∈ (remove_existing_worktree w c).2 → is_removal ev = true →
  path_exists w worktree_path = true
  ∧ ¬ (open_repo w worktree_path = Return tt ∧ is_dirty w worktree_path = Return true)
  ∧ (ev = Outside (Git remove)
     ∨ (∃ msg, git w remove = Raise (GitCommandError msg))
       ∧ (ev = Outside (Rmtree worktree_path)
          ∨ ev = Outside (Git ["worktree"; "prune"])
            ∧ rmtree w worktree_path = Return tt)).
Proof.
  intros worktree_path remove. unfold remove_existing_worktree.
  fold worktree_path. fold remove.
  destruct (path_exists w worktree_path); [|by intros ?%elem_of_nil].
  intros Hin Hrem. split; [done|].
  destruct (open_repo w worktree_path) as [[]|e1] eqn:Hopen;
    [destruct (is_dirty w worktree_path) as [[|]|e2] eqn:Hdirty|].
  - exfalso. revert Hin. io_simpl. rewrite uncommitted_changes_caught. io_simpl.
    intros ->%list_elem_of_singleton. done.
  - split; [by intros [_ [=]]|]. revert Hin. io_simpl.
    destruct (git w remove) as [[]|[]] eqn:Hgit; io_simpl;
      try destruct (rmtree w worktree_path) as [[]|?] eqn:Hrm; io_simpl;
      try destruct (git w ["worktree"; "prune"]) as [[]|?]; io_simpl;
      rewrite ?elem_of_cons, ?elem_of_nil; intros Hin;
      destruct_or!; simplify_eq; try done; eauto 10.
  - split; [by intros [_ [=]]|]. revert Hin. io_simpl.
    destruct (str_in "uncommitted changes" (str_of_exception e2)); io_simpl.
    { intros ->%list_elem_of_singleton. done. }
    destruct (git w remove) as [[]|[]] eqn:Hgit; io_simpl;
      try destruct (rmtree w worktree_path) as [[]|?] eqn:Hrm; io_simpl;
      try destruct (git w ["worktree"; "prune"]) as [[]|?]; io_simpl;
      rewrite ?elem_of_cons, ?elem_of_nil; intros Hin;
      destruct_or!; simplify_eq; try done; eauto 10.
  - split; [by intros [[=] _]|]. revert Hin. io_simpl.
    destruct (str_in "uncommitted changes" (str_of_exception e1)); io_simpl.
    { intros ->%list_elem_of_singleton. done. }
    destruct (git w remove) as [[]|[]] eqn:Hgit; io_simpl;
      try destruct (rmtree w worktree_path) as [[]|?] eqn:Hrm; io_simpl;
      try destruct (git w ["worktree"; "prune"]) as [[]|?]; io_simpl;
      rewrite ?elem_of_cons, ?elem_of_nil; intros Hin;
      destruct_or!; simplify_eq; try done; eauto 10.
Qed.

Lemma removal_event_stage (w : Host) (repo_path : string) (pr_number : Z)
  (ev : event action) :
  ev ∈ (prepare_worktree w repo_path pr_number).2 → is_removal ev = true →
  ∃ c, (resolve_context w repo_path pr_number).1 = Returned c
    ∧ ev ∈ (remove_existing_worktree w c).2.
Proof.
  intros Hin Hrem.
  assert (∀ log : list (event action),
            Forall (λ ev, is_removal ev = false) log → ev ∈ log → False) as Hkeeps.
  { intros log Hall Hev. rewrite Forall_forall in Hall.
    specialize (Hall _ Hev). congruence. }
  apply prepare_worktree_events in Hin as [Hin|(c & Hc & [Hin|[Hin|[Hin|Hin]]])].
  - destruct (Hkeeps _ (resolve_context_keeps w repo_path pr_number) Hin).
  - destruct (Hkeeps _ (seed_review_notes_keeps w c) Hin).
  - by exists c.
  - destruct (Hkeeps _ (fetch_pr_branch_keeps w c) Hin).
  - destruct (Hkeeps _ (add_worktree_keeps w c) Hin).
Qed.

(** X1: whatever the outside answers, a call that takes a working tree
    away (git worktree remove or prune, rmtree) is in the log of
    [prepare_worktree] only when the target path exists and the check of
    the working tree there has not told that it has uncommitted changes. *)
Theorem prepare_worktree_removal_guard (w : Host) (repo_path : string)
  (pr_number : Z) (ev : event action) :
  ev ∈ (prepare_worktree w repo_path pr_number).2 →
  is_removal ev = true →
  ∃ c, (resolve_context w repo_path pr_number).1 = Returned c
    ∧ path_exists w (ctx_worktree_path c) = true
    ∧ ¬ (open_repo w (ctx_worktree_path c) = Return tt
         ∧ is_dirty w (ctx_worktree_path c) = Return true).
Proof.
  intros Hin Hrem.
  destruct (removal_event_stage _ _ _ _ Hin Hrem) as (c & Hc & Hev).
  exists c. split; [done|].
  destruct (remove_existing_worktree_events w c ev Hev Hrem) as (? & ? & _). done.
Qed.

Lemma prepare_worktree_removal_guard_witness :
  ∃ c, (resolve_context (example_host false) "/r" 7).1 = Returned c
    ∧ path_exists (example_host false) (ctx_worktree_path c) = true
    ∧ ¬ (open_repo (example_host false) (ctx_worktree_path c) = Return tt
         ∧ is_dirty (example_host false) (ctx_worktree_path c) = Return true).
Proof.
  apply (prepare_worktree_removal_guard (example_host false) "/r" 7
           (Outside (Git ["worktree"; "remove"; "/r/git-worktrees/feat"; "--force"]))).
  - by apply (list_elem_of_lookup_2 _ 7).
  - reflexivity.
Defined.

(** X2: the recursive delete and the prune are the fall back only: a call
    of [rmtree] in the log is on the target path of the working tree, and
    it, like a [git worktree prune], is there only when
    [git worktree remove --force] on that path has raised a
    [GitCommandError]. *)
Theorem prepare_worktree_rmtree_is_fallback (w : Host) (repo_path : string)
  (pr_number : Z) (ev : event action) :
  ev ∈ (prepare_worktree w repo_path pr_number).2 →
  (ev = Outside (Git ["worktree"; "prune"]) ∨ ∃ path, ev = Outside (Rmtree path)) →
  ∃ c msg,
    (resolve_context w repo_path pr_number).1 = Returned c
    ∧ git w ["worktree"; "remove"; ctx_worktree_path c; "--force"]
      = Raise (GitCommandError msg)
    ∧ (ev = Outside (Git ["worktree"; "prune"])
       ∨ ev = Outside (Rmtree (ctx_worktree_path c))).
Proof.
  intros Hin Hev.
  assert (is_removal ev = true) as Hrem by (by destruct Hev as [->|[path ->]]).
  destruct (removal_event_stage _ _ _ _ Hin Hrem) as (c & Hc & Hstage).
  destruct (remove_existing_worktree_events w c ev Hstage Hrem)
    as (_ & _ & [->|[[msg Hmsg] Hcase]]).
  - by destruct Hev as [[=]|[path [=]]].
  - exists c, msg. split_and!; [done..|]. destruct Hcase as [->|[-> _]]; eauto.
Qed.

Lemma prepare_worktree_rmtree_is_fallback_witness :
  ∃ c msg,
    (resolve_context broken_worktree_host "/r" 7).1 = Returned c
    ∧ git broken_worktree_host ["worktree"; "remove"; ctx_worktree_path c; "--force"]
      = Raise (GitCommandError msg)
    ∧ (Outside (Rmtree "/r/git-worktrees/feat") = Outside (Git ["worktree"; "prune"])
       ∨ Outside (Rmtree "/r/git-worktrees/feat")
         = Outside (Rmtree (ctx_worktree_path c))).
Proof.
  apply (prepare_worktree_rmtree_is_fallback broken_worktree_host "/r" 7
           (Outside (Rmtree "/r/git-worktrees/feat"))).
  - by apply (list_elem_of_lookup_2 _ 9).
  - right. by eexists.
Defined.

(** *** Files written *)

(** X3: [prepare_worktree] writes no file that is there already: every
    [write_text] in its log is on a path that did not exist when the script
    looked (the README of the review notes, seeded once). *)
Theorem prepare_worktree_writes_no_existing_file (w : Host) (repo_path : string)
  (pr_number : Z) :
  Forall (λ ev, ∀ path text, ev = Outside (WriteText path text) →
                path_exists w path = false
                ∧ ∃ notes, path = joinpath notes "README.md")
    (prepare_worktree w repo_path pr_number).2.
Proof.
  unfold prepare_worktree, resolve_context, get_pr_info, get_repo_info,
    remove_existing_worktree, fetch_pr_branch, add_worktree.
  repeat first [ apply log_bind | apply log_try_except | apply log_ret
               | apply log_raise | apply log_lift
               | apply log_call; by intros ?? [=]
               | apply log_print; by intros ?? [=]
               | apply log_subprocess_run; by intros ?? [=]
               | progress intros
               | match goal with
                 | |- Forall _ (seed_review_notes _ _).2 => idtac
                 | _ => case_match
                 end ].
  match goal with |- Forall _ (seed_review_notes _ ?c).2 => rename c into ctx end.
  unfold seed_review_notes.
  destruct (path_exists w (joinpath (ctx_review_notes_path ctx) "README.md")) eqn:Hex;
    cbn [negb]; [constructor|].
  apply log_bind; [apply log_subprocess_run; by intros ?? [=]|]. intros date.
  apply log_bind; [|intros; apply log_print; by intros ?? [=]].
  apply log_call. intros path text [= <- _]. split; [done|]. by eexists.
Qed.

(** *** Failures before anything is done *)



(** X5: when [gh pr view] exits with a status that is not 0 (in a
    repository that opens), [prepare_worktree] raises a [ValueError] with
    what [gh] wrote to its standard error, and has done nothing but run
    that command: nothing is created and [gh repo view] is not run. *)
Theorem prepare_worktree_gh_pr_view_fails (w : Host) (repo_path : string)
  (pr_number returncode : Z) (stdout stderr : string) :
  let path := resolve w repo_path in
  let argv := ["gh"; "pr"; "view"; str_of_int pr_number; "--json";
               "headRefName,headRefOid"] in
  path_exists w path = true →
  open_repo w path = Return tt →
  run w argv (Some path) = Exited returncode stdout stderr →
  returncode ≠ 0%Z →
  prepare_worktree w repo_path pr_number
  = (Raised (ValueError ("Failed to get PR information: " +:+ stderr)),
     [Spawn argv (Some path)]).
Proof.
  intros path argv Hex Hopen Hrun Hcode.
  unfold prepare_worktree, resolve_context. fold path. rewrite Hex, Hopen.
  cbn [negb]. unfold get_pr_info, subprocess_run, completed_stdout. fold argv.
  rewrite Hrun. apply Z.eqb_neq in Hcode. rewrite Hcode. reflexivity.
Qed.

Lemma prepare_worktree_gh_pr_view_fails_witness :
  prepare_worktree no_gh_host "/r" 7
  = (Raised (ValueError ("Failed to get PR information: " +:+ "no pull requests found")),
     [Spawn ["gh"; "pr"; "view"; str_of_int 7; "--json"; "headRefName,headRefOid"]
        (Some "/r")]).
Proof.
  apply (prepare_worktree_gh_pr_view_fails no_gh_host "/r" 7 1 "" "no pull requests found");
    done.
Defined.

(** *** After the set up *)

Lemma prepare_worktree_after_setup (w : Host) (repo_path : string) (pr_number : Z)
  (c : WorktreeContext) (log0 log1 : list (event action)) :
  resolve_context w repo_path pr_number = (Returned c, log0) →
  seed_review_notes w c = (Returned tt, log1) →
  prepare_worktree w repo_path pr_number
  = ((_ ← remove_existing_worktree w c; _ ← fetch_pr_branch w c; add_worktree w c).1,
     log0 ++ log1 ++ (_ ← remove_existing_worktree w c; _ ← fetch_pr_branch w c;
                      add_worktree w c).2).
Proof.
  intros Hctx Hseed. unfold prepare_worktree.
  by rewrite Hctx, bind_return, Hseed, bind_return.
Qed.

(** X6: when the check of the working tree that is there raises (it does
    not open as a repository, or [is_dirty] fails), [prepare_worktree]
    looks for "uncommitted changes" in the text of the exception: with that
    text in it, the exception is raised again and nothing is removed;
    without, the script warns on standard error and goes on to remove the
    working tree, unchecked. *)
Theorem prepare_worktree_check_raises (w : Host) (repo_path : string)
  (pr_number : Z) (c : WorktreeContext) (log0 log1 : list (event action))
  (e : exception) :
  let worktree_path := ctx_worktree_path c in
  let found :=
    log0 ++ log1 ++ [Stderr ("Worktree already exists at: " +:+ worktree_path)] in
  resolve_context w repo_path pr_number = (Returned c, log0) →
  seed_review_notes w c = (Returned tt, log1) →
  path_exists w worktree_path = true →
  open_repo w worktree_path = Raise e
  ∨ (open_repo w worktree_path = Return tt ∧ is_dirty w worktree_path = Raise e) →
  if str_in "uncommitted changes" (str_of_exception e) then
    prepare_worktree w repo_path pr_number = (Raised e, found)
  else
    ∃ rest,
      (prepare_worktree w repo_path pr_number).2
      = found
        ++ [Stderr ("Warning: Could not check if worktree is dirty: "
                      +:+ str_of_exception e);
            Stderr "Removing and recreating...";
            Outside (Git ["worktree"; "remove"; worktree_path; "--force"])]
        ++ rest.
Proof.
  intros worktree_path found Hctx Hseed Hex Hcheck.
  rewrite (prepare_worktree_after_setup _ _ _ _ _ _ Hctx Hseed).
  assert (try_except
            (_ ← lift (open_repo w worktree_path);
             dirty ← lift (is_dirty w worktree_path);
             if dirty : bool
             then raise (ValueError (uncommitted_changes_message worktree_path))
             else mret tt)
            (λ e, if str_in "uncommitted changes" (str_of_exception e)
                  then raise e
                  else print_stderr (X := action)
                         ("Warning: Could not check if worktree is dirty: "
                            +:+ str_of_exception e))
          = if str_in "uncommitted changes" (str_of_exception e)
            then (Raised e, [])
            else (Returned tt,
                  [Stderr ("Warning: Could not check if worktree is dirty: "
                             +:+ str_of_exception e)])) as Hcheck'.
  { destruct Hcheck as [->|[-> ->]]; io_simpl;
      by destruct (str_in "uncommitted changes" (str_of_exception e)). }
  unfold remove_existing_worktree. fold worktree_path. rewrite Hex, Hcheck'.
  destruct (str_in "uncommitted changes" (str_of_exception e)).
  - subst found. by io_simpl.
  - rewrite !bind_snd. cbn [fst snd print_stderr emit app].
    rewrite try_except_snd. cbn [fst snd call app]. subst found.
    eexists. rewrite <- !(assoc_L (++)). cbn [app]. reflexivity.
Qed.

Lemma prepare_worktree_check_raises_witness :
  ∃ rest,
    (prepare_worktree broken_worktree_host "/r" 7).2
    = ([Spawn ["gh"; "pr"; "view"; "7"; "--json"; "headRefName,headRefOid"] (Some "/r");
        Spawn ["gh"; "repo"; "view"; "--json"; "owner,name"] (Some "/r");
        Outside (Mkdir "/r/git-worktrees"); Outside (Mkdir "/r/review-notes");
        Outside (Mkdir "/r/review-notes/feat")]
       ++ [] ++ [Stderr "Worktree already exists at: /r/git-worktrees/feat"])
      ++ [Stderr "Warning: Could not check if worktree is dirty: /r/git-worktrees/feat";
          Stderr "Removing and recreating...";
          Outside (Git ["worktree"; "remove"; "/r/git-worktrees/feat"; "--force"])]
      ++ rest.
Proof.
  exact (prepare_worktree_check_raises broken_worktree_host "/r" 7
           {| ctx_repo_path := "/r"; ctx_pr_number := 7; ctx_branch_name := "feat";
              ctx_head_sha := "0123456789abcdef"; ctx_remote_name := "origin";
              ctx_worktree_path := "/r/git-worktrees/feat";
              ctx_review_notes_path := "/r/review-notes/feat" |}
           _ [] (OtherException "/r/git-worktrees/feat")
           eq_refl eq_refl eq_refl (or_introl eq_refl)).
Defined.

(** *** The fetch *)

(** X7: in the fetch of the pull request, a [GitCommandError] of
    [git branch -D] is passed over and the fetch is still made; the part
    returns exactly when the deletion returned or raised a
    [GitCommandError] and [git fetch] returned.  It raises exactly when
    the deletion raises something else than a [GitCommandError], or the
    deletion is passed and the fetch raises; what it raises is a
    [ValueError] made of that exception: "Failed to fetch PR: " with the
    standard error of the command for a [CalledProcessError], and "Failed
    to create branch: " with the text of the exception for any other. *)
Theorem fetch_pr_branch_failures (w : Host) (c : WorktreeContext) :
  let delete := ["branch"; "-D"; ctx_branch_name c] in
  let fetch :=
    ["fetch"; ctx_remote_name c;
     "pull/" +:+ str_of_int (ctx_pr_number c) +:+ "/head:" +:+ ctx_branch_name c] in
  let passed := git w delete = Return tt ∨ ∃ msg, git w delete = Raise (GitCommandError msg) in
  (passed → Outside (Git fetch) ∈ (fetch_pr_branch w c).2)
  ∧ ((fetch_pr_branch w c).1 = Returned tt ↔ passed ∧ git w fetch = Return tt)
  ∧ (∀ e, (fetch_pr_branch w c).1 = Raised e ↔
       ∃ cause,
         ((git w delete = Raise cause ∧ ∀ msg, cause ≠ GitCommandError msg)
          ∨ (passed ∧ git w fetch = Raise cause))
         ∧ ((∃ msg stderr,
               cause = CalledProcessError msg stderr
               ∧ e = ValueError ("Failed to fetch PR: " +:+ stderr))
            ∨ ((∀ msg stderr, cause ≠ CalledProcessError msg stderr)
               ∧ e = ValueError ("Failed to create branch: " +:+ str_of_exception cause))))
  ∧ (fetch_pr_branch w c).1 ≠ OutOfFuel.
Proof.
  intros delete fetch passed. subst passed. unfold fetch_pr_branch.
  fold delete. fold fetch.
  assert (∀ cause e,
            ((∃ msg stderr, cause = CalledProcessError msg stderr
                ∧ e = ValueError ("Failed to fetch PR: " +:+ stderr))
             ∨ ((∀ msg stderr, cause ≠ CalledProcessError msg stderr)
                ∧ e = ValueError ("Failed to create branch: " +:+ str_of_exception cause)))
            ↔ e = match cause with
                  | CalledProcessError _ stderr => ValueError ("Failed to fetch PR: " +:+ stderr)
                  | _ => ValueError ("Failed to create branch: " +:+ str_of_exception cause)
                  end) as Hwrap.
  { intros cause e. split.
    - intros [(msg & stderr & -> & ->)|[Hne ->]]; [done|].
      destruct cause; try done. by destruct (Hne msg stderr).
    - intros ->. destruct cause; try (right; split; [done|reflexivity]).
      left. by eexists _, _. }
  setoid_rewrite Hwrap. clear Hwrap.
  destruct (git w delete) as [[]|e1] eqn:Hdelete;
    [|destruct e1 as [m|m|m s|m|m|m|m]];
    (destruct (git w fetch) as [[]|e2] eqn:Hfetch;
       [|destruct e2 as [m2|m2|m2 s2|m2|m2|m2|m2]]);
    io_simpl; split_and!;
    try (intros [[=]|[? [=]]]; done);
    try (intros _; set_solver);
    try (split; [done|]; intros [[[=]|[? [=]]] ?]; done);
    try (split; [intros _|done]; split; eauto; done);
    try (split; [done|]; intros [_ [=]]; done);
    try done;
    intros e; (split;
      [ first
          [ by intros [=]
          | intros [= <-]; eexists; split;
              [ first [ left; split; [reflexivity|congruence]
                      | right; split; [eauto|reflexivity] ]
              | reflexivity ] ]
      | intros (cause & [[Hc Hng]|[Hp Hc]] & ->); simplify_eq; try done;
        try (by destruct (Hng m));
        try (by destruct Hp as [?|[? ?]]) ]).
Qed.

(** *** When it returns *)






(** *** Lookups come first *)

Lemma get_pr_info_log (w : Host) (repo_path : string) (pr_number : Z) :
  (get_pr_info w repo_path pr_number).2
  = [Spawn ["gh"; "pr"; "view"; str_of_int pr_number; "--json"; "headRefName,headRefOid"]
       (Some repo_path)].
Proof.
  unfold get_pr_info. rewrite try_except_snd, bind_snd, bind_fst. unfold subprocess_run.
  cbn [fst snd].
  destruct (completed_stdout _ _ _) as [stdout|e]; cbn [outcome_of app].
  - unfold lift. cbn [fst snd]. destruct (pr_info_of_json w stdout) as [|e]; [done|].
    by destruct e.
  - by destruct e.
Qed.

Lemma get_repo_info_log (w : Host) (repo_path : string) :
  (get_repo_info w repo_path).2
  = [Spawn ["gh"; "repo"; "view"; "--json"; "owner,name"] (Some repo_path)].
Proof.
  unfold get_repo_info. rewrite try_except_snd, bind_snd, bind_fst. unfold subprocess_run.
  cbn [fst snd].
  destruct (completed_stdout _ _ _) as [stdout|e]; cbn [outcome_of app].
  - unfold lift. cbn [fst snd]. destruct (repo_info_of_json w stdout) as [|e]; [done|].
    by destruct e.
  - by destruct e.
Qed.

Ltac no_action H :=
  destruct H as [H|[? H]]; [|done];
  repeat (apply elem_of_cons in H as [H|H]; [done|]); by apply elem_of_nil in H.

(** Before the first call on the file system or on git, and before it
    returns, [resolve_context] has found the repository, the pull request
    and the remote. *)
Lemma resolve_context_lookups (w : Host) (repo_path : string) (pr_number : Z)
  (a : action) :
  let path := resolve w repo_path in
  Outside a ∈ (resolve_context w repo_path pr_number).2
  ∨ (∃ c, (resolve_context w repo_path pr_number).1 = Returned c) →
  path_exists w path = true
  ∧ open_repo w path = Return tt
  ∧ ∃ pr_info repo_info remote_name,
      (get_pr_info w path pr_number).1 = Returned pr_info
      ∧ (get_repo_info w path).1 = Returned repo_info
      ∧ find_remote_for_repo (remotes w path) repo_info.1 repo_info.2
        = Return remote_name.
Proof.
  intros path H. unfold resolve_context in H. fold path in H.
  destruct (path_exists w path) eqn:Hex; cbn [negb] in H; [|no_action H].
  destruct (open_repo w path) as [[]|e0] eqn:Hopen; [|no_action H].
  unfold lift at 1 2, outcome_of, try_except at 1 2 in H. rewrite !bind_return in H.
  pose proof (get_pr_info_log w path pr_number) as Hl1.
  destruct (get_pr_info w path pr_number) as [[pr_info|e|] l1]; simpl in Hl1; subst l1;
    [|no_action H..].
  rewrite !bind_return in H.
  pose proof (get_repo_info_log w path) as Hl2.
  destruct (get_repo_info w path) as [[repo_info|e|] l2]; simpl in Hl2; subst l2;
    [|no_action H..].
  rewrite !bind_return in H.
  destruct (find_remote_for_repo (remotes w path) repo_info.1 repo_info.2)
    as [remote_name|e] eqn:Hremote; [|no_action H].
  split_and!; try done. by exists pr_info, repo_info, remote_name.
Qed.

(** X9: [prepare_worktree] looks everything up before it changes
    anything: when its log has a call on the file system or on git (a
    directory made, a file written, a git command, a tree removed), the
    repository path exists and opens as a repository, [gh] has given the
    pull request and the repository, and a remote of the repository
    matches.  When one of these lookups fails, nothing has been made or
    removed. *)
Theorem prepare_worktree_looks_up_first (w : Host) (repo_path : string)
  (pr_number : Z) (a : action) :
  let path := resolve w repo_path in
  Outside a ∈ (prepare_worktree w repo_path pr_number).2 →
  path_exists w path = true
  ∧ open_repo w path = Return tt
  ∧ ∃ pr_info repo_info remote_name,
      (get_pr_info w path pr_number).1 = Returned pr_info
      ∧ (get_repo_info w path).1 = Returned repo_info
      ∧ find_remote_for_repo (remotes w path) repo_info.1 repo_info.2
        = Return remote_name.
Proof.
  intros path [Hin|(c & Hc & _)]%prepare_worktree_events;
    apply (resolve_context_lookups w repo_path pr_number a); [by left|right; by exists c].
Qed.

Lemma prepare_worktree_looks_up_first_witness :
  path_exists fresh_host (resolve fresh_host "/r") = true
  ∧ open_repo fresh_host (resolve fresh_host "/r") = Return tt
  ∧ ∃ pr_info repo_info remote_name,
      (get_pr_info fresh_host (resolve fresh_host "/r") 7).1 = Returned pr_info
      ∧ (get_repo_info fresh_host (resolve fresh_host "/r")).1 = Returned repo_info
      ∧ find_remote_for_repo (remotes fresh_host (resolve fresh_host "/r"))
          repo_info.1 repo_info.2
        = Return remote_name.
Proof.
  apply (prepare_worktree_looks_up_first fresh_host "/r" 7 (Mkdir "/r/git-worktrees")).
  by apply (list_elem_of_lookup_2 _ 2).
Defined.

(** *** The command line *)

(** X10: [main] of prepare-worktree.py ends with status 0 exactly when it
    has two arguments, the number converts and [prepare_worktree] returns,
    and then prints the path, alone, to standard output.  Otherwise it
    prints nothing to standard output: with another number of arguments it
    prints the usage line and ends with status 1 without calling anything;
    an exception of [prepare_worktree] never escapes, it is printed as
    "Error: ..." after what the run had logged, with status 1.  Only the
    conversion of the number, made before the [try], can raise out of
    [main]. *)
Theorem prepare_worktree_main_contract (int : string → result Z) (w : Host)
  (argv : list string) :
  match prepare_worktree_main int w argv with
  | (Returned (status, out), log) =>
      (status = 0%Z
       ∧ ∃ prog repo_path number pr_number path,
           argv = [prog; repo_path; number]
           ∧ int number = Return pr_number
           ∧ prepare_worktree w repo_path pr_number = (Returned path, log)
           ∧ out = [path])
      ∨ (status = 1%Z ∧ out = []
         ∧ (length argv ≠ 3 ∧ log = [Stderr prepare_worktree_usage]
            ∨ ∃ prog repo_path number pr_number e pre,
                argv = [prog; repo_path; number]
                ∧ int number = Return pr_number
                ∧ prepare_worktree w repo_path pr_number = (Raised e, pre)
                ∧ log = pre ++ [Stderr ("Error: " +:+ str_of_exception e)]))
  | (Raised e, log) =>
      log = []
      ∧ ∃ prog repo_path number,
          argv = [prog; repo_path; number] ∧ int number = Raise e
  | (OutOfFuel, _) => False
  end.
Proof.
  unfold prepare_worktree_main.
  destruct argv as [|prog [|repo_path [|number [|extra argv]]]];
    try (io_simpl; right; split_and!; try done; left; by split).
  destruct (int number) as [pr_number|e] eqn:Hint; [|io_simpl; split; eauto].
  unfold lift, outcome_of. rewrite bind_return. cbn [fst snd app].
  destruct (prepare_worktree_ends w repo_path pr_number) as [[path Hp]|[e He]];
    destruct (prepare_worktree w repo_path pr_number) as [r pre] eqn:Hrun;
    simpl in *; subst r; io_simpl.
  - left. split; [done|]. exists prog, repo_path, number, pr_number, path.
    by rewrite app_nil_r.
  - right. split_and!; try done. right.
    by exists prog, repo_path, number, pr_number, e, pre.
Qed.

End PrepareWorktreeMore.

(** ** More on summarize-pr.py *)

Module SummarizePrMore.

Import SummarizePr PyFacts SortFacts IOFacts IOMore SummarizePrFacts.

(** *** The token *)

Lemma gh_auth_token_log (w : Services) :
  (gh_auth_token w).2 = [Spawn ["gh"; "auth"; "token"] None].
Proof.
  unfold gh_auth_token. rewrite try_except_snd. unfold subprocess_run.
  rewrite bind_snd. cbn [fst snd].
  destruct (completed_stdout _ _ _) as [stdout|e]; [done|].
  cbn [outcome_of app]. by destruct e.
Qed.

(** X11: [get_github_token] starts a process exactly when neither
    [GITHUB_TOKEN] nor [GH_TOKEN] is set to a text that is not empty, and
    then one process only, [gh auth token], in the current directory; it
    sends nothing else out and prints nothing. *)
Theorem get_github_token_log (w : Services) :
  (get_github_token w).2 =
  if get_bool (environ w !! "GITHUB_TOKEN") || get_bool (environ w !! "GH_TOKEN")
  then []
  else [Spawn ["gh"; "auth"; "token"] None].
Proof.
  unfold get_github_token, py_or.
  destruct (environ w !! "GITHUB_TOKEN") as [t1|] eqn:H1; cbn [get_bool].
  - destruct (str_bool t1) eqn:Ht1; cbn [orb].
    + by rewrite Ht1.
    + destruct (environ w !! "GH_TOKEN") as [t2|]; cbn [get_bool].
      * destruct (str_bool t2); [done|apply gh_auth_token_log].
      * apply gh_auth_token_log.
  - cbn [orb]. destruct (environ w !! "GH_TOKEN") as [t2|]; cbn [get_bool].
    + destruct (str_bool t2); [done|apply gh_auth_token_log].
    + apply gh_auth_token_log.
Qed.

(** *** The loops *)

Lemma paginate_files_with (fuel : nat) (w : Services) (token : string)
  (variables : Variables) (all : list File) (page_info : PageInfo) :
  paginate_files fuel w token variables all page_info
  = paginate_with next_files files fuel w token variables all page_info.
Proof.
  revert variables all page_info.
  induction fuel as [|fuel IH]; intros variables all page_info;
    cbn [paginate_files paginate_with]; [done|].
  destruct (hasNextPage page_info); [|done].
  apply bind_ext. intros result. apply IH.
Qed.

Lemma paginate_general_comments_with (fuel : nat) (w : Services) (token : string)
  (variables : Variables) (all : list Comment) (page_info : PageInfo) :
  paginate_general_comments fuel w token variables all page_info
  = paginate_with next_comments comments fuel w token variables all page_info.
Proof.
  revert variables all page_info.
  induction fuel as [|fuel IH]; intros variables all page_info;
    cbn [paginate_general_comments paginate_with]; [done|].
  destruct (hasNextPage page_info); [|done].
  apply bind_ext. intros result. apply IH.
Qed.

Lemma paginate_reviews_with (fuel : nat) (w : Services) (token : string)
  (variables : Variables) (all : list Review) (page_info : PageInfo) :
  paginate_reviews fuel w token variables all page_info
  = paginate_with next_reviews reviews fuel w token variables all page_info.
Proof.
  revert variables all page_info.
  induction fuel as [|fuel IH]; intros variables all page_info;
    cbn [paginate_reviews paginate_with]; [done|].
  destruct (hasNextPage page_info); [|done].
  apply bind_ext. intros result. apply IH.
Qed.

Lemma paginate_threads_with (fuel : nat) (w : Services) (token : string)
  (variables : Variables) (all : list ReviewThread) (page_info : PageInfo) :
  paginate_threads fuel w token variables all page_info
  = paginate_with next_threads reviewThreads fuel w token variables all page_info.
Proof.
  revert variables all page_info.
  induction fuel as [|fuel IH]; intros variables all page_info;
    cbn [paginate_threads paginate_with]; [done|].
  destruct (hasNextPage page_info); [|done].
  apply bind_ext. intros result. apply IH.
Qed.

(** [get_pr_data] with its loops put in their common shape. *)
Lemma get_pr_data_with (fuel : nat) (w : Services) (owner repo : string) (pr_number : Z) :
  get_pr_data fuel w owner repo pr_number =
  (token ← get_github_token w;
   let variables :=
     {| v_owner := owner; v_repo := repo; v_number := pr_number;
        filesCursor := None; threadsCursor := None;
        commentsCursor := None; reviewsCursor := None |} in
   pr_data ← client_execute w token variables;
   r ← paginate_with next_files files fuel w token variables
         (nodes (files pr_data)) (pageInfo (files pr_data));
   let pr_data := set_files pr_data r.2 in
   s ← paginate_with next_comments comments fuel w token r.1
         (nodes (comments pr_data)) (pageInfo (comments pr_data));
   let pr_data := set_comments pr_data s.2 in
   t ← paginate_with next_reviews reviews fuel w token s.1
         (nodes (reviews pr_data)) (pageInfo (reviews pr_data));
   let pr_data := set_reviews pr_data t.2 in
   u ← paginate_with next_threads reviewThreads fuel w token t.1
         (nodes (reviewThreads pr_data)) (pageInfo (reviewThreads pr_data));
   mret (set_reviewThreads pr_data u.2)).
Proof.
  unfold get_pr_data.
  apply bind_ext; intros token. apply bind_ext; intros pr_data.
  rewrite paginate_files_with. apply bind_ext; intros r.
  rewrite paginate_general_comments_with. apply bind_ext; intros s.
  rewrite paginate_reviews_with. apply bind_ext; intros t.
  rewrite paginate_threads_with. done.
Qed.

Section loop.
Context {A : Type} (next : option string → Variables → Variables).
Context (page : PullRequest → Connection A).
Context (w : Services) (token : string).

Lemma client_execute_log (variables : Variables) :
  (client_execute w token variables).2 = [Outside (Execute variables)].
Proof. done. Qed.

Lemma client_execute_returned (variables : Variables) (pr : PullRequest)
  (log : list (event query)) :
  client_execute w token variables = (Returned pr, log) →
  execute w token variables = Return pr ∧ log = [Outside (Execute variables)].
Proof.
  unfold client_execute, call. destruct (execute w token variables); [|done].
  by intros [= -> <-].
Qed.


(** What the loop sends are queries, each with the variables [next] has
    made; an invariant of the variables that [next] keeps holds of the
    variables the loop leaves. *)
Lemma paginate_with_requests (I P : Variables → Prop) :
  (∀ cursor variables, I variables → I (next cursor variables) ∧ P (next cursor variables)) →
  ∀ fuel variables all page_info,
    I variables →
    Forall (λ ev, ∃ v, ev = Outside (Execute v) ∧ P v)
      (paginate_with next page fuel w token variables all page_info).2
    ∧ ∀ r log, paginate_with next page fuel w token variables all page_info
               = (Returned r, log) → I r.1.
Proof.
  intros Hnext. induction fuel as [|fuel IH]; intros variables all page_info Hvar;
    cbn [paginate_with]; destruct (hasNextPage page_info).
  - split; [constructor|done].
  - split; [constructor|]. by intros r log [= <- _].
  - destruct (Hnext (endCursor page_info) variables Hvar) as [HI HP].
    split.
    + apply log_bind.
      * rewrite client_execute_log. repeat constructor. by eexists.
      * intros result. by apply IH.
    + intros r log (result & l1 & l2 & _ & Hrest & _)%bind_returned_inv.
      by eapply IH.
  - split; [constructor|]. by intros r log [= <- _].
Qed.

Lemma paginate_with_leaves (I P : Variables → Prop) (fuel : nat) (variables : Variables)
  (all : list A) (page_info : PageInfo) (r : Variables * list A)
  (log : list (event query)) :
  (∀ cursor variables, I variables → I (next cursor variables) ∧ P (next cursor variables)) →
  I variables →
  paginate_with next page fuel w token variables all page_info = (Returned r, log) →
  I r.1.
Proof.
  intros Hnext Hvar Hrun.
  by eapply (proj2 (paginate_with_requests I P Hnext fuel variables all page_info Hvar)).
Qed.

Lemma paginate_with_log (I P : Variables → Prop) (fuel : nat) (variables : Variables)
  (all : list A) (page_info : PageInfo) :
  (∀ cursor variables, I variables → I (next cursor variables) ∧ P (next cursor variables)) →
  I variables →
  Forall (λ ev, ∃ v, ev = Outside (Execute v) ∧ P v)
    (paginate_with next page fuel w token variables all page_info).2.
Proof.
  intros Hnext Hvar.
  exact (proj1 (paginate_with_requests I P Hnext fuel variables all page_info Hvar)).
Qed.

(** The loop adds to the nodes it was given and leaves them in front. *)
Lemma paginate_with_extends (fuel : nat) (variables : Variables) (all : list A)
  (page_info : PageInfo) (r : Variables * list A) (log : list (event query)) :
  paginate_with next page fuel w token variables all page_info = (Returned r, log) →
  all `prefix_of` r.2.
Proof.
  revert variables all page_info log.
  induction fuel as [|fuel IH]; intros variables all page_info log;
    cbn [paginate_with]; destruct (hasNextPage page_info); try done.
  - by intros [= <- _].
  - intros (result & l1 & l2 & _ & Hrest & _)%bind_returned_inv.
    apply IH in Hrest. etrans; [|exact Hrest]. by apply prefix_app_r.
  - by intros [= <- _].
Qed.


(** As long as every answer reports a next page, the loop goes on: it
    sends one query for each unit of fuel. *)
Lemma paginate_with_endless (fuel : nat) (variables : Variables) (all : list A)
  (page_info : PageInfo) :
  (∀ v, ∃ pr, execute w token v = Return pr ∧ hasNextPage (pageInfo (page pr)) = true) →
  hasNextPage page_info = true →
  ∃ log, paginate_with next page fuel w token variables all page_info = (OutOfFuel, log)
    ∧ length (omap is_query log) = fuel.
Proof.
  intros Hmore. revert variables all page_info.
  induction fuel as [|fuel IH]; intros variables all page_info Hnext;
    cbn [paginate_with]; rewrite Hnext.
  - by exists [].
  - destruct (Hmore (next (endCursor page_info) variables)) as (pr & Hpr & Hpage).
    unfold client_execute, call. rewrite Hpr. cbn [outcome_of]. rewrite bind_return.
    destruct (IH (next (endCursor page_info) variables) (all ++ nodes (page pr))
                (pageInfo (page pr)) Hpage) as (log & -> & Hlen).
    eexists. split; [done|]. cbn [fst snd app]. by rewrite <- Hlen.
Qed.

End loop.

(** *** The fetch *)

Lemma get_github_token_sends_no_query (w : Services) :
  omap is_query (get_github_token w).2 = [].
Proof.
  unfold get_github_token.
  destruct (py_or _ _) as [token|]; [destruct (str_bool token)|];
    first [by rewrite gh_auth_token_log|done].
Qed.

(** X12: without a token nothing is fetched: when [get_github_token]
    raises, [get_pr_data] raises the same exception and has sent no query
    to the endpoint. *)
Theorem get_pr_data_needs_token (fuel : nat) (w : Services) (owner repo : string)
  (pr_number : Z) (e : exception) (log : list (event query)) :
  get_github_token w = (Raised e, log) →
  get_pr_data fuel w owner repo pr_number = (Raised e, log)
  ∧ omap is_query log = [].
Proof.
  intros Htoken. unfold get_pr_data. rewrite Htoken. split; [done|].
  pose proof (get_github_token_sends_no_query w) as Hlog. by rewrite Htoken in Hlog.
Qed.

Lemma get_pr_data_needs_token_witness :
  get_pr_data 3 no_token_services "bob" "repo" 7
  = (Raised (ValueError no_token_message), [Spawn ["gh"; "auth"; "token"] None])
  ∧ omap is_query [Spawn (X := query) ["gh"; "auth"; "token"] None] = [].
Proof.
  apply (get_pr_data_needs_token 3 no_token_services "bob" "repo" 7). reflexivity.
Defined.

(** X13: every query [get_pr_data] sends is for the pull request it was
    asked for (owner, repository and number as given), and carries at most
    one cursor: when a loop asks for the next page of its collection, the
    cursors of the other three collections are unset, so the answer holds
    their first pages again and never a later page of another
    collection. *)
Theorem get_pr_data_requests (fuel : nat) (w : Services) (owner repo : string)
  (pr_number : Z) :
  Forall (λ ev, ∀ v, is_query ev = Some v →
            v_owner v = owner ∧ v_repo v = repo ∧ v_number v = pr_number
            ∧ (cursors_set v ≤ 1)%nat)
    (get_pr_data fuel w owner repo pr_number).2.
Proof.
  set (ident := λ v, v_owner v = owner ∧ v_repo v = repo ∧ v_number v = pr_number).
  set (P := λ v, ident v ∧ (cursors_set v ≤ 1)%nat).
  assert (∀ log, Forall (λ ev, ∃ v, ev = Outside (Execute v) ∧ P v) log →
            Forall (λ ev, ∀ v, is_query ev = Some v →
                      v_owner v = owner ∧ v_repo v = repo ∧ v_number v = pr_number
                      ∧ (cursors_set v ≤ 1)%nat) log) as Hquery.
  { intros log Hlog. eapply Forall_impl; [exact Hlog|].
    intros ev (v & -> & [(? & ? & ?) ?]) v' [= <-]. done. }
  set (I1 := λ v, ident v ∧ threadsCursor v = None ∧ commentsCursor v = None
                  ∧ reviewsCursor v = None).
  set (I2 := λ v, ident v ∧ threadsCursor v = None ∧ reviewsCursor v = None).
  set (I3 := λ v, ident v ∧ threadsCursor v = None).
  assert (∀ c v, I1 v → I1 (next_files c v) ∧ P (next_files c v)) as H1.
  { intros c [] ((? & ? & ?) & ? & ? & ?). simpl in *. subst.
    unfold I1, P, ident, cursors_set. simpl.
    split_and!; try done; destruct c; simpl; lia. }
  assert (∀ c v, I2 v → I2 (next_comments c v) ∧ P (next_comments c v)) as H2.
  { intros c [] ((? & ? & ?) & ? & ?). simpl in *. subst.
    unfold I2, P, ident, cursors_set. simpl.
    split_and!; try done; destruct c; simpl; lia. }
  assert (∀ c v, I3 v → I3 (next_reviews c v) ∧ P (next_reviews c v)) as H3.
  { intros c [] ((? & ? & ?) & ?). simpl in *. subst.
    unfold I3, P, ident, cursors_set. simpl.
    split_and!; try done; destruct c; simpl; lia. }
  assert (∀ c v, ident v → ident (next_threads c v) ∧ P (next_threads c v)) as H4.
  { intros c [] (? & ? & ?). simpl in *. subst.
    unfold  P, ident, cursors_set. simpl.
    split_and!; try done; destruct c; simpl; lia. }
  rewrite get_pr_data_with. apply log_bind.
  { pose proof (get_github_token_sends_no_query w) as Hno.
    induction (get_github_token w).2 as [|ev log IH]; [constructor|].
    simpl in Hno. destruct (is_query ev) eqn:Hev; [done|].
    constructor; [|by apply IH]. intros v. by rewrite Hev. }
  intros token. apply log_bind.
  { rewrite client_execute_log. apply Hquery. repeat constructor.
    eexists. split; [done|]. split; [by split_and!|]. unfold cursors_set. simpl. lia. }
  intros pr0.
  match goal with |- context [paginate_with next_files files fuel w token ?v _ _] =>
    assert (I1 v) as Hv0 by by split_and! end.
  apply log_bind_returned.
  { apply Hquery. by eapply paginate_with_log. }
  intros r log1 Hr.
  eapply (paginate_with_leaves _ _ _ _ I1 P) in Hr; [|exact H1|exact Hv0].
  destruct Hr as (Hid & Ht & _ & Hr).
  assert (I2 r.1) as Hr2 by by split_and!.
  apply log_bind_returned.
  { apply Hquery. by eapply paginate_with_log. }
  intros s log2 Hs.
  eapply (paginate_with_leaves _ _ _ _ I2 P) in Hs; [|exact H2|exact Hr2].
  destruct Hs as (Hid' & Ht' & _).
  assert (I3 s.1) as Hs3 by by split_and!.
  apply log_bind_returned.
  { apply Hquery. by eapply paginate_with_log. }
  intros t log3 Ht3.
  eapply (paginate_with_leaves _ _ _ _ I3 P) in Ht3; [|exact H3|exact Hs3].
  destruct Ht3 as (Hid'' & _).
  apply log_bind.
  { apply Hquery. by eapply paginate_with_log. }
  intros u. constructor.
Qed.

(** X14: what [get_pr_data] returns is the answer to its first query,
    with the nodes of the four collections extended: title, number, URL,
    author, branches, state, the three counts and the body are those of
    the first answer, and so is the [pageInfo] of each collection (it still
    reports a next page where the first page did); the nodes of the first
    page are the front of the nodes returned. *)
Theorem get_pr_data_keeps_first_answer (fuel : nat) (w : Services) (owner repo : string)
  (pr_number : Z) (pr_data : PullRequest) (log : list (event query)) :
  get_pr_data fuel w owner repo pr_number = (Returned pr_data, log) →
  ∃ token first,
    (get_github_token w).1 = Returned token
    ∧ execute w token
        {| v_owner := owner; v_repo := repo; v_number := pr_number;
           filesCursor := None; threadsCursor := None;
           commentsCursor := None; reviewsCursor := None |} = Return first
    ∧ (title pr_data, number pr_data, url pr_data, author pr_data)
      = (title first, number first, url first, author first)
    ∧ (baseRefName pr_data, headRefName pr_data, state pr_data, body pr_data)
      = (baseRefName first, headRefName first, state first, body first)
    ∧ (additions pr_data, deletions pr_data, changedFiles pr_data)
      = (additions first, deletions first, changedFiles first)
    ∧ pageInfo (files pr_data) = pageInfo (files first)
    ∧ pageInfo (comments pr_data) = pageInfo (comments first)
    ∧ pageInfo (reviews pr_data) = pageInfo (reviews first)
    ∧ pageInfo (reviewThreads pr_data) = pageInfo (reviewThreads first)
    ∧ nodes (files first) `prefix_of` nodes (files pr_data)
    ∧ nodes (comments first) `prefix_of` nodes (comments pr_data)
    ∧ nodes (reviews first) `prefix_of` nodes (reviews pr_data)
    ∧ nodes (reviewThreads first) `prefix_of` nodes (reviewThreads pr_data).
Proof.
  rewrite get_pr_data_with. intros Hrun.
  apply bind_returned_inv in Hrun as (token & l0 & la & Htoken & Hrun & ->).
  apply bind_returned_inv in Hrun as (first & l1 & lb & Hfirst & Hrun & ->).
  apply bind_returned_inv in Hrun as (r & l2 & lc & Hfiles & Hrun & ->).
  apply bind_returned_inv in Hrun as (s & l3 & ld & Hcomments & Hrun & ->).
  apply bind_returned_inv in Hrun as (t & l4 & le & Hreviews & Hrun & ->).
  apply bind_returned_inv in Hrun as (u & l5 & lf & Hthreads & Hrun & ->).
  injection Hrun as <- <-.
  apply client_execute_returned in Hfirst as [Hfirst _].
  apply paginate_with_extends in Hfiles, Hcomments, Hreviews, Hthreads.
  exists token, first. rewrite Htoken. by split_and!.
Qed.

Lemma get_pr_data_keeps_first_answer_witness :
  ∃ token first,
    (get_github_token example_services).1 = Returned token
    ∧ execute example_services token
        {| v_owner := "bob"; v_repo := "repo"; v_number := 7;
           filesCursor := None; threadsCursor := None;
           commentsCursor := None; reviewsCursor := None |} = Return first
    ∧ ("Rename", 7%Z, "https://example.org/pr", Some "bob")
      = (title first, number first, url first, author first)
    ∧ ("main", "feat", "OPEN", Some (text_of_ascii "Renames a thing."))
      = (baseRefName first, headRefName first, state first, body first)
    ∧ (11%Z, 2%Z, 2%Z) = (additions first, deletions first, changedFiles first)
    ∧ {| hasNextPage := true; endCursor := Some "f1" |} = pageInfo (files first)
    ∧ pageInfo (last_page (A := Comment) []) = pageInfo (comments first)
    ∧ pageInfo (last_page [example_review]) = pageInfo (reviews first)
    ∧ pageInfo (last_page [example_thread]) = pageInfo (reviewThreads first)
    ∧ nodes (files first)
      `prefix_of` [{| file_path := "src/a.py"; file_additions := 10;
                      file_deletions := 2 |};
                   {| file_path := "src/b.py"; file_additions := 1;
                      file_deletions := 0 |}]
    ∧ nodes (comments first) `prefix_of` []
    ∧ nodes (reviews first) `prefix_of` [example_review]
    ∧ nodes (reviewThreads first) `prefix_of` [example_thread].
Proof.
  eapply (get_pr_data_keeps_first_answer 1 example_services "bob" "repo" 7
            {| title := "Rename"; number := 7; url := "https://example.org/pr";
               author := Some "bob"; baseRefName := "main"; headRefName := "feat";
               state := "OPEN"; additions := 11; deletions := 2; changedFiles := 2;
               body := Some (text_of_ascii "Renames a thing.");
               files := {| pageInfo := {| hasNextPage := true; endCursor := Some "f1" |};
                           nodes := [{| file_path := "src/a.py"; file_additions := 10;
                                        file_deletions := 2 |};
                                     {| file_path := "src/b.py"; file_additions := 1;
                                        file_deletions := 0 |}] |};
               comments := last_page [];
               reviews := last_page [example_review];
               reviewThreads := last_page [example_thread] |}).
  vm_compute. reflexivity.
Defined.



(** X16: the loop over the files has no bound of its own: against an
    endpoint whose every answer reports a next page of files,
    [get_pr_data] does not come to an end, whatever the fuel; it has then
    sent the first query and one more for each unit of fuel. *)
Theorem get_pr_data_endless (fuel : nat) (w : Services) (owner repo : string)
  (pr_number : Z) (token : string) :
  (get_github_token w).1 = Returned token →
  (∀ v, ∃ pr, execute w token v = Return pr
              ∧ hasNextPage (pageInfo (files pr)) = true) →
  ∃ log, get_pr_data fuel w owner repo pr_number = (OutOfFuel, log)
    ∧ length (omap is_query log) = S fuel.
Proof.
  intros Htoken Hmore. rewrite get_pr_data_with.
  pose proof (get_github_token_sends_no_query w) as Hno.
  destruct (get_github_token w) as [o l0]. simpl in Htoken, Hno. subst o.
  rewrite bind_return. cbv zeta.
  match goal with |- context [client_execute w token ?v] =>
    destruct (Hmore v) as (first & Hfirst & Hnext); unfold client_execute, call;
    rewrite Hfirst end.
  cbn [outcome_of]. rewrite bind_return.
  match goal with |- context [paginate_with next_files files fuel w token ?v ?all ?pi] =>
    destruct (paginate_with_endless next_files files w token fuel v all pi Hmore Hnext)
      as (log & Hloop & Hlen) end.
  rewrite Hloop, bind_out_of_fuel. cbn [fst snd]. eexists. split; [done|].
  rewrite !omap_app, Hno, !length_app, Hlen. done.
Qed.

Lemma get_pr_data_endless_witness :
  ∃ log, get_pr_data 5 endless_services "bob" "repo" 7 = (OutOfFuel, log)
    ∧ length (omap is_query log) = 6.
Proof.
  apply (get_pr_data_endless 5 endless_services "bob" "repo" 7 "secret").
  - reflexivity.
  - intros v. by eexists.
Defined.

(** *** Unresolved threads *)

(** X17: [extract_unresolved_threads] raises exactly at the first
    unresolved thread, in the order of the list, that has no comment or
    whose opening comment has no author: an [IndexError] for the former, a
    [TypeError] for the latter.  A resolved thread does no harm, its
    comments are not read. *)
Theorem extract_unresolved_threads_raises (pr_data : PullRequest) (e : exception) :
  extract_unresolved_threads pr_data = Raise e ↔
  ∃ before thread after,
    nodes (reviewThreads pr_data) = before ++ thread :: after
    ∧ Forall (λ t, isResolved t = false → opens_with_author t) before
    ∧ isResolved thread = false
    ∧ (nodes (thread_comments thread) = []
       ∧ e = IndexError "list index out of range"
       ∨ opens_without_author thread
         ∧ e = TypeError "'NoneType' object is not subscriptable").
Proof.
  unfold extract_unresolved_threads. split.
  - intros He.
    pose proof (extract_loop_views (nodes (reviewThreads pr_data)) []) as Hloop.
    by rewrite He in Hloop.
  - intros (before & thread & after & -> & Hbefore & Hun & Hcause).
    by apply extract_loop_raises.
Qed.

(** *** The document *)

(** X18: in the discussion, items with the same timestamp stand in the
    order in which they were gathered: the general comments first, in the
    order of the API, then the reviews with a body, in the order of the
    API.  (Where the timeline is not made, a [TypeError] has been
    raised.) *)
Theorem timeline_ties_keep_order (first_clash : list (option string) → clash)
  (pr_data : PullRequest) :
  match all_timeline_items first_clash pr_data with
  | Return items =>
      ∃ gathered,
        Forall2 item_of
          ((OfComment <$> nodes (comments pr_data))
           ++ (OfReview <$> filter (λ review, get_text_bool (review_body review) = true)
                              (nodes (reviews pr_data))))
          gathered
        ∧ ∀ stamp,
            filter (λ item, timestamp item = stamp) items
            = filter (λ item, timestamp item = stamp) gathered
  | Raise e => ∃ msg, e = TypeError msg
  end.
Proof.
  destruct (all_timeline_items first_clash pr_data) as [items|e] eqn:Hitems;
    [|by eapply all_timeline_items_raises].
  destruct (all_timeline_items_returns _ _ _ Hitems)
    as (gathered & entries & Hgathered & Hsort & _).
  exists gathered. split; [done|].
  by destruct (sort_by_returns _ _ _ _ Hsort) as (_ & _ & Hstable).
Qed.

Section reading.
Context {B : Type} (read : block → option B).

Lemma read_flat_map {A : Type} (f : A → list block) (g : A → list B) (l : list A) :
  (∀ x, omap read (f x) = g x) →
  omap read (flat_map f l) = flat_map g l.
Proof.
  intros Hfg. induction l as [|x l IH]; [done|].
  cbn [flat_map]. by rewrite omap_app, Hfg, IH.
Qed.

(** What is read from the blocks a loop has appended is what is read
    from the blocks of each item, in order. *)
Lemma read_collect {A : Type} (f : A → result (list block)) (g : A → list B)
  (l : list A) (out : list block) :
  collect f l = Return out →
  (∀ x part, f x = Return part → omap read part = g x) →
  omap read out = concat (g <$> l).
Proof.
  intros (parts & Hparts & ->)%collect_returns Hfg.
  induction Hparts as [|x part l parts Hx _ IH]; [done|].
  cbn [concat fmap list_fmap]. rewrite omap_app, IH. f_equal. by apply Hfg.
Qed.

End reading.

Lemma concat_fmap_nil {A B : Type} (l : list A) :
  concat ((λ _ : A, @nil B) <$> l) = [].
Proof. by induction l. Qed.

Lemma concat_fmap_singleton {A B : Type} (f : A → B) (l : list A) :
  concat ((λ x, [f x]) <$> l) = f <$> l.
Proof. induction l as [|x l IH]; [done|]. cbn [fmap list_fmap concat]. by rewrite IH. Qed.

Lemma flat_map_nil {A B : Type} (l : list A) : flat_map (λ _ : A, @nil B) l = [].
Proof. by induction l. Qed.

Lemma flat_map_singleton {A B : Type} (f : A → B) (l : list A) :
  flat_map (λ x, [f x]) l = f <$> l.
Proof. induction l as [|x l IH]; [done|]. simpl. by rewrite IH. Qed.

Lemma fmap_enumerate {A B : Type} (h : nat → A → B) (start : nat) (l : list A) :
  (λ entry, h entry.1 entry.2) <$> enumerate start l
  = imap (λ i x, h (start + i)%nat x) l.
Proof.
  revert start. induction l as [|x l IH]; intros start; [done|].
  cbn [enumerate fmap list_fmap imap]. rewrite Nat.add_0_r, IH. f_equal.
  apply imap_ext. intros i y _. simpl. f_equal. lia.
Qed.

Lemma fmap_enumerate_snd {A B : Type} (f : A → B) (start : nat) (l : list A) :
  (λ entry, f entry.2) <$> enumerate start l = f <$> l.
Proof.
  revert start. induction l as [|x l IH]; intros start; [done|].
  cbn [enumerate fmap list_fmap]. by rewrite IH.
Qed.

Lemma enumerate_from {A : Type} (start : nat) (l : list A) :
  Forall (λ entry, (start ≤ entry.1)%nat) (enumerate start l).
Proof.
  revert start. induction l as [|x l IH]; intros start; [constructor|].
  cbn [enumerate]. constructor; [done|].
  eapply Forall_impl; [apply IH|]. intros entry Hentry. simpl in *. lia.
Qed.

(** *** The headings *)

Lemma outline_thread_comments (comments : list (nat * ThreadComment))
  (of_comments : list block) :
  collect thread_comment_blocks comments = Return of_comments →
  outline of_comments = [].
Proof.
  intros Hcomments. unfold outline.
  rewrite (read_collect _ _ (λ _, []) _ _ Hcomments); [apply concat_fmap_nil|].
  intros [idx comment] part. unfold thread_comment_blocks.
  destruct (tc_author comment) as [login|]; [|done]. intros [= <-].
  destruct idx, (tc_diffHunk comment) as [hunk|]; try destruct (str_bool hunk); done.
Qed.

Lemma outline_unresolved_thread (entry : nat * UnresolvedThread) (part : list block) :
  unresolved_thread_blocks entry = Return part →
  outline part
  = [(3, str_of_int (Z.of_nat entry.1) +:+ ". Comment by @" +:+ u_author entry.2)]%nat.
Proof.
  destruct entry as [i thread]. unfold unresolved_thread_blocks, mbind, result_mbind.
  destruct (collect thread_comment_blocks _) as [of_comments|e] eqn:Hcomments; [|done].
  intros [= <-]. apply outline_thread_comments in Hcomments.
  unfold outline in *. cbn [omap list_omap fst snd]. rewrite omap_app.
  cbn [omap list_omap]. rewrite Hcomments.
  by destruct (str_bool (u_path thread)).
Qed.

Lemma outline_discussion (items : list timeline_item) :
  outline (discussion_blocks items)
  = match items with
    | [] => []
    | _ :: _ => [(2, "Discussion & Reviews")]%nat
    end.
Proof.
  unfold discussion_blocks, outline. destruct items as [|item items]; [done|].
  cbn [omap list_omap]. f_equal.
  rewrite (read_flat_map _ timeline_blocks (λ _, [])); [apply flat_map_nil|].
  by intros [].
Qed.

(** X19: the headings [generate_markdown_summary] adds to the document
    with [doc.add_heading], in their order: the title with the number of
    the pull request; "Summary"; "Description" when the body is there and
    not empty; "Files Changed"; "Discussion & Reviews" when there is a
    general comment or a review with a body; "Unresolved Review Comments";
    and after it one heading of level 3 for each unresolved thread,
    numbered from 1 in the order of the threads, with the author of the
    thread.  It adds no other heading; the bodies it takes over go in with
    [doc.add_raw], whatever they hold.  (Where the document is not made, a
    [TypeError] has been raised.) *)
Theorem summary_document_outline (first_clash : list (option string) → clash)
  (pr_data : PullRequest) (unresolved_threads : list UnresolvedThread) :
  match summary_document first_clash pr_data unresolved_threads with
  | Return doc =>
      outline doc
      = [(1, "PR #" +:+ str_of_int (number pr_data) +:+ ": " +:+ title pr_data);
         (2, "Summary")]%nat
        ++ (if get_text_bool (body pr_data) then [(2, "Description")] else [])%nat
        ++ [(2, "Files Changed")]%nat
        ++ match entries_of pr_data with
           | [] => []
           | _ :: _ => [(2, "Discussion & Reviews")]%nat
           end
        ++ [(2, "Unresolved Review Comments")]%nat
        ++ imap (λ i thread,
                   (3, str_of_int (Z.of_nat (S i)) +:+ ". Comment by @"
                         +:+ u_author thread)%nat)
             unresolved_threads
  | Raise e => ∃ msg, e = TypeError msg
  end.
Proof.
  pose proof (summary_document_outcome first_clash pr_data unresolved_threads) as Hdoc.
  destruct (summary_document first_clash pr_data unresolved_threads) as [doc|e];
    [|by destruct Hdoc].
  destruct Hdoc as (header & items & unresolved & Hheader & Hitems & Hunresolved & ->).
  unfold outline at 1. rewrite !omap_app.
  fold (outline header) (outline (description_blocks pr_data))
    (outline (file_blocks pr_data)) (outline (discussion_blocks items))
    (outline unresolved).
  assert (outline header
          = [(1, "PR #" +:+ str_of_int (number pr_data) +:+ ": " +:+ title pr_data)]%nat)
    as ->.
  { unfold header_blocks in Hheader. destruct (author pr_data); [|done].
    by injection Hheader as <-. }
  assert (outline (description_blocks pr_data)
          = if get_text_bool (body pr_data) then [(2, "Description")]%nat else []) as ->.
  { unfold description_blocks, get_text_bool.
    destruct (body pr_data) as [text|]; [|done]. by destruct (text_bool text). }
  assert (outline (file_blocks pr_data) = [(2, "Files Changed")]%nat) as ->.
  { unfold file_blocks. by destruct (nodes (files pr_data)). }
  assert (outline (discussion_blocks items)
          = match entries_of pr_data with
            | [] => []
            | _ :: _ => [(2, "Discussion & Reviews")]%nat
            end) as ->.
  { rewrite outline_discussion.
    destruct (all_timeline_items_returns _ _ _ Hitems)
      as (gathered & entries & _ & _ & Hperm & Hrel & _).
    destruct Hrel.
    - apply Permutation_nil_r in Hperm. by rewrite Hperm.
    - destruct (entries_of pr_data); [|done]. by apply Permutation_nil_cons in Hperm. }
  assert (outline unresolved
          = (2, "Unresolved Review Comments")%nat
            :: imap (λ i thread,
                       (3, str_of_int (Z.of_nat (S i)) +:+ ". Comment by @"
                             +:+ u_author thread)%nat)
                 unresolved_threads) as ->.
  { unfold unresolved_blocks, mbind, result_mbind in Hunresolved.
    destruct unresolved_threads as [|thread threads].
    { by injection Hunresolved as <-. }
    destruct (collect unresolved_thread_blocks _) as [of_threads|e] eqn:Hthreads; [|done].
    injection Hunresolved as <-. unfold outline. cbn [omap list_omap]. f_equal.
    rewrite (read_collect _ _
               (λ entry, [(3, str_of_int (Z.of_nat entry.1) +:+ ". Comment by @"
                                +:+ u_author entry.2)%nat]) _ _ Hthreads).
    - rewrite concat_fmap_singleton.
      apply (fmap_enumerate
               (λ i thread, (3, str_of_int (Z.of_nat i) +:+ ". Comment by @"
                                  +:+ u_author thread)%nat) 1).
    - intros entry part. apply outline_unresolved_thread. }
  reflexivity.
Qed.

(** *** The raw texts *)

Lemma raw_texts_thread_comments (start : nat) (comments : list ThreadComment)
  (of_comments : list block) :
  collect thread_comment_blocks (enumerate start comments) = Return of_comments →
  raw_texts of_comments = tc_body <$> comments.
Proof.
  intros Hcomments. unfold raw_texts.
  rewrite (read_collect _ _ (λ entry, [tc_body entry.2]) _ _ Hcomments).
  - rewrite concat_fmap_singleton. apply (fmap_enumerate_snd tc_body).
  - intros [idx comment] part. unfold thread_comment_blocks.
    destruct (tc_author comment) as [login|]; [|done]. intros [= <-].
    destruct idx, (tc_diffHunk comment) as [hunk|]; try destruct (str_bool hunk); done.
Qed.

(** X20: the texts the document takes over as they are (raw, without
    escaping) are the body of the pull request when it is there and not
    empty, then the bodies of the items of the timeline in their order,
    then the bodies of all the comments of the unresolved threads, thread
    by thread; nothing else is added raw.  (Where the document is not
    made, a [TypeError] has been raised.) *)
Theorem summary_document_raw_texts (first_clash : list (option string) → clash)
  (pr_data : PullRequest) (unresolved_threads : list UnresolvedThread) :
  match summary_document first_clash pr_data unresolved_threads with
  | Return doc =>
      ∃ items,
        all_timeline_items first_clash pr_data = Return items
        ∧ raw_texts doc
          = match body pr_data with
            | Some text => if text_bool text then [text] else []
            | None => []
            end
            ++ (item_body <$> items)
            ++ concat ((λ thread, tc_body <$> allComments thread) <$> unresolved_threads)
  | Raise e => ∃ msg, e = TypeError msg
  end.
Proof.
  pose proof (summary_document_outcome first_clash pr_data unresolved_threads) as Hdoc.
  destruct (summary_document first_clash pr_data unresolved_threads) as [doc|e];
    [|by destruct Hdoc].
  destruct Hdoc as (header & items & unresolved & Hheader & Hitems & Hunresolved & ->).
  exists items. split; [done|].
  unfold raw_texts at 1. rewrite !omap_app.
  fold (raw_texts header) (raw_texts (stats_blocks pr_data unresolved_threads))
    (raw_texts (description_blocks pr_data)) (raw_texts (file_blocks pr_data))
    (raw_texts (discussion_blocks items)) (raw_texts unresolved).
  assert (raw_texts header = []) as ->.
  { unfold header_blocks in Hheader. destruct (author pr_data); [|done].
    by injection Hheader as <-. }
  assert (raw_texts (file_blocks pr_data) = []) as ->.
  { unfold file_blocks. by destruct (nodes (files pr_data)). }
  assert (raw_texts (description_blocks pr_data)
          = match body pr_data with
            | Some text => if text_bool text then [text] else []
            | None => []
            end) as ->.
  { unfold description_blocks.
    destruct (body pr_data) as [text|]; [|done]. by destruct (text_bool text). }
  assert (raw_texts (discussion_blocks items) = item_body <$> items) as ->.
  { unfold discussion_blocks, raw_texts. destruct items as [|item items]; [done|].
    cbn [omap list_omap].
    rewrite (read_flat_map _ timeline_blocks (λ item, [item_body item]));
      [apply flat_map_singleton|].
    by intros []. }
  assert (raw_texts unresolved
          = concat ((λ thread, tc_body <$> allComments thread) <$> unresolved_threads))
    as ->.
  { unfold unresolved_blocks, mbind, result_mbind in Hunresolved.
    destruct unresolved_threads as [|thread threads].
    { by injection Hunresolved as <-. }
    destruct (collect unresolved_thread_blocks _) as [of_threads|e] eqn:Hthreads; [|done].
    injection Hunresolved as <-. unfold raw_texts. cbn [omap list_omap].
    rewrite (read_collect _ _ (λ entry, tc_body <$> allComments entry.2) _ _ Hthreads).
    - by rewrite (fmap_enumerate_snd (λ thread, tc_body <$> allComments thread)).
    - intros [i t] part. unfold unresolved_thread_blocks, mbind, result_mbind.
      destruct (collect thread_comment_blocks _) as [of_comments|e] eqn:Hcomments;
        [|done].
      intros [= <-]. apply raw_texts_thread_comments in Hcomments.
      unfold raw_texts in *. cbn [omap list_omap fst snd]. rewrite omap_app.
      cbn [omap list_omap]. rewrite Hcomments.
      by destruct (str_bool (u_path t)). }
  reflexivity.
Qed.

(** *** The code blocks *)

Lemma code_blocks_later_comments (start : nat) (comments : list ThreadComment)
  (of_comments : list block) :
  collect thread_comment_blocks (enumerate (S start) comments) = Return of_comments →
  code_blocks of_comments = [].
Proof.
  intros Hcomments. apply collect_returns in Hcomments as (parts & Hparts & ->).
  pose proof (enumerate_from (S start) comments) as Hfrom.
  induction Hparts as [|[idx comment] part l parts Hx _ IH]; [done|].
  apply Forall_cons in Hfrom as [Hidx Hfrom]. simpl in Hidx.
  cbn [concat]. unfold code_blocks in *. rewrite omap_app, IH by done.
  unfold thread_comment_blocks in Hx.
  destruct (tc_author comment) as [login|]; [|done]. injection Hx as <-.
  destruct idx; [lia|]. by destruct (tc_diffHunk comment).
Qed.

Lemma code_blocks_thread_comments (comments : list ThreadComment)
  (of_comments : list block) :
  collect thread_comment_blocks (enumerate 0 comments) = Return of_comments →
  code_blocks of_comments
  = match comments with
    | comment :: _ =>
        match tc_diffHunk comment with
        | Some hunk => if str_bool hunk then [(hunk, "diff")] else []
        | None => []
        end
    | [] => []
    end.
Proof.
  destruct comments as [|comment comments]; [by intros [= <-]|].
  cbn [enumerate collect]. unfold mbind, result_mbind.
  destruct (thread_comment_blocks (0, comment)%nat) as [part|e] eqn:Hfirst; [|done].
  cbn [result_bind].
  destruct (collect thread_comment_blocks _) as [rest|e] eqn:Hrest; [|done].
  intros [= <-]. apply code_blocks_later_comments in Hrest.
  unfold code_blocks in *. rewrite omap_app, Hrest, app_nil_r.
  unfold thread_comment_blocks in Hfirst.
  destruct (tc_author comment) as [login|]; [|done]. injection Hfirst as <-.
  destruct (tc_diffHunk comment) as [hunk|]; [|done]. by destruct (str_bool hunk).
Qed.

(** X21: the code blocks [generate_markdown_summary] adds to the document
    with [doc.add_code] are the diff hunks of the opening comments of the
    unresolved threads, one for each thread whose opening comment has a
    hunk that is not empty, in the order of the threads and marked as diff;
    the hunks of the later comments of a thread are not added.  (A body
    added with [doc.add_raw] goes in as it is, with what it holds.  Where
    the document is not made, a [TypeError] has been raised.) *)
Theorem summary_document_code_blocks (first_clash : list (option string) → clash)
  (pr_data : PullRequest) (unresolved_threads : list UnresolvedThread) :
  match summary_document first_clash pr_data unresolved_threads with
  | Return doc =>
      code_blocks doc = (λ hunk, (hunk, "diff")) <$> omap shown_hunk unresolved_threads
  | Raise e => ∃ msg, e = TypeError msg
  end.
Proof.
  pose proof (summary_document_outcome first_clash pr_data unresolved_threads) as Hdoc.
  destruct (summary_document first_clash pr_data unresolved_threads) as [doc|e];
    [|by destruct Hdoc].
  destruct Hdoc as (header & items & unresolved & Hheader & Hitems & Hunresolved & ->).
  unfold code_blocks at 1. rewrite !omap_app.
  fold (code_blocks header) (code_blocks (stats_blocks pr_data unresolved_threads))
    (code_blocks (description_blocks pr_data)) (code_blocks (file_blocks pr_data))
    (code_blocks (discussion_blocks items)) (code_blocks unresolved).
  assert (code_blocks header = []) as ->.
  { unfold header_blocks in Hheader. destruct (author pr_data); [|done].
    by injection Hheader as <-. }
  assert (code_blocks (description_blocks pr_data) = []) as ->.
  { unfold description_blocks.
    destruct (body pr_data) as [text|]; [|done]. by destruct (text_bool text). }
  assert (code_blocks (file_blocks pr_data) = []) as ->.
  { unfold file_blocks. by destruct (nodes (files pr_data)). }
  assert (code_blocks (discussion_blocks items) = []) as ->.
  { unfold discussion_blocks, code_blocks. destruct items as [|item items]; [done|].
    cbn [omap list_omap].
    rewrite (read_flat_map _ timeline_blocks (λ _, [])); [apply flat_map_nil|].
    by intros []. }
  change (code_blocks (stats_blocks pr_data unresolved_threads)) with (@nil (string * string)).
  cbn [app].
  unfold unresolved_blocks, mbind, result_mbind in Hunresolved.
  destruct unresolved_threads as [|thread threads].
  { by injection Hunresolved as <-. }
  destruct (collect unresolved_thread_blocks _) as [of_threads|e] eqn:Hthreads; [|done].
  injection Hunresolved as <-.
  change (code_blocks (Heading 2 "Unresolved Review Comments" :: of_threads))
    with (code_blocks of_threads).
  unfold code_blocks.
  rewrite (read_collect _ _
             (λ entry, (λ hunk, (hunk, "diff")) <$> option_list (shown_hunk entry.2))
             _ _ Hthreads).
  - rewrite (fmap_enumerate_snd
               (λ thread, (λ hunk, (hunk, "diff")) <$> option_list (shown_hunk thread))).
    generalize (thread :: threads). intros l.
    induction l as [|x l IH]; [done|].
    cbn [fmap list_fmap concat omap list_omap] in *. rewrite IH.
    by destruct (shown_hunk x).
  - intros [i t] part. unfold unresolved_thread_blocks, mbind, result_mbind.
    destruct (collect thread_comment_blocks _) as [of_comments|e] eqn:Hcomments; [|done].
    intros [= <-]. apply code_blocks_thread_comments in Hcomments.
    unfold code_blocks in *. cbn [omap list_omap fst snd]. rewrite omap_app.
    cbn [omap list_omap]. rewrite Hcomments. unfold shown_hunk.
    destruct (str_bool (u_path t)); cbn [omap list_omap app];
      destruct (allComments t) as [|comment comments]; try done;
      destruct (tc_diffHunk comment) as [hunk|]; try done; by destruct (str_bool hunk).
Qed.

(** *** When no document is made *)

(** X23: when [generate_markdown_summary] makes no document.  It raises
    exactly in these cases, and the first of them that holds tells what it
    raises: the author of the pull request is null; the author of a
    general comment, or of a review with a body, is null; there are two
    entries or more for the discussion and the timestamp of one is null
    (the [submittedAt] of a review that is not submitted), which the sort
    cannot compare; the author of a comment of an unresolved thread is
    null.  What it raises is a [TypeError]: that of the sort in the third
    case, "'NoneType' object is not subscriptable" in the others. *)
Theorem summary_document_raises (first_clash : list (option string) → clash)
  (pr_data : PullRequest) (unresolved_threads : list UnresolvedThread)
  (e : exception) :
  let entries := entries_of pr_data in
  let not_subscriptable := TypeError "'NoneType' object is not subscriptable" in
  summary_document first_clash pr_data unresolved_threads = Raise e ↔
  author pr_data = None ∧ e = not_subscriptable
  ∨ author pr_data ≠ None
    ∧ (Exists (λ en, entry_author en = None) entries ∧ e = not_subscriptable
       ∨ Forall (λ en, entry_author en ≠ None) entries
         ∧ ((2 ≤ length entries)%nat
            ∧ Exists (λ en, entry_time en = None) entries
            ∧ e = TypeError (unorderable (first_clash (entry_time <$> entries)))
            ∨ ((length entries < 2)%nat ∨ Forall (λ en, entry_time en ≠ None) entries)
              ∧ Exists (λ thread, Exists (λ comment, tc_author comment = None)
                                    (allComments thread)) unresolved_threads
              ∧ e = not_subscriptable)).
Proof.
  intros entries not_subscriptable.
  pose proof (all_timeline_items_cases first_clash pr_data) as Hitems.
  pose proof (unresolved_blocks_cases unresolved_threads) as Hunresolved.
  fold entries in Hitems.
  unfold summary_document, header_blocks, mbind, result_mbind.
  destruct (author pr_data) as [login|]; cbn [subscript result_bind].
  2:{ split; [intros [= <-]; by left|]. by intros [[_ ->]|[? _]]. }
  destruct (all_timeline_items first_clash pr_data) as [items|e1]; cbn [result_bind].
  - destruct Hitems as [Hauthors Htimes].
    destruct (unresolved_blocks unresolved_threads) as [blocks|e2]; cbn [result_bind].
    + split; [done|].
      intros [[[=] _]|[_ [[Hex _]|[_ [(Hlen & Hex & _)|(_ & Hex & _)]]]]].
      * destruct (Forall_not_Exists _ _ Hauthors Hex).
      * destruct Htimes as [?|Htimes]; [lia|].
        destruct (Forall_not_Exists _ _ Htimes Hex).
      * exfalso. apply Exists_exists in Hex as (thread & Hin & Hex).
        rewrite Forall_forall in Hunresolved.
        exact (Forall_not_Exists _ _ (Hunresolved thread Hin) Hex).
    + destruct Hunresolved as [Hex ->]. split.
      * intros [= <-]. right. split; [done|]. right. split; [done|]. by right.
      * intros [[[=] _]|[_ [[Hex' _]|[_ [(Hlen & Hex' & _)|(_ & _ & ->)]]]]].
        -- destruct (Forall_not_Exists _ _ Hauthors Hex').
        -- destruct Htimes as [?|Htimes]; [lia|].
           destruct (Forall_not_Exists _ _ Htimes Hex').
        -- done.
  - split.
    + intros [= <-]. right. split; [done|].
      destruct Hitems as [[Hex ->]|(Hauthors & Hlen & Hex & ->)]; [by left|].
      right. split; [done|]. by left.
    + intros Hcases.
      destruct Hitems as [[Hex ->]|(Hauthors & Hlen & Hex & ->)].
      * destruct Hcases as [[[=] _]|[_ [[_ ->]|[Hauthors _]]]]; [done|].
        destruct (Forall_not_Exists _ _ Hauthors Hex).
      * destruct Hcases as [[[=] _]|[_ [[Hex' _]|[_ [(_ & _ & ->)|(Htimes & _)]]]]].
        -- destruct (Forall_not_Exists _ _ Hauthors Hex').
        -- done.
        -- destruct Htimes as [?|Htimes]; [lia|].
           destruct (Forall_not_Exists _ _ Htimes Hex).
Qed.

(** *** The command line *)

(** X22: [main] of summarize-pr.py ends with status 0 exactly when it has
    three arguments, the number converts, [get_pr_data] returns,
    [extract_unresolved_threads] returns and [generate_markdown_summary]
    makes the document, and then prints the text of that document, alone,
    to standard output.  Otherwise it prints nothing to standard output:
    with another number of arguments it prints the usage line and ends
    with status 1 without calling anything; an exception of the fetch, of
    the extraction or of the making of the document never escapes, it is
    printed as "Error: ..." after what the run had logged, with status 1.
    Only the conversion of the number, made before the [try], can raise
    out of [main]; and [main] goes on for ever only when the fetch
    does. *)
Theorem summarize_pr_main_contract (int : string → result Z)
  (str_of_document : document → string) (first_clash : list (option string) → clash)
  (fuel : nat) (w : Services) (argv : list string) :
  match summarize_pr_main int str_of_document first_clash fuel w argv with
  | (Returned (status, out), log) =>
      (status = 0%Z
       ∧ ∃ prog owner repo number pr_number pr_data unresolved_threads doc,
           argv = [prog; owner; repo; number]
           ∧ int number = Return pr_number
           ∧ get_pr_data fuel w owner repo pr_number = (Returned pr_data, log)
           ∧ extract_unresolved_threads pr_data = Return unresolved_threads
           ∧ summary_document first_clash pr_data unresolved_threads = Return doc
           ∧ out = [str_of_document doc])
      ∨ (status = 1%Z ∧ out = []
         ∧ (length argv ≠ 4 ∧ log = [Stderr summarize_pr_usage]
            ∨ ∃ prog owner repo number pr_number e sent,
                argv = [prog; owner; repo; number]
                ∧ int number = Return pr_number
                ∧ log = sent ++ [Stderr ("Error: " +:+ str_of_exception e)]
                ∧ (get_pr_data fuel w owner repo pr_number = (Raised e, sent)
                   ∨ ∃ pr_data,
                       get_pr_data fuel w owner repo pr_number = (Returned pr_data, sent)
                       ∧ (extract_unresolved_threads pr_data = Raise e
                          ∨ ∃ unresolved_threads,
                              extract_unresolved_threads pr_data
                              = Return unresolved_threads
                              ∧ summary_document first_clash pr_data unresolved_threads
                                = Raise e))))
  | (Raised e, log) =>
      log = []
      ∧ ∃ prog owner repo number,
          argv = [prog; owner; repo; number] ∧ int number = Raise e
  | (OutOfFuel, log) =>
      ∃ prog owner repo number pr_number,
        argv = [prog; owner; repo; number]
        ∧ int number = Return pr_number
        ∧ get_pr_data fuel w owner repo pr_number = (OutOfFuel, log)
  end.
Proof.
  unfold summarize_pr_main.
  destruct argv as [|prog [|owner [|repo [|number [|extra argv]]]]];
    try (io_simpl; right; split_and!; try done; left; by split).
  destruct (int number) as [pr_number|e] eqn:Hint;
    [|io_simpl; split; [done|]; by exists prog, owner, repo, number].
  change (lift (E := event query) (Return pr_number))
    with (Returned pr_number, @nil (event query)).
  rewrite bind_return. cbn [fst snd app].
  destruct (get_pr_data fuel w owner repo pr_number) as [[pr_data|e|] sent] eqn:Hrun.
  - rewrite bind_return.
    destruct (extract_unresolved_threads pr_data) as [unresolved_threads|e] eqn:Hextract.
    + change (lift (E := event query) (Return unresolved_threads))
        with (Returned unresolved_threads, @nil (event query)).
      rewrite bind_return. cbn [fst snd app]. unfold generate_markdown_summary.
      destruct (summary_document first_clash pr_data unresolved_threads) as [doc|e]
        eqn:Hdoc.
      * io_simpl. left. split; [done|].
        exists prog, owner, repo, number, pr_number, pr_data, unresolved_threads, doc.
        by rewrite !app_nil_r.
      * io_simpl. right. split_and!; try done. right.
        exists prog, owner, repo, number, pr_number, e, sent.
        rewrite !app_nil_r. split_and!; try done. right. exists pr_data.
        split; [done|]. right. by exists unresolved_threads.
    + io_simpl. right. split_and!; try done. right.
      exists prog, owner, repo, number, pr_number, e, sent.
      rewrite !app_nil_r. split_and!; try done. right. exists pr_data.
      split; [done|]. by left.
  - io_simpl. right. split_and!; try done. right.
    exists prog, owner, repo, number, pr_number, e, sent. split_and!; try done. by left.
  - io_simpl. by exists prog, owner, repo, number, pr_number.
Qed.

(** A thread without a comment makes the run end with the message of the
    [IndexError] and status 1. *)
Example summarize_pr_main_empty_thread :
  summarize_pr_main (λ _, Return 7%Z) (λ _, "") (λ _, NoneAndStr)
    0 {| environ := {["GH_TOKEN" := "secret"]};
         spawn := λ _ _, NotStarted "gh: not found";
         execute := λ _ _, Return empty_thread_pull_request |}
    ["summarize-pr.py"; "bob"; "repo"; "7"]
  = (Returned (1%Z, []),
     [Outside (Execute {| v_owner := "bob"; v_repo := "repo"; v_number := 7;
                          filesCursor := None; threadsCursor := None;
                          commentsCursor := None; reviewsCursor := None |});
      Stderr "Error: list index out of range"]).
Proof. vm_compute. reflexivity. Qed.

(** A general comment whose author is no longer there: no document is
    made. *)
Example summary_document_ghost_comment :
  summary_document (λ _, NoneAndStr)
    (set_comments end_to_end_pull_request
       [{| comment_id := "c0"; comment_author := None;
           comment_body := text_of_ascii "ping";
           comment_createdAt := "2024-01-01T00:00:00Z" |}]) []
  = Raise (TypeError "'NoneType' object is not subscriptable").
Proof. vm_compute. reflexivity. Qed.

(** A review with a body that is not submitted yet, next to a submitted
    one: the sort cannot compare their timestamps. *)
Example summary_document_pending_review :
  summary_document (λ _, NoneAndStr)
    (set_reviews end_to_end_pull_request
       [{| review_id := "r0"; review_author := Some "dave"; review_state := "PENDING";
           review_body := Some (text_of_ascii "wip"); review_submittedAt := None |};
        example_review]) []
  = Raise (TypeError "'<' not supported between instances of 'NoneType' and 'str'").
Proof. vm_compute. reflexivity. Qed.

(** Alone, the review that is not submitted is shown, with [None] for its
    timestamp. *)
Example summary_document_pending_review_alone :
  match summary_document (λ _, NoneAndStr)
          (set_reviews end_to_end_pull_request
             [{| review_id := "r0"; review_author := Some "dave";
                 review_state := "PENDING"; review_body := Some (text_of_ascii "wip");
                 review_submittedAt := None |}]) []
  with
  | Return doc => section_of "Discussion & Reviews" doc
  | Raise _ => None
  end
  = Some [Para [Bold "@dave"; Text " (None) - ⏳ PENDING:"];
          Raw (text_of_ascii "wip"); HorizontalRule].
Proof. vm_compute. reflexivity. Qed.

End SummarizePrMore.
